(** * backpy: the backup runner of [src/backpy.py]

    A shallow embedding of [LockFile] and [BackupRunner] and the proofs of
    the properties its specification states about locking, the copy pool,
    archiving, retention and cleanup.

    The program is a sequence of operating-system calls with Python's
    exception discipline ([try]/[except]/[finally], [with]).  It is embedded
    in a small monad over a model of the file system: a computation maps a
    file-system state to a result (a value or a raised exception), the new
    state, and the trace of what it did (log records, method entries and
    operating-system calls, in order). *)

From Stdlib Require Import ZArith String List Lia.
From stdpp Require Import base option list gmap strings pretty sorting.

Local Open Scope string_scope.
Local Open Scope Z_scope.
Local Open Scope list_scope.

(** ** Paths ([os.path])

    A path is the list of its components below the root, in resolved form:
    absolute, without symbolic links.  The configured paths are taken in this
    form. *)

Module OsPath.

Abbreviation path := (list string).

(** [.] and [..] are not names of directory entries. *)
Definition special (c : string) : bool := String.eqb c "." || String.eqb c "..".

(** The longest common prefix of two component lists. *)
Fixpoint lcp (a b : path) : path :=
  match a, b with
  | x :: a', y :: b' => if String.eqb x y then x :: lcp a' b' else []
  | _, _ => []
  end.

(** [os.path.commonpath]: the longest common sub-path of a non-empty
    sequence of paths, compared component by component; [ValueError]
    ([None]) on an empty sequence. *)
Definition commonpath (ps : list path) : option path :=
  match ps with
  | [] => None
  | p :: ps' => Some (foldl lcp p ps')
  end.

(** [os.path.relpath p start]: one [..] for each component of [start]
    that is not shared with [p], then what remains of [p]; [.] when
    nothing remains. *)
Definition relpath (p start : path) : path :=
  let i := length (lcp p start) in
  match replicate (length start - i)%nat ".." ++ drop i p with
  | [] => ["."]
  | r => r
  end.

(** [os.path.dirname] and [os.path.basename]. *)
Definition dirname (p : path) : path := take (length p - 1)%nat p.
Definition basename (p : path) : string := default "" (last p).

(** [os.path.join a r] for a relative [r], as the operating system
    resolves the joined path: [.] stays, [..] goes to the parent, a name
    goes down. *)
Definition join_step (acc : path) (c : string) : path :=
  if String.eqb c "." then acc
  else if String.eqb c ".." then dirname acc
  else acc ++ [c].
Definition join (a r : path) : path := foldl join_step a r.

(** [strip_prefix p k = Some r] when [k = p ++ r]. *)
Fixpoint strip_prefix (p k : path) : option path :=
  match p, k with
  | [], _ => Some k
  | x :: p', y :: k' => if String.eqb x y then strip_prefix p' k' else None
  | _ :: _, [] => None
  end.

(** The non-empty prefixes of a path, shortest first: the directories
    [os.makedirs] visits. *)
Definition prefixes (p : path) : list path :=
  (λ n, take n p) <$> seq 1 (length p).

End OsPath.
Export OsPath.

(** ** Strings ([str.startswith], [str.endswith]) *)

Fixpoint string_drop (n : nat) (s : string) : string :=
  match n, s with
  | O, _ => s
  | S n', String _ s' => string_drop n' s'
  | S _, EmptyString => EmptyString
  end.

Definition startswith (s pre : string) : bool := String.prefix pre s.

Definition endswith (s suf : string) : bool :=
  (String.length suf <=? String.length s)%nat
  && String.eqb (string_drop (String.length s - String.length suf)%nat s) suf.

(** ** The file system

    File contents are byte strings or archives; an archive is the list of
    its entries (entry name, content) in the order they were written.
    Every node carries its modification time ([st_mtime], as an integer). *)

#[warnings="-register-all"]
Inductive data :=
| Bytes (s : string)
| Zip (entries : list (path * data)).

Inductive node :=
| File (d : data) (mtime : Z)
| Dir (mtime : Z).

Abbreviation fsys := (gmap path node).

Fixpoint data_size (d : data) : Z :=
  match d with
  | Bytes s => Z.of_nat (String.length s)
  | Zip es => fold_right (λ e acc, data_size (snd e) + acc) 0 es
  end.

Definition node_mtime (n : node) : Z :=
  match n with File _ m => m | Dir m => m end.

(** The root directory always exists. *)
Definition node_at (s : fsys) (p : path) : option node :=
  match p with
  | [] => Some (Dir 0)
  | _ => s !! p
  end.

Definition is_file (s : fsys) (p : path) : bool :=
  match node_at s p with Some (File _ _) => true | _ => false end.

Definition is_dir (s : fsys) (p : path) : bool :=
  match node_at s p with Some (Dir _) => true | _ => false end.

(** ** Operating-system calls, exceptions, the log and the trace *)

Inductive syscall :=
| sys_exists (p : path)
| sys_isdir (p : path)
| sys_getsize (p : path)
| sys_getmtime (p : path)
| sys_listdir (p : path)
| sys_walk (p : path)
| sys_rmtree (p : path)
| sys_makedirs (p : path)
| sys_open_w (p : path)
| sys_write (p : path)
| sys_remove (p : path)
| sys_copy2 (src dst : path)
| sys_zip_open (p : path)
| sys_zip_write (out file arcname : path).

(** The exceptions of the program: the [RuntimeError] of the lock, the
    [OSError] family of the operating-system calls (tagged with the call
    that failed), and [ValueError]. All are subclasses of [Exception]. *)
Inductive exn :=
| RuntimeError (lock : path)
| OSError (c : syscall)
| ValueError.

Inductive level := INFO | WARNING | ERROR | CRITICAL.

(** One constructor per [logging] call of the source. *)
Inductive message :=
| MsgStart                                   (* INICIANDO PROCESSO DE BACKUP *)
| MsgSourceMissing (folder : path)           (* Pasta de origem nao encontrada *)
| MsgCopyFailed (src : path) (e : exn)       (* Falha ao copiar *)
| MsgCopying (n : nat) (total workers : Z)   (* Copiando n arquivos *)
| MsgDryCopy                                 (* [DRY RUN] copia *)
| MsgDryZip (out : path)                     (* [DRY RUN] criacao do arquivo *)
| MsgZipping (out : path)                    (* Compactando staging *)
| MsgZipDone                                 (* Compactacao concluida *)
| MsgDryCleanStaging (staging : path)        (* [DRY RUN] limpeza da pasta *)
| MsgCleanStaging (staging : path)           (* Limpando pasta de staging *)
| MsgRetentionCheck (retention : Z)          (* Verificando backups antigos *)
| MsgDryDelete (name : string)               (* [DRY RUN] exclusao do backup antigo *)
| MsgDelete (name : string)                  (* Excluindo backup antigo *)
| MsgRetentionError (e : exn)                (* Erro durante a limpeza de backups antigos *)
| MsgNoFiles                                 (* Nenhum arquivo encontrado *)
| MsgRunError (e : exn)                      (* Erro de execucao *)
| MsgFatal (e : exn)                         (* erro fatal no processo de backup *)
| MsgElapsed                                 (* Tempo total do processo *)
| MsgFinished.                               (* PROCESSO DE BACKUP FINALIZADO *)

(** The methods whose entry the trace records. *)
Inductive method :=
| LockFile_enter
| LockFile_exit
| m_get_files_to_backup
| m_copy_worker (src_file : path)
| m_copy_files_to_staging_parallel
| m_zip_staging_folder
| m_cleanup
| m_run.

Inductive event :=
| Log (lv : level) (m : message)
| Call (f : method)
| Sys (c : syscall).

#[global] Instance syscall_eq_dec : EqDecision syscall.
Proof. solve_decision. Defined.
#[global] Instance exn_eq_dec : EqDecision exn.
Proof. solve_decision. Defined.
#[global] Instance level_eq_dec : EqDecision level.
Proof. solve_decision. Defined.
#[global] Instance message_eq_dec : EqDecision message.
Proof. solve_decision. Defined.
#[global] Instance method_eq_dec : EqDecision method.
Proof. solve_decision. Defined.
#[global] Instance event_eq_dec : EqDecision event.
Proof. solve_decision. Defined.

(** ** The monad *)

Inductive res (A : Type) :=
| Ok (a : A)
| Raise (e : exn).
Arguments Ok {A} a.
Arguments Raise {A} e.

Definition M (A : Type) : Type := fsys → res A * fsys * list event.

Definition result {A} (x : res A * fsys * list event) : res A := x.1.1.
Definition state {A} (x : res A * fsys * list event) : fsys := x.1.2.
Definition trace {A} (x : res A * fsys * list event) : list event := x.2.

#[global] Instance M_ret : MRet M := λ A a s, (Ok a, s, []).

#[global] Instance M_bind : MBind M := λ A B k m s,
  match m s with
  | (Ok a, s', t) => let '(r, s'', t') := k a s' in (r, s'', t ++ t')
  | (Raise e, s', t) => (Raise e, s', t)
  end.

Definition raise {A} (e : exn) : M A := λ s, (Raise e, s, []).

Definition emit (e : event) : M unit := λ s, (Ok tt, s, [e]).
Definition log (lv : level) (m : message) : M unit := emit (Log lv m).
Definition call (f : method) : M unit := emit (Call f).

(** [try: m except Exception as e: h e] *)
Definition try_except {A} (m : M A) (h : exn → M A) : M A := λ s,
  match m s with
  | (Raise e, s', t) => let '(r, s'', t') := h e s' in (r, s'', t ++ t')
  | x => x
  end.

(** [try: m finally: f].  The [finally] block runs on every way out of [m];
    an exception it raises replaces the outcome of [m]. *)
Definition try_finally {A} (m : M A) (f : M unit) : M A := λ s,
  let '(r, s', t) := m s in
  let '(r', s'', t') := f s' in
  (match r' with Ok _ => r | Raise e => Raise e end, s'', t ++ t').

(** [with cm: body], for a context manager whose [__exit__] returns [None]
    (so it never swallows the exception of the body). *)
Definition with_ {A} (enter exit : M unit) (body : M A) : M A :=
  enter;; try_finally body exit.

(** [for x in l: f x], collecting the values. *)
Fixpoint for_each {A B} (f : A → M B) (l : list A) : M (list B) :=
  match l with
  | [] => mret []
  | x :: l' => y ← f x; ys ← for_each f l'; mret (y :: ys)
  end.

(** ** Python lists: [sorted] and slices *)

(** [sorted(l, key=key)] is stable: elements with equal keys keep their
    order. *)
Fixpoint insert_by {A} (key : A → Z) (x : A) (l : list A) : list A :=
  match l with
  | [] => [x]
  | y :: l' => if key x <=? key y then x :: y :: l' else y :: insert_by key x l'
  end.

Definition sorted {A} (key : A → Z) (l : list A) : list A :=
  fold_right (insert_by key) [] l.

(** [l[:stop]]: a negative [stop] counts from the end; the bound is clamped
    to the list. *)
Definition slice_to {A} (l : list A) (stop : Z) : list A :=
  let n := Z.of_nat (length l) in
  let stop' := if stop <? 0 then Z.max 0 (stop + n) else Z.min stop n in
  take (Z.to_nat stop') l.

(** ** Configuration and environment *)

Module Config.
(** The keys of the YAML configuration that the program reads. *)
Record t := {
  source_folders : list path;
  destination : path;
  staging_path : path;
  parallel_workers : Z;
  retention : Z;
  prefix : string
}.
End Config.

(** What a run takes from outside the file system: the configuration, the
    [--dry-run] flag, the process identifier, the formatted
    [datetime.now()], the clock that stamps new files, and the
    operating-system calls that fail in this run (permissions, a full disk,
    a file that is held open, ...). *)
Record env := {
  cfg : Config.t;
  dry_run : bool;
  pid : Z;
  timestamp : string;
  now : Z;
  fault : syscall → bool
}.

(** ** The operating-system calls

    Every call records itself in the trace.  A call that the environment
    makes fail raises [OSError] and leaves the file system as it was; a call
    whose precondition the file system does not meet (a missing file, a
    file where a directory is expected, ...) raises [OSError] as well. *)

Module Os.
Section Os.
Variable E : env.

Definition sys {A} (c : syscall) (body : fsys → res A * fsys) : M A := λ s,
  if fault E c then (Raise (OSError c), s, [Sys c])
  else let '(r, s') := body s in (r, s', [Sys c]).

(** [os.path.exists] and [os.path.isdir] never raise. *)
Definition exists_ (p : path) : M bool := λ s,
  (Ok (bool_decide (is_Some (node_at s p))), s, [Sys (sys_exists p)]).

Definition isdir (p : path) : M bool := λ s,
  (Ok (is_dir s p), s, [Sys (sys_isdir p)]).

(** [os.path.getsize]; the size of a directory node is taken as 0. *)
Definition getsize (p : path) : M Z :=
  sys (sys_getsize p) (λ s,
    match node_at s p with
    | Some (File d _) => (Ok (data_size d), s)
    | Some (Dir _) => (Ok 0, s)
    | None => (Raise (OSError (sys_getsize p)), s)
    end).

Definition getmtime (p : path) : M Z :=
  sys (sys_getmtime p) (λ s,
    match node_at s p with
    | Some n => (Ok (node_mtime n), s)
    | None => (Raise (OSError (sys_getmtime p)), s)
    end).

(** The name of [k] as an entry of directory [p], if it is one. *)
Definition entry_of (p k : path) : option string :=
  match strip_prefix p k with
  | Some [n] => if special n then None else Some n
  | _ => None
  end.

(** [os.listdir]: the names of the entries of a directory, in the order
    of the file system, without [.] and [..]. *)
Definition entries (s : fsys) (p : path) : list string :=
  omap (λ kv, entry_of p kv.1) (map_to_list s).

Definition listdir (p : path) : M (list string) :=
  sys (sys_listdir p) (λ s,
    if is_dir s p
    then (Ok (entries s p), s)
    else (Raise (OSError (sys_listdir p)), s)).

(** The files that [os.walk top] reaches, each as [os.path.join(root, f)].
    Errors of the traversal are ignored ([onerror=None]): walking what is
    not a directory yields nothing. *)
Definition file_below (top : path) (kv : path * node) : option path :=
  match strip_prefix top kv.1, kv.2 with
  | Some (_ :: _), File _ _ => Some kv.1
  | _, _ => None
  end.

Definition walk_files (top : path) : M (list path) := λ s,
  (Ok (if is_dir s top then omap (file_below top) (map_to_list s) else []),
   s, [Sys (sys_walk top)]).

(** [shutil.rmtree]: removes a directory and everything below it. *)
Definition rmtree (p : path) : M unit :=
  sys (sys_rmtree p) (λ s,
    if is_dir s p
    then (Ok tt, filter (λ kv, strip_prefix p kv.1 = None) s)
    else (Raise (OSError (sys_rmtree p)), s)).

(** [os.makedirs(p, exist_ok=True)]: creates the missing directories on
    the way to [p]; fails when a file is in the way. *)
Definition mkdirs (s : fsys) (p : path) : fsys :=
  foldl (λ s' q, match s' !! q with
                 | None => <[q := Dir (now E)]> s'
                 | Some _ => s'
                 end) s (prefixes p).

Definition makedirs (p : path) : M unit :=
  sys (sys_makedirs p) (λ s,
    if existsb (is_file s) (prefixes p)
    then (Raise (OSError (sys_makedirs p)), s)
    else (Ok tt, mkdirs s p)).

(** Creating or truncating the regular file [p] with content [d]: its
    directory must exist and [p] must not be a directory. *)
Definition create (c : syscall) (p : path) (d : data) : fsys → res unit * fsys := λ s,
  if is_dir s (dirname p) && negb (is_dir s p)
  then (Ok tt, <[p := File d (now E)]> s)
  else (Raise (OSError c), s).

(** [with open(p, 'w') as f: f.write(text)]: [open] creates the file, or
    truncates it; the text reaches the file afterwards, when it is written
    and the file is closed.  When that fails the empty file stays. *)
Definition open_w (p : path) (text : string) : M unit :=
  sys (sys_open_w p) (create (sys_open_w p) p (Bytes ""));;
  sys (sys_write p) (λ s, (Ok tt, <[p := File (Bytes text) (now E)]> s)).

(** [os.remove]: removes a regular file. *)
Definition remove (p : path) : M unit :=
  sys (sys_remove p) (λ s,
    if is_file s p
    then (Ok tt, delete p s)
    else (Raise (OSError (sys_remove p)), s)).

(** [shutil.copy2(src, dst)]: copies the content and the modification
    time of the file [src]; when [dst] is a directory, into it under the
    base name of [src]. *)
Definition copy2 (src dst : path) : M unit :=
  sys (sys_copy2 src dst) (λ s,
    match node_at s src with
    | Some (File d m) =>
      let target := if is_dir s dst then dst ++ [basename src] else dst in
      if bool_decide (target = src)
      then (Raise (OSError (sys_copy2 src dst)), s)
      else if is_dir s (dirname target) && negb (is_dir s target)
      then (Ok tt, <[target := File d m]> s)
      else (Raise (OSError (sys_copy2 src dst)), s)
    | _ => (Raise (OSError (sys_copy2 src dst)), s)
    end).

(** [zipfile.ZipFile(out, 'w')]: creates (or truncates) the archive. *)
Definition zip_open (out : path) : M unit :=
  sys (sys_zip_open out) (create (sys_zip_open out) out (Zip [])).

(** [zipf.write(file, arcname)]: reads [file] and appends it to the
    archive under [arcname].  The caller passes regular files only. *)
Definition zip_write (out file arcname : path) : M unit :=
  let c := sys_zip_write out file arcname in
  sys c (λ s,
    match node_at s file, node_at s out with
    | Some (File d _), Some (File (Zip es) _) =>
      (Ok tt, <[out := File (Zip (es ++ [(arcname, d)])) (now E)]> s)
    | _, _ => (Raise (OSError c), s)
    end).

End Os.
End Os.
Import Os.

(** ** [class LockFile] *)

Module LockFile.
Section LockFile.
Variable E : env.
(** [self.path] *)
Variable path_ : path.

Definition __enter__ : M unit :=
  call LockFile_enter;;
  locked ← exists_ path_;
  if (locked : bool) then raise (RuntimeError path_)
  else open_w E path_ (pretty (pid E)).

Definition __exit__ : M unit :=
  call LockFile_exit;;
  present ← exists_ path_;
  if (present : bool) then remove E path_ else mret tt.

End LockFile.
End LockFile.

(** ** [class BackupRunner] *)

Module BackupRunner.
Section BackupRunner.
Variable E : env.

Definition staging_dir : path := Config.staging_path (cfg E).
Definition lock_path : path := join (Config.destination (cfg E)) [".backup.lock"].

(** [_get_files_to_backup], materialised by [list(...)]. *)
Definition files_of_folder (folder : path) : M (list path) :=
  d ← isdir folder;
  if (d : bool) then walk_files folder
  else log WARNING (MsgSourceMissing folder);; mret [].

Definition _get_files_to_backup : M (list path) :=
  call m_get_files_to_backup;;
  found ← for_each files_of_folder (Config.source_folders (cfg E));
  mret (concat found).

(** [_copy_worker]: the body of its [try] (lines 78-84), then the worker
    with its [except] clause.  The triple it returns is (success, bytes,
    source). *)
Definition copy_attempt (src_file : path) : M (bool * Z * path) :=
  file_size ← getsize E src_file;
  start ← match commonpath (Config.source_folders (cfg E)) with
          | Some c => mret c
          | None => raise ValueError
          end;
  let relative_path := relpath src_file start in
  let dst_file := join staging_dir relative_path in
  makedirs E (dirname dst_file);;
  (if negb (dry_run E) then copy2 E src_file dst_file else mret tt);;
  mret (true, file_size, src_file).

Definition _copy_worker (src_file : path) : M (bool * Z * path) :=
  call (m_copy_worker src_file);;
  try_except (copy_attempt src_file)
    (λ e, log ERROR (MsgCopyFailed src_file e);; mret (false, 0, src_file)).

(** The progress bar: [pbar.update(size)] for every result with
    [success and size_processed > 0]. *)
Definition pbar_total (results : list (bool * Z * path)) : Z :=
  foldl (λ acc r, if r.1.1 && (0 <? r.1.2) then acc + r.1.2 else acc) 0 results.

(** The pool of [_copy_files_to_staging_parallel]: every file is submitted
    and every future is awaited.  The workers are modelled one after
    another, in the order of [files]; [ThreadPoolExecutor] refuses a
    worker count that is not positive. *)
Definition pool_results (files : list path) : M (list (bool * Z * path)) :=
  if Config.parallel_workers (cfg E) <=? 0 then raise ValueError
  else for_each _copy_worker files.

Definition _copy_files_to_staging_parallel (files : list path) (total_copy_size : Z)
  : M unit :=
  call m_copy_files_to_staging_parallel;;
  log INFO (MsgCopying (length files) total_copy_size (Config.parallel_workers (cfg E)));;
  (if dry_run E then log INFO MsgDryCopy else mret tt);;
  results ← pool_results files;
  let _ := pbar_total results in
  mret tt.

(** [_zip_staging_folder] *)
Definition write_entry (output_zip_path file_path : path) : M unit :=
  let arcname := relpath file_path staging_dir in
  zip_write E output_zip_path file_path arcname.

Definition _zip_staging_folder (output_zip_path : path) : M unit :=
  call m_zip_staging_folder;;
  if dry_run E then log INFO (MsgDryZip output_zip_path)
  else
    log INFO (MsgZipping output_zip_path);;
    files_to_zip ← walk_files staging_dir;
    zip_open E output_zip_path;;
    for_each (write_entry output_zip_path) files_to_zip;;
    log INFO MsgZipDone.

(** [_cleanup]: the staging part (lines 122-127), then the retention part
    inside its [try] (lines 131-143). *)
Definition cleanup_staging : M unit :=
  present ← exists_ staging_dir;
  if (present : bool) then
    if dry_run E then log INFO (MsgDryCleanStaging staging_dir)
    else log INFO (MsgCleanStaging staging_dir);; rmtree E staging_dir
  else mret tt.

Definition is_backup (f : string) : bool :=
  startswith f (Config.prefix (cfg E)) && endswith f ".zip".

Definition with_mtime (backup_dir : path) (f : string) : M (string * Z) :=
  t ← getmtime E (join backup_dir [f]); mret (f, t).

Definition list_backups (backup_dir : path) : M (list string) :=
  names ← listdir E backup_dir;
  keyed ← for_each (with_mtime backup_dir) (List.filter is_backup names);
  mret (fst <$> sorted snd keyed).

Definition delete_backup (backup_dir : path) (backup : string) : M unit :=
  if dry_run E then log INFO (MsgDryDelete backup)
  else log INFO (MsgDelete backup);; remove E (join backup_dir [backup]).

Definition prune_old_backups : M unit :=
  let backup_dir := Config.destination (cfg E) in
  backups ← list_backups backup_dir;
  let to_delete := slice_to backups (- Config.retention (cfg E)) in
  for_each (delete_backup backup_dir) to_delete;;
  mret tt.

Definition _cleanup : M unit :=
  call m_cleanup;;
  cleanup_staging;;
  log INFO (MsgRetentionCheck (Config.retention (cfg E)));;
  try_except prune_old_backups (λ e, log ERROR (MsgRetentionError e)).

(** [run]: the block under the lock (lines 152-167, of which lines 152-154
    reset the staging directory), the two [except] clauses and the
    [finally] block. *)
Definition backup_filename : string :=
  Config.prefix (cfg E) +:+ "_" +:+ timestamp E +:+ ".zip".

Definition reset_staging : M unit :=
  stale ← exists_ staging_dir;
  (if (stale : bool) then rmtree E staging_dir else mret tt);;
  makedirs E staging_dir.

Definition locked_body : M unit :=
  reset_staging;;
  files_to_backup ← _get_files_to_backup;
  match files_to_backup with
  | [] => log WARNING MsgNoFiles
  | _ =>
    sizes ← for_each (getsize E) files_to_backup;
    let total_copy_size := foldl Z.add 0 sizes in
    _copy_files_to_staging_parallel files_to_backup total_copy_size;;
    let backup_path := join (Config.destination (cfg E)) [backup_filename] in
    _zip_staging_folder backup_path
  end.

Definition on_error (e : exn) : M unit :=
  match e with
  | RuntimeError _ => log ERROR (MsgRunError e)
  | _ => log CRITICAL (MsgFatal e)
  end.

Definition finally_block : M unit :=
  _cleanup;;
  log INFO MsgElapsed;;
  log INFO MsgFinished.

Definition guarded_block : M unit :=
  try_except
    (with_ (LockFile.__enter__ E lock_path) (LockFile.__exit__ E lock_path)
           locked_body)
    on_error.

Definition run : M unit :=
  call m_run;;
  log INFO MsgStart;;
  try_finally guarded_block finally_block.

End BackupRunner.
End BackupRunner.
Import BackupRunner.

(** * Vocabulary of the specification *)

(** What a computation can emit: every event of its trace, from every
    state, satisfies [P]. *)
Definition emits {A} (P : event → Prop) (m : M A) : Prop :=
  ∀ s, Forall P (trace (m s)).

(** Events other than the entry of one of the methods [fs]. *)
Definition not_call_of (fs : list method) (e : event) : Prop :=
  match e with Call f => f ∉ fs | _ => True end.

(** How often an event occurs in a trace. *)
Definition occurrences (e : event) (t : list event) : nat :=
  count_occ event_eq_dec t e.

(** A run acquires the lock when [LockFile.__enter__] returns. *)
Definition acquires (E : env) (s : fsys) : Prop :=
  result (LockFile.__enter__ E (lock_path E) s) = Ok tt.

(** [a] occurs in the trace and [b] occurs later. *)
Definition precedes (a b : event) (t : list event) : Prop :=
  ∃ t1 t2 t3, t = t1 ++ a :: t2 ++ b :: t3.

Fixpoint precedesb (a b : event) (t : list event) : bool :=
  match t with
  | [] => false
  | x :: t' => (bool_decide (x = a) && bool_decide (b ∈ t')) || precedesb a b t'
  end.

(** The order of the cleanup steps as the specification has it: the
    staging tree is removed, then the old bundles are listed for pruning,
    and the lock marker is removed after that. *)
Definition release_after_pruning (E : env) (t : list event) : Prop :=
  precedes (Sys (sys_listdir (Config.destination (cfg E))))
           (Sys (sys_remove (lock_path E))) t.

(** Whenever [e1] occurs in a trace of [m], so does [e2]. *)
Definition leads_to {A} (e1 e2 : event) (m : M A) : Prop :=
  ∀ s, e1 ∈ trace (m s) → e2 ∈ trace (m s).

(** The cleanup phase returns normally. *)
Definition cleanup_returns (E : env) (s : fsys) : Prop :=
  result (_cleanup E s) = Ok tt.

(** The bundles in the destination: the entries that [_cleanup] takes for
    backups, and the modification time of an entry. *)
Definition bundles (E : env) (s : fsys) : list string :=
  List.filter (is_backup E) (entries s (Config.destination (cfg E))).

Definition mtime_in (s : fsys) (d : path) (n : string) : Z :=
  from_option node_mtime 0 (s !! (d ++ [n])).

(** No operating-system call is made to fail by the environment. *)
Definition no_faults (E : env) : Prop := ∀ c, fault E c = false.

(** The outcome of pruning from state [s] to state [s']: the bundles of [s]
    split into [deleted] and [kept]; [deleted] has [B - R] of them and [kept]
    has [min B R]; no deleted bundle was modified later than a kept one;
    exactly the deleted ones are gone, everything else is as it was, and
    the bundles of [s'] are the kept ones. *)
Definition retention_outcome (E : env) (s s' : fsys) (deleted kept : list string)
  : Prop :=
  let d := Config.destination (cfg E) in
  let R := Z.to_nat (Config.retention (cfg E)) in
  let B := length (bundles E s) in
  bundles E s ≡ₚ deleted ++ kept
  ∧ length deleted = (B - R)%nat
  ∧ length kept = Nat.min B R
  ∧ (∀ x y, x ∈ deleted → y ∈ kept → mtime_in s d x ≤ mtime_in s d y)
  ∧ (∀ n, n ∈ deleted → s' !! (d ++ [n]) = None)
  ∧ (∀ p, (∀ n, n ∈ deleted → p ≠ d ++ [n]) → s' !! p = s !! p)
  ∧ bundles E s' ≡ₚ kept
  ∧ ((B ≤ R)%nat → s' = s).

(** The files of the staging tree, as [os.walk] lists them, the content of
    a file, and the archive entry that a staged file gives. *)
Definition staged_files (E : env) (s : fsys) : list path :=
  if is_dir s (staging_dir E)
  then omap (file_below (staging_dir E)) (map_to_list s)
  else [].

Definition content_at (s : fsys) (f : path) : data :=
  match s !! f with
  | Some (File d _) => d
  | _ => Bytes ""
  end.

Definition archive_entry (E : env) (s : fsys) (f : path) : path * data :=
  (relpath f (staging_dir E), content_at s f).

(** A file system is a tree when every node lies in a directory, and its
    names are clean when no entry is called [.] or [..]: first as
    properties, then as checks that decide them. *)
Definition tree_shaped (s : fsys) : Prop :=
  ∀ q r, r ≠ [] → is_Some (s !! (q ++ r)) → is_dir s q = true.

Definition clean_names (s : fsys) : Prop :=
  ∀ k, is_Some (s !! k) → existsb special k = false.

Definition is_tree (s : fsys) : bool :=
  forallb (λ kv, forallb (is_dir s) (prefixes (dirname kv.1))) (map_to_list s).

Definition has_clean_names (s : fsys) : bool :=
  forallb (λ kv, negb (existsb special kv.1)) (map_to_list s).

(** The directories strictly below the staging root are on the way to the
    destinations of the files [staged] (files below the common ancestor [c])
    and nowhere else. *)
Definition staging_dirs_from (E : env) (c : path) (staged : list path) (s : fsys)
  : Prop :=
  ∀ r0, r0 ≠ [] → is_dir s (staging_dir E ++ r0) = true →
        ∃ g r1, g ∈ staged ∧ r1 ≠ [] ∧ g = c ++ r0 ++ r1.

(** The file system when the worker of a file starts: in the locked block
    entered in state [s], once the staging directory is reset and the
    workers of the files [pre] that come before it are through. *)
Definition copy_time_state (E : env) (s : fsys) (pre : list path) : fsys :=
  state (for_each (_copy_worker E) pre (state (reset_staging E s))).

(** The order in which [sorted] puts its elements. *)
Definition key_le {A} (key : A → Z) (x y : A) : Prop := key x ≤ key y.

(** How often a path occurs in a list of paths, and whether a source
    folder covers a file: it is a directory and the file lies strictly below
    it. *)
Definition times (f : path) (l : list path) : nat :=
  length (List.filter (λ x, bool_decide (x = f)) l).

Definition covers (s : fsys) (f folder : path) : bool :=
  is_dir s folder
  && match strip_prefix folder f with Some (_ :: _) => true | _ => false end.

(** The events of copying a file and of archiving. *)
Definition backup_work (e : event) : Prop :=
  match e with
  | Call (m_copy_worker _) | Call m_zip_staging_folder
  | Sys (sys_copy2 _ _) | Sys (sys_zip_open _) | Sys (sys_zip_write _ _ _) => True
  | _ => False
  end.

(** A computation changes the file system at most at the paths in [P]. *)
Definition changes_only {A} (P : path → Prop) (m : M A) : Prop :=
  ∀ s q, ¬ P q → state (m s) !! q = s !! q.

(** The paths on the way to the staging directory or below it, and the
    entries of the destination that carry the name of a bundle. *)
Definition on_staging_path (E : env) (q : path) : Prop :=
  q `prefix_of` staging_dir E ∨ staging_dir E `prefix_of` q.

Definition bundle_path (E : env) (q : path) : Prop :=
  ∃ n, is_backup E n = true ∧ q = Config.destination (cfg E) ++ [n].

(** A computation writes no regular file outside [P]: a regular file that
    it leaves at a path outside [P] was there before, with the same content
    and modification time. *)
Definition writes_no_file {A} (P : path → Prop) (m : M A) : Prop :=
  ∀ s q d t, ¬ P q →
    state (m s) !! q = Some (File d t) → s !! q = Some (File d t).

(** The events of deleting a backup, or of announcing it in a simulation. *)
Definition deletion (e : event) : Prop :=
  match e with
  | Sys (sys_remove _) | Log _ (MsgDelete _) | Log _ (MsgDryDelete _) => True
  | _ => False
  end.

(** The backups that a trace announces for deletion in a simulation, and
    those that it records as deleted. *)
Definition announce (e : event) : option string :=
  match e with Log INFO (MsgDryDelete b) => Some b | _ => None end.

Definition deletion_of (e : event) : option string :=
  match e with Log INFO (MsgDelete b) => Some b | _ => None end.

Definition announced (t : list event) : list string := omap announce t.
Definition deleted_backups (t : list event) : list string := omap deletion_of t.

(** The state in which a run that acquires the lock leaves its locked
    block, and the state in which its cleanup phase starts. *)
Definition block_end (E : env) (s : fsys) : fsys :=
  state (locked_body E (state (LockFile.__enter__ E (lock_path E) s))).

Definition cleanup_start (E : env) (s : fsys) : fsys :=
  state (guarded_block E s).

(** Listing the destination: the first step of pruning, made nowhere else. *)
Definition listing (E : env) : event :=
  Sys (sys_listdir (Config.destination (cfg E))).

(** The log file that [_setup_logging] appends to (line 54). *)
Definition log_path (E : env) : path := Config.destination (cfg E) ++ ["backup.log"].

(** The record of a failed copy. *)
Definition is_copy_failure (e : event) : bool :=
  match e with Log ERROR (MsgCopyFailed _ _) => true | _ => false end.

(** A file that can be staged: a regular file of [s1] strictly below the
    common ancestor [c], with clean names, outside the staging path. *)
Definition stageable (E : env) (c : path) (s1 : fsys) (g : path) : Prop :=
  ∃ rel d m, g = c ++ rel ∧ rel ≠ [] ∧ existsb special rel = false
             ∧ s1 !! g = Some (File d m) ∧ ¬ on_staging_path E g.

(** The staging tree mirrors the files [copied] among the files [attempted]
    (files below the common ancestor [c]) as they are in [s1]: the staging
    root is a directory, the directories below it are on the way to the
    destinations of the files attempted, nothing outside the staging path
    differs from [s1], and the regular files below the staging root are the
    copies of the files [copied], each at the place of its source relative
    to [c]. *)
Definition staging_mirrors (E : env) (c : path) (s1 : fsys)
    (attempted copied : list path) (s' : fsys) : Prop :=
  is_dir s' (staging_dir E) = true
  ∧ staging_dirs_from E c attempted s'
  ∧ (∀ q, ¬ on_staging_path E q → s' !! q = s1 !! q)
  ∧ (∀ r d m, r ≠ [] →
       s' !! (staging_dir E ++ r) = Some (File d m)
       ↔ c ++ r ∈ copied ∧ s1 !! (c ++ r) = Some (File d m)).

(** ** Example worlds *)

Module Examples.

Definition nightly : Config.t := {|
  Config.source_folders := [["src"; "a"]; ["src"; "b"]];
  Config.destination := ["backup"];
  Config.staging_path := ["stage"];
  Config.parallel_workers := 4;
  Config.retention := 1;
  Config.prefix := "nightly"
|}.

Definition no_fault : syscall → bool := λ _, false.

Definition real_run : env := {|
  cfg := nightly; dry_run := false; pid := 4242;
  timestamp := "20240102_030405"; now := 100; fault := no_fault
|}.

Definition simulated_run : env := {|
  cfg := nightly; dry_run := true; pid := 4242;
  timestamp := "20240102_030405"; now := 100; fault := no_fault
|}.

(** Two source folders with a file each, two bundles in the destination
    and a staging directory left over with a file in it. *)
Definition disk : fsys := list_to_map [
  (["src"], Dir 1); (["src"; "a"], Dir 1); (["src"; "b"], Dir 1);
  (["src"; "a"; "f1.txt"], File (Bytes "hello") 5);
  (["src"; "b"; "sub"], Dir 1);
  (["src"; "b"; "sub"; "f2.txt"], File (Bytes "world!") 6);
  (["backup"], Dir 1);
  (["backup"; "nightly_20240101_000000.zip"], File (Zip []) 50);
  (["backup"; "nightly_20231231_000000.zip"], File (Zip []) 40);
  (["stage"], Dir 1);
  (["stage"; "old.tmp"], File (Bytes "stale") 2)
].

(** The same disk while another run holds the lock. *)
Definition disk_locked : fsys :=
  <[ ["backup"; ".backup.lock"] := File (Bytes "777") 99 ]> disk.

(** A disk on which the staging path is a regular file. *)
Definition disk_staging_is_file : fsys := list_to_map [
  (["src"], Dir 1); (["src"; "a"], Dir 1);
  (["src"; "a"; "f1.txt"], File (Bytes "hello") 5);
  (["backup"], Dir 1);
  (["stage"], File (Bytes "not a directory") 3)
].

(** A run in which the destination cannot be listed. *)
Definition listing_fails : env := {|
  cfg := nightly; dry_run := false; pid := 4242;
  timestamp := "20240102_030405"; now := 100;
  fault := λ c, bool_decide (c = sys_listdir ["backup"])
|}.

(** A run in which one source file cannot be copied. *)
Definition copy_fails : env := {|
  cfg := nightly; dry_run := false; pid := 4242;
  timestamp := "20240102_030405"; now := 100;
  fault := λ c, bool_decide
    (c = sys_copy2 ["src"; "a"; "f1.txt"] ["stage"; "a"; "f1.txt"])
|}.

(** A run in which one staged file cannot be read while the archive is
    written. *)
Definition archive_fails : env := {|
  cfg := nightly; dry_run := false; pid := 4242;
  timestamp := "20240102_030405"; now := 100;
  fault := λ c, bool_decide
    (c = sys_zip_write ["backup"; "nightly_20240102_030405.zip"]
                       ["stage"; "a"; "f1.txt"] ["a"; "f1.txt"])
|}.

(** A configuration in which one source folder lies inside another. *)
Definition nested_folders : env := {|
  cfg := {| Config.source_folders := [["src"]; ["src"; "b"]; ["gone"]];
            Config.destination := ["backup"];
            Config.staging_path := ["stage"];
            Config.parallel_workers := 4;
            Config.retention := 1;
            Config.prefix := "nightly" |};
  dry_run := false; pid := 4242;
  timestamp := "20240102_030405"; now := 100; fault := no_fault
|}.

(** A run whose only source folder does not exist. *)
Definition missing_sources : env := {|
  cfg := {| Config.source_folders := [["gone"]];
            Config.destination := ["backup"];
            Config.staging_path := ["stage"];
            Config.parallel_workers := 4;
            Config.retention := 1;
            Config.prefix := "nightly" |};
  dry_run := false; pid := 4242;
  timestamp := "20240102_030405"; now := 100; fault := no_fault
|}.

(** A simulated run in which every call that can fail does. *)
Definition simulated_all_fail : env := {|
  cfg := nightly; dry_run := true; pid := 4242;
  timestamp := "20240102_030405"; now := 100; fault := λ _, true
|}.

(** A run in which the size of one source file cannot be read. *)
Definition size_fails : env := {|
  cfg := nightly; dry_run := false; pid := 4242;
  timestamp := "20240102_030405"; now := 100;
  fault := λ c, bool_decide (c = sys_getsize ["src"; "b"; "sub"; "f2.txt"])
|}.

(** A run configured with no worker at all. *)
Definition no_workers : env := {|
  cfg := {| Config.source_folders := [["src"; "a"]; ["src"; "b"]];
            Config.destination := ["backup"];
            Config.staging_path := ["stage"];
            Config.parallel_workers := 0;
            Config.retention := 1;
            Config.prefix := "nightly" |};
  dry_run := false; pid := 4242;
  timestamp := "20240102_030405"; now := 100; fault := no_fault
|}.

(** Runs configured to keep no backup, and to keep "minus one". *)
Definition keep_none : env := {|
  cfg := {| Config.source_folders := [["src"; "a"]; ["src"; "b"]];
            Config.destination := ["backup"];
            Config.staging_path := ["stage"];
            Config.parallel_workers := 4;
            Config.retention := 0;
            Config.prefix := "nightly" |};
  dry_run := false; pid := 4242;
  timestamp := "20240102_030405"; now := 100; fault := no_fault
|}.

Definition keep_minus_one : env := {|
  cfg := {| Config.source_folders := [["src"; "a"]; ["src"; "b"]];
            Config.destination := ["backup"];
            Config.staging_path := ["stage"];
            Config.parallel_workers := 4;
            Config.retention := -1;
            Config.prefix := "nightly" |};
  dry_run := false; pid := 4242;
  timestamp := "20240102_030405"; now := 100; fault := no_fault
|}.

(** A disk without the destination directory. *)
Definition disk_without_destination : fsys := list_to_map [
  (["src"], Dir 1); (["src"; "a"], Dir 1);
  (["src"; "a"; "f1.txt"], File (Bytes "hello") 5)
].

(** The disk with a regular file where the staging directory should be. *)
Definition disk_staging_blocked : fsys :=
  <[ ["stage"] := File (Bytes "not a directory") 3 ]>
    (delete ["stage"; "old.tmp"] disk).

(** A second instance, started a little later. *)
Definition second_instance : env := {|
  cfg := nightly; dry_run := false; pid := 4343;
  timestamp := "20240102_030500"; now := 101; fault := no_fault
|}.

(** A run in which the lock marker cannot be removed. *)
Definition release_fails : env := {|
  cfg := nightly; dry_run := false; pid := 4242;
  timestamp := "20240102_030405"; now := 100;
  fault := λ c, bool_decide (c = sys_remove ["backup"; ".backup.lock"])
|}.

(** A run in which the process identifier cannot be written into the
    marker. *)
Definition write_fails : env := {|
  cfg := nightly; dry_run := false; pid := 4242;
  timestamp := "20240102_030405"; now := 100;
  fault := λ c, bool_decide (c = sys_write ["backup"; ".backup.lock"])
|}.

End Examples.

(** * Reasoning about computations *)

Section MonadFacts.
Context {A B : Type}.
Implicit Types (m : M A) (k : A → M B) (s : fsys).

Lemma bind_eq m k s :
  (m ≫= k) s =
  match m s with
  | (Ok a, s', t) => let '(r, s'', t') := k a s' in (r, s'', t ++ t')
  | (Raise e, s', t) => (Raise e, s', t)
  end.
Proof. reflexivity. Qed.

Lemma bind_Ok m k s a s' t :
  m s = (Ok a, s', t) →
  (m ≫= k) s = (result (k a s'), state (k a s'), t ++ trace (k a s')).
Proof.
  intros Hm. rewrite bind_eq, Hm. by destruct (k a s') as [[? ?] ?].
Qed.

Lemma bind_Raise m k s e s' t :
  m s = (Raise e, s', t) → (m ≫= k) s = (Raise e, s', t).
Proof. intros Hm. by rewrite bind_eq, Hm. Qed.

(** A bind returns normally exactly when both of its parts do. *)
Lemma bind_inv_Ok m k s b s2 t :
  (m ≫= k) s = (Ok b, s2, t) →
  ∃ a s1 t1 t2, m s = (Ok a, s1, t1) ∧ k a s1 = (Ok b, s2, t2) ∧ t = t1 ++ t2.
Proof.
  rewrite bind_eq. destruct (m s) as [[[a|e] s1] t1]; [|done].
  destruct (k a s1) as [[r s''] t2] eqn:Hk. intros [= -> -> <-].
  by exists a, s1, t1, t2.
Qed.
End MonadFacts.

Lemma surjective_triple {A} (x : res A * fsys * list event) :
  x = (result x, state x, trace x).
Proof. by destruct x as [[? ?] ?]. Qed.

(** ** What a computation can emit *)

Section Emits.
Variable P : event → Prop.

Lemma emits_ret {A} (a : A) : emits P (mret a).
Proof. intros s. constructor. Qed.

Lemma emits_raise {A} e : emits P (@raise A e).
Proof. intros s. constructor. Qed.

Lemma emits_emit e : P e → emits P (emit e).
Proof. intros He s. by repeat constructor. Qed.

Lemma emits_log lv msg : P (Log lv msg) → emits P (log lv msg).
Proof. apply emits_emit. Qed.

Lemma emits_call f : P (Call f) → emits P (call f).
Proof. apply emits_emit. Qed.

Lemma emits_bind {A B} (m : M A) (k : A → M B) :
  emits P m → (∀ a, emits P (k a)) → emits P (m ≫= k).
Proof.
  intros Hm Hk s. rewrite bind_eq. specialize (Hm s).
  destruct (m s) as [[[a|e] s'] t]; [|done].
  specialize (Hk a s'). destruct (k a s') as [[r s''] t'].
  apply Forall_app; done.
Qed.

Lemma emits_try_except {A} (m : M A) h :
  emits P m → (∀ e, emits P (h e)) → emits P (try_except m h).
Proof.
  intros Hm Hh s. unfold try_except. specialize (Hm s).
  destruct (m s) as [[[a|e] s'] t]; [done|].
  specialize (Hh e s'). destruct (h e s') as [[r s''] t'].
  apply Forall_app; done.
Qed.

Lemma emits_try_finally {A} (m : M A) f :
  emits P m → emits P f → emits P (try_finally m f).
Proof.
  intros Hm Hf s. unfold try_finally. specialize (Hm s).
  destruct (m s) as [[r s'] t]. specialize (Hf s').
  destruct (f s') as [[r' s''] t']. apply Forall_app; done.
Qed.

Lemma emits_for_each {A B} (f : A → M B) l :
  (∀ x, emits P (f x)) → emits P (for_each f l).
Proof.
  intros Hf. induction l as [|x l IH]; simpl.
  - apply emits_ret.
  - apply emits_bind; [done|]. intros y.
    apply emits_bind; [done|]. intros ys. apply emits_ret.
Qed.

Lemma emits_if {A} (b : bool) (m1 m2 : M A) :
  emits P m1 → emits P m2 → emits P (if b then m1 else m2).
Proof. by destruct b. Qed.

Section Calls.
Variable E : env.

Lemma emits_sys {A} (c : syscall) (body : fsys → res A * fsys) :
  P (Sys c) → emits P (sys E c body).
Proof.
  intros Hc s. unfold sys. destruct (fault E c).
  - by repeat constructor.
  - destruct (body s). by repeat constructor.
Qed.

Lemma emits_exists p : P (Sys (sys_exists p)) → emits P (exists_ p).
Proof. intros Hc s. by repeat constructor. Qed.

Lemma emits_isdir p : P (Sys (sys_isdir p)) → emits P (isdir p).
Proof. intros Hc s. by repeat constructor. Qed.

Lemma emits_walk_files p : P (Sys (sys_walk p)) → emits P (walk_files p).
Proof. intros Hc s. by repeat constructor. Qed.
End Calls.
End Emits.


Lemma not_call_of_sys fs c : not_call_of fs (Sys c).
Proof. exact I. Qed.

Lemma not_call_of_log fs lv msg : not_call_of fs (Log lv msg).
Proof. exact I. Qed.

Lemma not_call_of_neq fs f e : f ∈ fs → not_call_of fs e → e ≠ Call f.
Proof. intros Hf He ->. by apply He. Qed.

Lemma count_occ_quiet fs f t :
  f ∈ fs → Forall (not_call_of fs) t → count_occ event_eq_dec t (Call f) = 0%nat.
Proof.
  intros Hf Ht. apply count_occ_not_In. rewrite <- list_elem_of_In.
  intros Hin. rewrite Forall_forall in Ht.
  by apply (not_call_of_neq fs f _ Hf (Ht _ Hin)).
Qed.

(** The projections of the combinators. *)
Section Projections.
Context {A B : Type}.

Lemma trace_bind (m : M A) (k : A → M B) s :
  trace ((m ≫= k) s) =
  match result (m s) with
  | Ok a => trace (m s) ++ trace (k a (state (m s)))
  | Raise _ => trace (m s)
  end.
Proof.
  rewrite bind_eq. unfold result, state, trace.
  destruct (m s) as [[[a|e] s'] t]; simpl; [|reflexivity].
  destruct (k a s') as [[? ?] ?]; reflexivity.
Qed.

Lemma result_bind (m : M A) (k : A → M B) s :
  result ((m ≫= k) s) =
  match result (m s) with
  | Ok a => result (k a (state (m s)))
  | Raise e => Raise e
  end.
Proof.
  rewrite bind_eq. unfold result, state, trace.
  destruct (m s) as [[[a|e] s'] t]; simpl; [|reflexivity].
  destruct (k a s') as [[? ?] ?]; reflexivity.
Qed.

Lemma state_bind (m : M A) (k : A → M B) s :
  state ((m ≫= k) s) =
  match result (m s) with
  | Ok a => state (k a (state (m s)))
  | Raise e => state (m s)
  end.
Proof.
  rewrite bind_eq. unfold result, state, trace.
  destruct (m s) as [[[a|e] s'] t]; simpl; [|reflexivity].
  destruct (k a s') as [[? ?] ?]; reflexivity.
Qed.

Lemma trace_try_finally (m : M A) f s :
  trace (try_finally m f s) = trace (m s) ++ trace (f (state (m s))).
Proof.
  unfold try_finally, result, state, trace. destruct (m s) as [[r s'] t]; simpl.
  destruct (f s') as [[? ?] ?]; reflexivity.
Qed.

Lemma result_try_finally (m : M A) f s :
  result (try_finally m f s) =
  match result (f (state (m s))) with
  | Ok _ => result (m s)
  | Raise e => Raise e
  end.
Proof.
  unfold try_finally, result, state, trace. destruct (m s) as [[r s'] t]; simpl.
  destruct (f s') as [[? ?] ?]; reflexivity.
Qed.

Lemma state_try_finally (m : M A) f s :
  state (try_finally m f s) = state (f (state (m s))).
Proof.
  unfold try_finally, result, state, trace. destruct (m s) as [[r s'] t]; simpl.
  destruct (f s') as [[? ?] ?]; reflexivity.
Qed.

Lemma trace_try_except (m : M A) h s :
  trace (try_except m h s) =
  match result (m s) with
  | Ok _ => trace (m s)
  | Raise e => trace (m s) ++ trace (h e (state (m s)))
  end.
Proof.
  unfold try_except, result, state, trace.
  destruct (m s) as [[[a|e] s'] t]; simpl; [reflexivity|].
  destruct (h e s') as [[? ?] ?]; reflexivity.
Qed.

Lemma result_try_except (m : M A) h s :
  result (try_except m h s) =
  match result (m s) with
  | Ok a => Ok a
  | Raise e => result (h e (state (m s)))
  end.
Proof.
  unfold try_except, result, state, trace.
  destruct (m s) as [[[a|e] s'] t]; simpl; [reflexivity|].
  destruct (h e s') as [[? ?] ?]; reflexivity.
Qed.

Lemma state_try_except (m : M A) h s :
  state (try_except m h s) =
  match result (m s) with
  | Ok _ => state (m s)
  | Raise e => state (h e (state (m s)))
  end.
Proof.
  unfold try_except, result, state, trace.
  destruct (m s) as [[[a|e] s'] t]; simpl; [reflexivity|].
  destruct (h e s') as [[? ?] ?]; reflexivity.
Qed.
End Projections.

(** Solves [emits P m] for a computation built from the combinators and the
    operating-system calls, when [P] holds of the events that occur in it. *)
Ltac emits_step :=
  first
    [ apply emits_ret | apply emits_raise
    | apply emits_log | apply emits_call | apply emits_emit
    | apply emits_sys | apply emits_exists | apply emits_isdir
    | apply emits_walk_files
    | apply emits_bind; [|intros ?]
    | apply emits_try_except; [|intros ?]
    | apply emits_try_finally
    | apply emits_for_each; intros ?
    | match goal with
      | |- emits _ (if ?b then _ else _) => destruct b
      | |- emits _ (match ?x with _ => _ end) => destruct x
      end ].

Ltac not_in_methods :=
  rewrite ?not_elem_of_cons; repeat split; (discriminate || apply not_elem_of_nil).

Ltac emits_quiet :=
  repeat emits_step;
  try exact I;
  try (cbn; not_in_methods).

Section Quiet.
Variable E : env.
Variable fs : list method.

Lemma quiet_cleanup_staging : emits (not_call_of fs) (cleanup_staging E).
Proof. unfold cleanup_staging, rmtree. emits_quiet. Qed.

Lemma quiet_prune_old_backups : emits (not_call_of fs) (prune_old_backups E).
Proof.
  unfold prune_old_backups, list_backups, with_mtime, delete_backup,
    listdir, getmtime, remove.
  emits_quiet.
Qed.

Lemma quiet_cleanup : m_cleanup ∉ fs → emits (not_call_of fs) (_cleanup E).
Proof.
  intros Hf. unfold _cleanup.
  apply emits_bind; [by apply emits_call|intros _].
  apply emits_bind; [apply quiet_cleanup_staging|intros _].
  apply emits_bind; [by apply emits_log|intros _].
  apply emits_try_except; [apply quiet_prune_old_backups|intros e].
  by apply emits_log.
Qed.

Lemma quiet_finally_block : m_cleanup ∉ fs → emits (not_call_of fs) (finally_block E).
Proof.
  intros Hf. unfold finally_block.
  apply emits_bind; [by apply quiet_cleanup|intros _].
  apply emits_bind; [by apply emits_log|intros _]. by apply emits_log.
Qed.

Lemma quiet_enter p : LockFile_enter ∉ fs → emits (not_call_of fs) (LockFile.__enter__ E p).
Proof.
  intros Hf. unfold LockFile.__enter__, open_w.
  apply emits_bind; [by apply emits_call|intros _]. emits_quiet.
Qed.

Lemma quiet_exit p : LockFile_exit ∉ fs → emits (not_call_of fs) (LockFile.__exit__ E p).
Proof.
  intros Hf. unfold LockFile.__exit__, remove.
  apply emits_bind; [by apply emits_call|intros _]. emits_quiet.
Qed.

Lemma quiet_get_files :
  m_get_files_to_backup ∉ fs → emits (not_call_of fs) (_get_files_to_backup E).
Proof.
  intros Hf. unfold _get_files_to_backup, files_of_folder.
  apply emits_bind; [by apply emits_call|intros _]. emits_quiet.
Qed.

Lemma quiet_copy_attempt src : emits (not_call_of fs) (copy_attempt E src).
Proof. unfold copy_attempt, getsize, makedirs, copy2. emits_quiet. Qed.

Lemma quiet_copy_worker src :
  m_copy_worker src ∉ fs → emits (not_call_of fs) (_copy_worker E src).
Proof.
  intros Hf. unfold _copy_worker.
  apply emits_bind; [by apply emits_call|intros _].
  apply emits_try_except; [apply quiet_copy_attempt|intros e]. emits_quiet.
Qed.

Lemma quiet_copy_files files total :
  m_copy_files_to_staging_parallel ∉ fs →
  (∀ src, m_copy_worker src ∉ fs) →
  emits (not_call_of fs) (_copy_files_to_staging_parallel E files total).
Proof.
  intros Hf Hw. unfold _copy_files_to_staging_parallel, pool_results.
  apply emits_bind; [by apply emits_call|intros _].
  apply emits_bind; [by apply emits_log|intros _].
  apply emits_bind; [emits_quiet|intros _].
  apply emits_bind; [|intros ?; apply emits_ret].
  apply emits_if; [apply emits_raise|].
  apply emits_for_each. intros src. by apply quiet_copy_worker.
Qed.

Lemma quiet_zip out :
  m_zip_staging_folder ∉ fs → emits (not_call_of fs) (_zip_staging_folder E out).
Proof.
  intros Hf. unfold _zip_staging_folder, write_entry, zip_open, zip_write.
  apply emits_bind; [by apply emits_call|intros _]. emits_quiet.
Qed.

Lemma quiet_locked_body :
  m_get_files_to_backup ∉ fs → m_copy_files_to_staging_parallel ∉ fs →
  (∀ src, m_copy_worker src ∉ fs) → m_zip_staging_folder ∉ fs →
  emits (not_call_of fs) (locked_body E).
Proof.
  intros H1 H2 H3 H4. unfold locked_body.
  apply emits_bind; [unfold reset_staging, rmtree, makedirs; emits_quiet|intros _].
  apply emits_bind; [by apply quiet_get_files|intros files].
  destruct files as [|f files]; [by apply emits_log|].
  apply emits_bind; [unfold getsize; emits_quiet|intros sizes].
  apply emits_bind; [by apply quiet_copy_files|intros _].
  by apply quiet_zip.
Qed.

Lemma quiet_on_error e : emits (not_call_of fs) (on_error e).
Proof. unfold on_error. emits_quiet. Qed.
End Quiet.

(** ** The shape of the trace of a run *)

Lemma trace_call_bind {B} f (k : unit → M B) s :
  trace ((call f ≫= k) s) = Call f :: trace (k tt s).
Proof. by rewrite trace_bind. Qed.

Lemma trace_log_bind {B} lv msg (k : unit → M B) s :
  trace ((log lv msg ≫= k) s) = Log lv msg :: trace (k tt s).
Proof. by rewrite trace_bind. Qed.

Lemma state_emit_bind {B} e (k : unit → M B) s :
  state ((emit e ≫= k) s) = state (k tt s).
Proof. by rewrite state_bind. Qed.

Lemma result_emit_bind {B} e (k : unit → M B) s :
  result ((emit e ≫= k) s) = result (k tt s).
Proof. by rewrite result_bind. Qed.

Section RunShape.
Variable E : env.
Implicit Types (s : fsys) (fs : list method).

Lemma trace_run s :
  trace (run E s) =
  Call m_run :: Log INFO MsgStart ::
    trace (guarded_block E s) ++ trace (finally_block E (state (guarded_block E s))).
Proof.
  unfold run. rewrite trace_call_bind, trace_log_bind.
  by rewrite trace_try_finally.
Qed.

Lemma state_run s :
  state (run E s) = state (finally_block E (state (guarded_block E s))).
Proof.
  unfold run. unfold call, log. rewrite !state_emit_bind.
  by rewrite state_try_finally.
Qed.

Lemma result_run s :
  result (run E s) =
  match result (finally_block E (state (guarded_block E s))) with
  | Ok _ => result (guarded_block E s)
  | Raise e => Raise e
  end.
Proof.
  unfold run. unfold call, log. rewrite !result_emit_bind.
  by rewrite result_try_finally.
Qed.

(** [_cleanup] and [__exit__] announce themselves once. *)
Lemma trace_cleanup fs s :
  ∃ t, trace (_cleanup E s) = Call m_cleanup :: t ∧ Forall (not_call_of fs) t.
Proof.
  unfold _cleanup. rewrite trace_call_bind. eexists; split; [done|].
  revert s. change (emits (not_call_of fs)
    (cleanup_staging E;; log INFO (MsgRetentionCheck (Config.retention (cfg E)));;
     try_except (prune_old_backups E) (λ e, log ERROR (MsgRetentionError e)))).
  apply emits_bind; [apply quiet_cleanup_staging|intros _].
  apply emits_bind; [by apply emits_log|intros _].
  apply emits_try_except; [apply quiet_prune_old_backups|intros e].
  by apply emits_log.
Qed.

Lemma trace_finally_block fs s :
  ∃ t, trace (finally_block E s) = Call m_cleanup :: t ∧ Forall (not_call_of fs) t.
Proof.
  unfold finally_block. rewrite trace_bind.
  destruct (trace_cleanup fs s) as (t & -> & Ht).
  destruct (result (_cleanup E s)); [|by eauto].
  eexists; split; [done|]. apply Forall_app; split; [done|].
  generalize (state (_cleanup E s)).
  change (emits (not_call_of fs) (log INFO MsgElapsed;; log INFO MsgFinished)).
  apply emits_bind; [by apply emits_log|intros _]. by apply emits_log.
Qed.

Lemma trace_exit fs p s :
  ∃ t, trace (LockFile.__exit__ E p s) = Call LockFile_exit :: t
       ∧ Forall (not_call_of fs) t.
Proof.
  unfold LockFile.__exit__. rewrite trace_call_bind. eexists; split; [done|].
  revert s.
  change (emits (not_call_of fs)
    (present ← exists_ p; if (present : bool) then remove E p else mret tt)).
  unfold remove. emits_quiet.
Qed.

(** The guarded block of a run that acquires the lock: the trace of
    [__enter__], of the locked body, of [__exit__], and of the handler when
    one of the latter two raised. *)
Lemma trace_guarded_acquired s :
  result (LockFile.__enter__ E (lock_path E) s) = Ok tt →
  ∃ sb th,
    trace (guarded_block E s) =
      trace (LockFile.__enter__ E (lock_path E) s)
      ++ trace (locked_body E (state (LockFile.__enter__ E (lock_path E) s)))
      ++ trace (LockFile.__exit__ E (lock_path E) sb) ++ th
    ∧ sb = state (locked_body E (state (LockFile.__enter__ E (lock_path E) s)))
    ∧ Forall (λ e, ∃ lv msg, e = Log lv msg) th.
Proof.
  intros Hacq. unfold guarded_block, with_.
  rewrite trace_try_except, result_bind, trace_bind, state_bind, Hacq.
  rewrite trace_try_finally, result_try_finally, state_try_finally.
  set (s1 := state (LockFile.__enter__ E (lock_path E) s)).
  set (sb := state (locked_body E s1)).
  exists sb.
  destruct (match result (LockFile.__exit__ E (lock_path E) sb) with
            | Ok _ => result (locked_body E s1) | Raise e => Raise e end)
    as [[]|e] eqn:Hr.
  - exists []. rewrite app_nil_r. by repeat split.
  - eexists. rewrite <- !app_assoc. split; [reflexivity|]. split; [done|].
    destruct e; repeat constructor; eauto.
Qed.
End RunShape.

(** * The lock and the cleanup phase *)

(** ** The order of release and cleanup *)

Lemma precedes_precedesb a b t : precedes a b t → precedesb a b t = true.
Proof.
  intros (t1 & t2 & t3 & ->). induction t1 as [|x t1 IH]; simpl.
  - rewrite bool_decide_eq_true_2 by done.
    rewrite bool_decide_eq_true_2; [done|].
    rewrite elem_of_app, elem_of_cons. auto.
  - rewrite IH. apply orb_true_r.
Qed.

Lemma precedesb_precedes a b t : precedesb a b t = true → precedes a b t.
Proof.
  induction t as [|x t IH]; simpl; [done|].
  intros [[Hx Hb]%andb_prop|Ht]%orb_prop.
  - apply bool_decide_eq_true_1 in Hx as ->.
    apply bool_decide_eq_true_1, list_elem_of_split in Hb as (t2 & t3 & ->).
    by exists [], t2, t3.
  - destruct (IH Ht) as (t1 & t2 & t3 & ->). by exists (x :: t1), t2, t3.
Qed.

(** ** Errors in the cleanup phase *)

Lemma result_cleanup E s : result (_cleanup E s) = result (cleanup_staging E s).
Proof.
  unfold _cleanup, call, log. rewrite result_emit_bind, result_bind.
  destruct (result (cleanup_staging E s)) as [[]|e]; [|done].
  rewrite result_emit_bind, result_try_except.
  by destruct (result (prune_old_backups E _)) as [[]|e].
Qed.

(** C8, as the specification states it, fails: an error of the staging-tree
    removal leaves the cleanup phase and the run. *)
Lemma staging_removal_error_escapes :
  ¬ cleanup_returns Examples.real_run Examples.disk_staging_is_file
  ∧ result (run Examples.real_run Examples.disk_staging_is_file)
    = Raise (OSError (sys_rmtree ["stage"])).
Proof. split; [vm_compute; discriminate|vm_compute; reflexivity]. Qed.

(** * The copy pool *)

Lemma result_copy_worker E src s :
  result (_copy_worker E src s) =
  match result (copy_attempt E src s) with
  | Ok r => Ok r
  | Raise _ => Ok (false, 0, src)
  end.
Proof.
  unfold _copy_worker, call. rewrite result_emit_bind, result_try_except.
  by destruct (result (copy_attempt E src s)).
Qed.

Lemma trace_copy_worker E src s :
  trace (_copy_worker E src s) =
  Call (m_copy_worker src) :: trace (copy_attempt E src s) ++
  match result (copy_attempt E src s) with
  | Ok _ => []
  | Raise e => [Log ERROR (MsgCopyFailed src e)]
  end.
Proof.
  unfold _copy_worker. rewrite trace_call_bind, trace_try_except.
  destruct (result (copy_attempt E src s)); [by rewrite app_nil_r|done].
Qed.

(** What [copy_attempt] returns when it returns. *)
Lemma copy_attempt_Ok E src s r :
  result (copy_attempt E src s) = Ok r → ∃ size, r = (true, size, src).
Proof.
  unfold copy_attempt. rewrite result_bind.
  destruct (result (getsize E src s)) as [size|]; [|done].
  do 3 (rewrite result_bind;
        match goal with
        | |- match ?x with _ => _ end = _ → _ => destruct x as [?|?]; [|done]
        end).
  intros [= <-]. by exists size.
Qed.

Lemma copy_worker_total E src s :
  ∃ ok size, result (_copy_worker E src s) = Ok (ok, size, src).
Proof.
  rewrite result_copy_worker.
  destruct (result (copy_attempt E src s)) as [r|e] eqn:Hr; [|by eauto].
  apply copy_attempt_Ok in Hr as [size ->]. eauto.
Qed.

Lemma for_each_total {A B} (f : A → M B) (R : A → B → Prop) l :
  (∀ x s, ∃ y, result (f x s) = Ok y ∧ R x y) →
  ∀ s, ∃ ys, result (for_each f l s) = Ok ys ∧ Forall2 R l ys.
Proof.
  intros Hf. induction l as [|x l IH]; intros s; simpl.
  - exists []. by split.
  - destruct (Hf x s) as (y & Hy & HR). rewrite result_bind, Hy.
    destruct (IH (state (f x s))) as (ys & Hys & HRs).
    rewrite result_bind, Hys. exists (y :: ys). by split; [|constructor].
Qed.

Lemma pool_results_total E files s :
  0 < Config.parallel_workers (cfg E) →
  ∃ rs, result (pool_results E files s) = Ok rs
        ∧ Forall2 (λ src r, r.2 = src) files rs.
Proof.
  intros Hw. unfold pool_results.
  destruct (Z.leb_spec (Config.parallel_workers (cfg E)) 0) as [?|_]; [lia|].
  apply for_each_total. intros src s'.
  destruct (copy_worker_total E src s') as (ok & size & Hr). eauto.
Qed.

Lemma copy_files_total E files total s :
  0 < Config.parallel_workers (cfg E) →
  result (_copy_files_to_staging_parallel E files total s) = Ok tt.
Proof.
  intros Hw. unfold _copy_files_to_staging_parallel, call, log.
  rewrite !result_emit_bind, result_bind.
  assert (Hdry : ∀ s', result ((if dry_run E then emit (Log INFO MsgDryCopy) else mret tt) s') = Ok tt)
    by (intros s'; by destruct (dry_run E)).
  rewrite Hdry, result_bind.
  by destruct (pool_results_total E files
    (state ((if dry_run E then emit (Log INFO MsgDryCopy) else mret tt) s)) Hw)
    as (rs & -> & _).
Qed.

(** ** From the copy phase to the archive *)

Section LeadsTo.
Variables e1 e2 : event.

Lemma leads_bind_skip {A B} (m : M A) (k : A → M B) :
  emits (λ e, e ≠ e1) m → (∀ a, leads_to e1 e2 (k a)) →
  leads_to e1 e2 (m ≫= k).
Proof.
  intros Hm Hk s. rewrite trace_bind.
  assert (H1 : e1 ∉ trace (m s)).
  { intros Hin. specialize (Hm s). rewrite Forall_forall in Hm.
    by apply (Hm _ Hin). }
  destruct (result (m s)) as [a|e]; [|done].
  rewrite !elem_of_app. intros [?|Hin]; [done|]. right. by apply Hk.
Qed.

Lemma leads_try_finally {A} (m : M A) f :
  leads_to e1 e2 m → emits (λ e, e ≠ e1) f → leads_to e1 e2 (try_finally m f).
Proof.
  intros Hm Hf s. rewrite trace_try_finally, !elem_of_app.
  intros [Hin|Hin]; [left; by apply Hm|].
  specialize (Hf (state (m s))). rewrite Forall_forall in Hf.
  by destruct (Hf _ Hin).
Qed.

Lemma leads_try_except {A} (m : M A) h :
  leads_to e1 e2 m → (∀ e, emits (λ e, e ≠ e1) (h e)) →
  leads_to e1 e2 (try_except m h).
Proof.
  intros Hm Hh s. rewrite trace_try_except.
  destruct (result (m s)) as [a|e]; [apply Hm|].
  rewrite !elem_of_app. intros [Hin|Hin]; [left; by apply Hm|].
  specialize (Hh e (state (m s))). rewrite Forall_forall in Hh.
  by destruct (Hh _ Hin).
Qed.
End LeadsTo.

Lemma emits_neq_call {A} fs f (m : M A) :
  f ∈ fs → emits (not_call_of fs) m → emits (λ e, e ≠ Call f) m.
Proof.
  intros Hf Hm s. eapply Forall_impl; [apply Hm|].
  intros e He. by apply (not_call_of_neq fs).
Qed.

Lemma copy_phase_leads_to_archive E :
  0 < Config.parallel_workers (cfg E) →
  leads_to (Call m_copy_files_to_staging_parallel) (Call m_zip_staging_folder) (run E).
Proof.
  intros Hw.
  set (fs := [m_copy_files_to_staging_parallel]).
  assert (Hin : m_copy_files_to_staging_parallel ∈ fs) by (subst fs; rewrite elem_of_cons; auto).
  assert (Hq : ∀ A (m : M A), emits (not_call_of fs) m →
               emits (λ e, e ≠ Call m_copy_files_to_staging_parallel) m).
  { intros A m. by apply emits_neq_call. }
  unfold run.
  apply leads_bind_skip; [apply emits_call; discriminate|intros _].
  apply leads_bind_skip; [apply emits_log; discriminate|intros _].
  apply leads_try_finally;
    [|apply Hq, quiet_finally_block; subst fs; not_in_methods].
  unfold guarded_block.
  apply leads_try_except; [|intros e; apply Hq, quiet_on_error].
  unfold with_.
  apply leads_bind_skip; [apply Hq, quiet_enter; subst fs; not_in_methods|intros _].
  apply leads_try_finally; [|apply Hq, quiet_exit; subst fs; not_in_methods].
  unfold locked_body.
  apply leads_bind_skip.
  { unfold reset_staging, rmtree, makedirs. repeat emits_step; discriminate. }
  intros _.
  apply leads_bind_skip;
    [apply Hq, quiet_get_files; subst fs; not_in_methods|intros files].
  destruct files as [|f files].
  { intros s. unfold log, emit; simpl. rewrite elem_of_cons, elem_of_nil.
    by intros [?|?]. }
  apply leads_bind_skip.
  { apply emits_for_each. intros x. apply emits_sys. discriminate. }
  intros sizes s _. rewrite trace_bind, copy_files_total by done.
  rewrite elem_of_app. right.
  unfold _zip_staging_folder. rewrite trace_call_bind. apply elem_of_cons. by left.
Qed.

(** * A run that finds the lock taken *)

(** When the marker exists, [__enter__] raises before anything else is
    done, the [RuntimeError] clause logs it, and the [finally] block runs. *)
Lemma run_when_locked E s :
  is_Some (node_at s (lock_path E)) →
  run E s =
  (result (finally_block E s), state (finally_block E s),
   [Call m_run; Log INFO MsgStart; Call LockFile_enter;
    Sys (sys_exists (lock_path E));
    Log ERROR (MsgRunError (RuntimeError (lock_path E)))]
   ++ trace (finally_block E s)).
Proof.
  intros Hlock.
  assert (Hen : LockFile.__enter__ E (lock_path E) s =
    (Raise (RuntimeError (lock_path E)), s,
     [Call LockFile_enter; Sys (sys_exists (lock_path E))])).
  { unfold LockFile.__enter__. rewrite bind_eq. unfold call, emit.
    rewrite bind_eq. unfold exists_.
    rewrite bool_decide_eq_true_2 by done. reflexivity. }
  assert (Hg : guarded_block E s =
    (Ok tt, s, [Call LockFile_enter; Sys (sys_exists (lock_path E));
                Log ERROR (MsgRunError (RuntimeError (lock_path E)))])).
  { unfold guarded_block, with_, try_except.
    by rewrite (bind_Raise _ _ _ _ _ _ Hen). }
  rewrite (surjective_triple (run E s)).
  rewrite result_run, state_run, trace_run, Hg.
  cbn [result state trace fst snd app].
  by destruct (finally_block E s) as [[[[]|e] s'] t].
Qed.

(** The part of C1 that holds: a run that finds the lock taken enumerates,
    copies and archives nothing. *)
Lemma locked_run_does_no_backup_work E s :
  is_Some (node_at s (lock_path E)) →
  Forall (not_call_of [m_get_files_to_backup; m_copy_files_to_staging_parallel;
                       m_zip_staging_folder]) (trace (run E s)).
Proof.
  intros Hlock. rewrite run_when_locked by done. simpl.
  repeat (constructor; [try exact I; simpl; not_in_methods|]).
  apply quiet_finally_block. not_in_methods.
Qed.

(** C1, on the code. A run that finds the lock marker of another run fails
    with the [RuntimeError] and does no enumeration, copy or archive work,
    but it does enter the cleanup phase: it removes the staging tree and
    prunes a bundle, next to the marker of the run that holds the lock. *)
Theorem locked_run_still_cleans_up :
  let r := run Examples.real_run Examples.disk_locked in
  Log ERROR (MsgRunError (RuntimeError ["backup"; ".backup.lock"])) ∈ trace r
  ∧ Forall (not_call_of [m_get_files_to_backup; m_copy_files_to_staging_parallel;
                         m_zip_staging_folder]) (trace r)
  ∧ Call m_cleanup ∈ trace r
  ∧ Examples.disk_locked !! ["stage"; "old.tmp"] = Some (File (Bytes "stale") 2)
  ∧ state r !! ["stage"; "old.tmp"] = None
  ∧ state r !! ["stage"] = None
  ∧ Examples.disk_locked !! ["backup"; "nightly_20231231_000000.zip"]
    = Some (File (Zip []) 40)
  ∧ state r !! ["backup"; "nightly_20231231_000000.zip"] = None
  ∧ state r !! ["backup"; ".backup.lock"] = Some (File (Bytes "777") 99).
Proof.
  split_and!; try (vm_compute; reflexivity).
  - apply (bool_decide_unpack _). vm_compute. exact I.
  - apply locked_run_does_no_backup_work. vm_compute. eauto.
  - apply (bool_decide_unpack _). vm_compute. exact I.
Qed.

(** * A simulated run *)

(** C2, on the code. A run with the dry-run flag set removes the staging
    tree that it finds, recreates the staging directory and creates
    directories in it, and writes and removes the lock marker in the
    destination. *)
Theorem dry_run_rebuilds_staging :
  let r := run Examples.simulated_run Examples.disk in
  dry_run Examples.simulated_run = true
  ∧ result r = Ok tt
  ∧ Examples.disk !! ["stage"; "old.tmp"] = Some (File (Bytes "stale") 2)
  ∧ state r !! ["stage"; "old.tmp"] = None
  ∧ Examples.disk !! ["stage"; "a"] = None
  ∧ state r !! ["stage"; "a"] = Some (Dir 100)
  ∧ state r !! ["stage"; "b"; "sub"] = Some (Dir 100)
  ∧ state r ≠ Examples.disk
  ∧ Sys (sys_rmtree ["stage"]) ∈ trace r
  ∧ Sys (sys_open_w ["backup"; ".backup.lock"]) ∈ trace r
  ∧ Sys (sys_remove ["backup"; ".backup.lock"]) ∈ trace r.
Proof.
  split_and!; try (vm_compute; reflexivity);
    try (apply (bool_decide_unpack _); vm_compute; exact I).
  intros H. apply (f_equal (λ m, m !! ["stage"; "old.tmp"])) in H.
  vm_compute in H. discriminate.
Qed.

(** * Archives left behind *)

Lemma startswith_app p x : startswith (p +:+ x) p = true.
Proof.
  unfold startswith. induction p as [|a p IH]; simpl; [by destruct x|].
  destruct (Ascii.ascii_dec a a) as [_|n]; [done|by destruct n].
Qed.

Lemma string_length_app (a b : string) :
  String.length (a +:+ b) = (String.length a + String.length b)%nat.
Proof. induction a as [|c a IH]; simpl; [done|by rewrite IH]. Qed.

Lemma string_drop_app (a b : string) : string_drop (String.length a) (a +:+ b) = b.
Proof. induction a; simpl; [by destruct b|done]. Qed.

Lemma endswith_app x suf : endswith (x +:+ suf) suf = true.
Proof.
  unfold endswith. rewrite string_length_app.
  replace (String.length x + String.length suf - String.length suf)%nat
    with (String.length x) by lia.
  rewrite string_drop_app, String.eqb_refl, andb_true_r.
  apply Nat.leb_le. lia.
Qed.

Lemma string_app_assoc (a b c : string) : (a +:+ b) +:+ c = a +:+ (b +:+ c).
Proof.
  induction a as [|x a IH]; [done|].
  change (String x ((a +:+ b) +:+ c) = String x (a +:+ (b +:+ c))).
  by rewrite IH.
Qed.

(** The name that [run] gives a bundle is one that [_cleanup] takes for a
    bundle. *)
Lemma backup_filename_is_backup E : is_backup E (backup_filename E) = true.
Proof.
  unfold is_backup, backup_filename.
  rewrite startswith_app, <- !string_app_assoc.
  by rewrite endswith_app.
Qed.

(** C10. There is an execution in which the archive is created and a
    later write to it fails: the partly written bundle stays at the output
    path, its name is that of a bundle, and the retention pass that follows
    reads its modification time among the bundles and deletes the two
    complete older bundles in its favour. *)
Theorem partial_bundle_is_kept_and_counted :
  ∃ (E : env) (s : fsys),
    let r := run E s in
    let out := join (Config.destination (cfg E)) [backup_filename E] in
    dry_run E = false
    ∧ s !! out = None
    ∧ precedes (Sys (sys_zip_open out))
               (Log CRITICAL (MsgFatal (OSError
                  (sys_zip_write out ["stage"; "a"; "f1.txt"] ["a"; "f1.txt"]))))
               (trace r)
    ∧ state r !! out
      = Some (File (Zip [(["b"; "sub"; "f2.txt"], Bytes "world!")]) (now E))
    ∧ is_backup E (backup_filename E) = true
    ∧ precedes (Log CRITICAL (MsgFatal (OSError
                  (sys_zip_write out ["stage"; "a"; "f1.txt"] ["a"; "f1.txt"]))))
               (Sys (sys_getmtime out)) (trace r)
    ∧ Log INFO (MsgDelete "nightly_20240101_000000.zip") ∈ trace r
    ∧ state r !! ["backup"; "nightly_20240101_000000.zip"] = None
    ∧ state r !! ["backup"; "nightly_20231231_000000.zip"] = None.
Proof.
  exists Examples.archive_fails, Examples.disk.
  split_and!;
    first [ apply backup_filename_is_backup
          | apply precedesb_precedes; vm_compute; reflexivity
          | apply (bool_decide_unpack _); vm_compute; exact I
          | vm_compute; reflexivity ].
Qed.

(** * Retention *)

(** ** Paths and directory entries *)

Lemma strip_prefix_Some p k r : strip_prefix p k = Some r ↔ k = p ++ r.
Proof.
  revert k. induction p as [|x p IH]; intros k; simpl.
  - split; [by intros [= ->]|by intros ->].
  - destruct k as [|y k]; [done|].
    destruct (String.eqb_spec x y) as [->|Hne].
    + rewrite IH. split; [by intros ->|by intros [= ->]].
    + split; [done|]. intros [= ? _]. by destruct Hne.
Qed.

Lemma strip_prefix_app p r : strip_prefix p (p ++ r) = Some r.
Proof. by apply strip_prefix_Some. Qed.

Lemma entry_of_Some d k n : entry_of d k = Some n ↔ k = d ++ [n] ∧ special n = false.
Proof.
  unfold entry_of. destruct (strip_prefix d k) as [r|] eqn:Hr.
  - apply strip_prefix_Some in Hr as ->.
    destruct r as [|x [|y r]]; simpl.
    + split; [done|]. intros [H _]. apply (f_equal length) in H.
      rewrite app_nil_r, length_app in H. simpl in H. lia.
    + destruct (special x) eqn:Hx.
      * split; [done|]. intros [H%app_inv_head Hs]. congruence.
      * split; [by intros [= ->]|]. by intros [[= ->]%app_inv_head _].
    + split; [done|]. by intros [H%app_inv_head _].
  - split; [done|]. intros [-> _]. by rewrite strip_prefix_app in Hr.
Qed.

Lemma join_ordinary d n : special n = false → join d [n] = d ++ [n].
Proof.
  unfold special, join, join_step. simpl. intros [-> ->]%orb_false_elim. done.
Qed.

Lemma elem_of_entries s d n :
  n ∈ entries s d ↔ is_Some (s !! (d ++ [n])) ∧ special n = false.
Proof.
  unfold entries. rewrite list_elem_of_omap. split.
  - intros ([k x] & Hin & He). simpl in He.
    apply entry_of_Some in He as [-> Hs].
    apply elem_of_map_to_list in Hin. eauto.
  - intros [[x Hx] Hs]. exists (d ++ [n], x). split.
    + by apply elem_of_map_to_list.
    + by apply entry_of_Some.
Qed.

Lemma NoDup_omap {A B} (f : A → option B) (l : list A) :
  NoDup l →
  (∀ x y z, x ∈ l → y ∈ l → f x = Some z → f y = Some z → x = y) →
  NoDup (omap f l).
Proof.
  induction 1 as [|x l Hx Hl IH]; intros Hinj; simpl; [constructor|].
  destruct (f x) as [z|] eqn:Hfx.
  - constructor.
    + rewrite list_elem_of_omap. intros (y & Hy & Hfy).
      assert (x = y) as -> by (eapply Hinj; eauto using list_elem_of_here,
        list_elem_of_further). done.
    + apply IH. intros ?????. apply Hinj; by apply list_elem_of_further.
  - apply IH. intros ?????. apply Hinj; by apply list_elem_of_further.
Qed.

Lemma NoDup_entries s d : NoDup (entries s d).
Proof.
  apply NoDup_omap; [apply NoDup_map_to_list|].
  intros [k1 x1] [k2 x2] n H1 H2 E1 E2. simpl in E1, E2.
  apply entry_of_Some in E1 as [-> _]. apply entry_of_Some in E2 as [-> _].
  apply elem_of_map_to_list in H1, H2. congruence.
Qed.

Lemma NoDup_bundles E s : NoDup (bundles E s).
Proof.
  unfold bundles.
  apply NoDup_ListNoDup, List.NoDup_filter, NoDup_ListNoDup, NoDup_entries.
Qed.

Lemma elem_of_bundles E s n :
  n ∈ bundles E s ↔
  is_Some (s !! (Config.destination (cfg E) ++ [n])) ∧ special n = false
  ∧ is_backup E n = true.
Proof.
  unfold bundles. rewrite list_elem_of_In, List.filter_In, <- list_elem_of_In.
  rewrite elem_of_entries. tauto.
Qed.

(** ** [sorted] *)

Section Sorted.
Context {A : Type} (key : A → Z).

Lemma insert_by_perm x l : insert_by key x l ≡ₚ x :: l.
Proof.
  induction l as [|y l IH]; simpl; [done|].
  destruct (key x <=? key y); [done|]. rewrite IH. apply Permutation_swap.
Qed.

Lemma sorted_perm l : sorted key l ≡ₚ l.
Proof.
  induction l as [|x l IH]; simpl; [done|].
  unfold sorted in *. simpl. by rewrite insert_by_perm, IH.
Qed.

Lemma insert_by_sorted x l :
  StronglySorted (key_le key) l → StronglySorted (key_le key) (insert_by key x l).
Proof.
  induction 1 as [|y l Hl IH Hy]; simpl; [by repeat constructor|].
  destruct (Z.leb_spec (key x) (key y)) as [Hle|Hgt].
  - constructor; [by constructor|]. constructor; [done|].
    eapply Forall_impl; [exact Hy|]. unfold key_le. intros; lia.
  - constructor; [done|].
    rewrite (insert_by_perm x l). constructor; [unfold key_le; lia|done].
Qed.

Lemma sorted_sorted l : StronglySorted (key_le key) (sorted key l).
Proof.
  induction l as [|x l IH]; [constructor|].
  unfold sorted in *. simpl. by apply insert_by_sorted.
Qed.

(** Cutting a sorted list: what comes before the cut is not newer than
    what comes after it. *)
Lemma sorted_take_drop l n x y :
  x ∈ take n (sorted key l) → y ∈ drop n (sorted key l) → key x ≤ key y.
Proof.
  intros Hx Hy. pose proof (sorted_sorted l) as Hs.
  rewrite <- (take_drop n (sorted key l)) in Hs.
  by apply (StronglySorted_app_1_elem_of _ _ _ _ _ Hs).
Qed.
End Sorted.

(** Sorting names that carry their key is sorting the names by that key. *)
Lemma sorted_keyed {A} (f : A → Z) (l : list A) :
  fst <$> sorted snd ((λ n, (n, f n)) <$> l) = sorted f l.
Proof.
  assert (Hins : ∀ x l', insert_by snd (x, f x) ((λ n, (n, f n)) <$> l')
                         = (λ n, (n, f n)) <$> insert_by f x l').
  { intros x l'. induction l' as [|y l' IH]; simpl; [done|].
    destruct (f x <=? f y); [done|]. simpl. f_equal. exact IH. }
  assert (Hs : sorted snd ((λ n, (n, f n)) <$> l) = (λ n, (n, f n)) <$> sorted f l).
  { induction l as [|x l IH]; [done|].
    change (insert_by snd (x, f x) (sorted snd ((λ n, (n, f n)) <$> l))
            = (λ n, (n, f n)) <$> insert_by f x (sorted f l)).
    by rewrite IH, Hins. }
  rewrite Hs, <- list_fmap_compose. apply list_fmap_id.
Qed.

(** [backups[:-R]] for a retention of at least one bundle. *)
Lemma slice_to_retention {A} (l : list A) (R : Z) :
  1 ≤ R → slice_to l (- R) = take (length l - Z.to_nat R) l.
Proof.
  intros HR. unfold slice_to.
  destruct (Z.ltb_spec (- R) 0) as [_|?]; [|lia]. f_equal. lia.
Qed.

(** ** Calls that succeed *)

Lemma for_each_cons {A B} (f : A → M B) x l :
  for_each f (x :: l) = (y ← f x; ys ← for_each f l; mret (y :: ys)).
Proof. reflexivity. Qed.

Lemma node_at_snoc s d n : node_at s (d ++ [n]) = s !! (d ++ [n]).
Proof. unfold node_at. by destruct d. Qed.

Lemma node_at_below s d r : r ≠ [] → node_at s (d ++ r) = s !! (d ++ r).
Proof. intros Hr. unfold node_at. by destruct d, r. Qed.

Section Succeeding.
Variable E : env.
Hypothesis quiet : no_faults E.

Lemma sys_run {A} (c : syscall) (body : fsys → res A * fsys) s :
  sys E c body s = ((body s).1, (body s).2, [Sys c]).
Proof. unfold sys. rewrite quiet. by destruct (body s). Qed.

Lemma listdir_run d s :
  is_dir s d = true → listdir E d s = (Ok (entries s d), s, [Sys (sys_listdir d)]).
Proof. intros Hd. unfold listdir. by rewrite sys_run, Hd. Qed.

Lemma getmtime_run d n s :
  is_Some (s !! (d ++ [n])) →
  getmtime E (d ++ [n]) s = (Ok (mtime_in s d n), s, [Sys (sys_getmtime (d ++ [n]))]).
Proof.
  intros [x Hx]. unfold getmtime, mtime_in.
  by rewrite sys_run, node_at_snoc, Hx.
Qed.

Lemma remove_run d n s :
  is_file s (d ++ [n]) = true →
  remove E (d ++ [n]) s = (Ok tt, delete (d ++ [n]) s, [Sys (sys_remove (d ++ [n]))]).
Proof. intros Hf. unfold remove. by rewrite sys_run, Hf. Qed.

(** Reading the modification times of entries that exist. *)
Lemma with_mtime_all d names s :
  Forall (λ n, is_Some (s !! (d ++ [n])) ∧ special n = false) names →
  result (for_each (with_mtime E d) names s) = Ok ((λ n, (n, mtime_in s d n)) <$> names)
  ∧ state (for_each (with_mtime E d) names s) = s.
Proof.
  induction 1 as [|n names [Hn Hs] _ [IHr IHs]]; [done|].
  assert (Hone : with_mtime E d n s =
    (Ok (n, mtime_in s d n), s, [Sys (sys_getmtime (d ++ [n]))])).
  { unfold with_mtime. rewrite join_ordinary by done.
    by rewrite bind_eq, getmtime_run. }
  rewrite for_each_cons, result_bind, state_bind, Hone.
  cbn [result state fst snd].
  by rewrite result_bind, state_bind, IHr, IHs.
Qed.

(** [list_backups] returns the bundles, oldest first. *)
Lemma list_backups_run s :
  is_dir s (Config.destination (cfg E)) = true →
  result (list_backups E (Config.destination (cfg E)) s)
  = Ok (sorted (mtime_in s (Config.destination (cfg E))) (bundles E s))
  ∧ state (list_backups E (Config.destination (cfg E)) s) = s.
Proof.
  intros Hd. unfold list_backups.
  rewrite result_bind, state_bind, listdir_run by done.
  cbn [result state fst snd].
  change (List.filter (is_backup E) (entries s (Config.destination (cfg E))))
    with (bundles E s).
  destruct (with_mtime_all (Config.destination (cfg E)) (bundles E s) s) as [Hr Hs].
  { apply Forall_forall. intros n Hn. apply elem_of_bundles in Hn. tauto. }
  rewrite result_bind, state_bind, Hr, Hs.
  cbn [result state fst snd mret M_ret]. by rewrite sorted_keyed.
Qed.

(** Deleting bundles that are there. *)
Lemma delete_backups_run d names s :
  dry_run E = false →
  NoDup names →
  Forall (λ n, is_file s (d ++ [n]) = true ∧ special n = false) names →
  (∃ us, result (for_each (delete_backup E d) names s) = Ok us)
  ∧ state (for_each (delete_backup E d) names s)
    = foldl (λ m n, delete (d ++ [n]) m) s names.
Proof.
  intros Hdry Hnd. revert s.
  induction Hnd as [|n names Hn Hnd IH]; intros s Hall; [by eauto|].
  apply Forall_cons in Hall as [[Hf Hs] Hall].
  assert (Hone : delete_backup E d n s =
    (Ok tt, delete (d ++ [n]) s,
     [Log INFO (MsgDelete n); Sys (sys_remove (d ++ [n]))])).
  { unfold delete_backup. rewrite Hdry, join_ordinary by done.
    rewrite bind_eq. unfold log, emit. by rewrite remove_run. }
  rewrite for_each_cons, result_bind, state_bind, Hone.
  cbn [result state fst snd foldl].
  destruct (IH (delete (d ++ [n]) s)) as [[us Hus] Hst].
  { apply Forall_forall. intros m Hm.
    rewrite Forall_forall in Hall. destruct (Hall m Hm) as [Hfm Hsm].
    split; [|done]. unfold is_file in *.
    rewrite node_at_snoc in *. rewrite lookup_delete_ne; [done|].
    intros [= ->]%app_inv_head. done. }
  rewrite result_bind, state_bind, Hus, Hst. eauto.
Qed.
End Succeeding.

Lemma lookup_foldl_delete_other (s : fsys) (d : path) (names : list string) (p : path) :
  (∀ n, n ∈ names → p ≠ d ++ [n]) →
  foldl (λ m n, delete (d ++ [n]) m) s names !! p = s !! p.
Proof.
  revert s. induction names as [|n names IH]; intros s Hp; simpl; [done|].
  rewrite IH by (intros m Hm; apply Hp; by apply list_elem_of_further).
  apply lookup_delete_ne. intros Heq. by apply (Hp n); [apply list_elem_of_here|].
Qed.

Lemma lookup_foldl_delete_in (s : fsys) (d : path) (names : list string) (n : string) :
  n ∈ names → foldl (λ m n, delete (d ++ [n]) m) s names !! (d ++ [n]) = None.
Proof.
  revert s. induction names as [|m names IH]; intros s Hn; simpl; [by inv Hn|].
  destruct (decide (n ∈ names)) as [Hin|Hout]; [by apply IH|].
  apply elem_of_cons in Hn as [->|?]; [|done].
  rewrite lookup_foldl_delete_other; [apply lookup_delete_eq|].
  intros k Hk [= ->]%app_inv_head. done.
Qed.

(** C5. With a retention count [R >= 1] and [B] bundle files in the
    destination, pruning (not simulated, no call failing) returns and splits
    the bundles into those it deletes and those it keeps: it deletes [B - R]
    of them (none when [B <= R]) and keeps [min B R]; no deleted bundle was
    modified later than a kept one; exactly the deleted ones are gone from
    the file system, everything else is as it was, and the bundles that
    remain are the kept ones. *)
Theorem retention_keeps_the_newest (E : env) (s : fsys) :
  dry_run E = false →
  1 ≤ Config.retention (cfg E) →
  no_faults E →
  is_dir s (Config.destination (cfg E)) = true →
  forallb (λ n, is_file s (Config.destination (cfg E) ++ [n])) (bundles E s) = true →
  result (prune_old_backups E s) = Ok tt
  ∧ ∃ deleted kept : list string,
      retention_outcome E s (state (prune_old_backups E s)) deleted kept.
Proof.
  intros Hdry HR Hq Hd Hfiles.
  set (d := Config.destination (cfg E)) in *.
  set (R := Z.to_nat (Config.retention (cfg E))).
  set (srt := sorted (mtime_in s d) (bundles E s)).
  assert (Hperm : srt ≡ₚ bundles E s) by apply sorted_perm.
  assert (Hlen : length srt = length (bundles E s)) by by rewrite Hperm.
  set (k := (length (bundles E s) - R)%nat).
  assert (Hnd : NoDup srt) by (rewrite Hperm; apply NoDup_bundles).
  assert (Hsplit : srt = take k srt ++ drop k srt) by by rewrite take_drop.
  assert (Hndt : NoDup (take k srt)).
  { rewrite Hsplit in Hnd. by apply NoDup_app in Hnd as [? _]. }
  assert (Hin : ∀ n, n ∈ srt →
            is_file s (d ++ [n]) = true ∧ special n = false ∧ is_backup E n = true).
  { intros n Hn. rewrite Hperm in Hn. split.
    - rewrite forallb_forall in Hfiles. apply Hfiles. by apply list_elem_of_In.
    - apply elem_of_bundles in Hn. tauto. }
  assert (Hall : Forall (λ n, is_file s (d ++ [n]) = true ∧ special n = false) (take k srt)).
  { apply Forall_forall. intros n Hn.
    destruct (Hin n) as (? & ? & _); [|done]. rewrite Hsplit, elem_of_app. auto. }
  destruct (delete_backups_run E Hq d (take k srt) s Hdry Hndt Hall) as [[us Hus] Hst].
  assert (Hres : result (prune_old_backups E s) = Ok tt
                 ∧ state (prune_old_backups E s)
                   = foldl (λ m n, delete (d ++ [n]) m) s (take k srt)).
  { unfold prune_old_backups. cbv zeta. fold d.
    destruct (list_backups_run E Hq s Hd) as [Hr Hs]. fold d in Hr, Hs. fold srt in Hr.
    rewrite result_bind, state_bind, Hr, Hs.
    rewrite slice_to_retention by done. fold R. rewrite Hlen. fold k.
    by rewrite result_bind, state_bind, Hus, Hst. }
  destruct Hres as [Hres Hstate]. rewrite Hstate.
  assert (Hdel : ∀ n, n ∈ take k srt →
            foldl (λ m n, delete (d ++ [n]) m) s (take k srt) !! (d ++ [n]) = None).
  { intros n Hn. by apply lookup_foldl_delete_in. }
  assert (Hoth : ∀ p, (∀ n, n ∈ take k srt → p ≠ d ++ [n]) →
            foldl (λ m n, delete (d ++ [n]) m) s (take k srt) !! p = s !! p).
  { intros p Hp. by apply lookup_foldl_delete_other. }
  split; [done|]. exists (take k srt), (drop k srt).
  unfold retention_outcome. fold d R k.
  split_and!; try done.
  - by rewrite <- Hsplit.
  - rewrite length_take. lia.
  - rewrite length_drop. lia.
  - intros x y Hx Hy. by apply (sorted_take_drop (mtime_in s d) (bundles E s) k).
  - apply NoDup_Permutation; [apply NoDup_bundles| |].
    { rewrite Hsplit in Hnd. by apply NoDup_app in Hnd as (_ & _ & ?). }
    intros n. rewrite elem_of_bundles. fold d. split.
    + intros ([x Hx] & Hs & Hb).
      destruct (decide (n ∈ take k srt)) as [Hn|Hn]; [by rewrite Hdel in Hx|].
      rewrite Hoth in Hx.
      * assert (n ∈ srt) as Hsrt.
        { rewrite Hperm. apply elem_of_bundles. eauto. }
        rewrite Hsplit, elem_of_app in Hsrt. by destruct Hsrt.
      * intros m Hm [= ->]%app_inv_head. done.
    + intros Hn.
      assert (n ∈ srt) as Hsrt by (rewrite Hsplit, elem_of_app; auto).
      destruct (Hin n Hsrt) as (Hf & Hs & Hb). split_and!; [|done|done].
      rewrite Hoth.
      * unfold is_file in Hf. rewrite node_at_snoc in Hf.
        by destruct (s !! (d ++ [n])).
      * intros m Hm [= ->]%app_inv_head.
        rewrite Hsplit in Hnd. apply NoDup_app in Hnd as (_ & Hdisj & _).
        by apply (Hdisj m).
  - intros HB. replace k with 0%nat by lia. by rewrite take_0.
Qed.

Lemma retention_keeps_the_newest_witness :
  dry_run Examples.real_run = false
  ∧ 1 ≤ Config.retention (cfg Examples.real_run)
  ∧ length (bundles Examples.real_run Examples.disk) = 2%nat
  ∧ result (prune_old_backups Examples.real_run Examples.disk) = Ok tt
  ∧ ∃ deleted kept : list string,
      retention_outcome Examples.real_run Examples.disk
        (state (prune_old_backups Examples.real_run Examples.disk)) deleted kept.
Proof.
  split; [reflexivity|]. split; [done|]. split; [vm_compute; reflexivity|].
  apply retention_keeps_the_newest.
  - reflexivity.
  - done.
  - intros c. reflexivity.
  - vm_compute. reflexivity.
  - vm_compute. reflexivity.
Defined.

(** * Staging a file *)

Lemma result_bind_Ok {A B} (m : M A) (k : A → M B) s b :
  result ((m ≫= k) s) = Ok b →
  ∃ a, result (m s) = Ok a
       ∧ result (k a (state (m s))) = Ok b
       ∧ state ((m ≫= k) s) = state (k a (state (m s))).
Proof.
  rewrite result_bind, state_bind.
  destruct (result (m s)) as [a|e]; [|done]. eauto.
Qed.

Lemma sys_Ok (E : env) {A} (c : syscall) (body : fsys → res A * fsys) s a :
  result (sys E c body s) = Ok a →
  fault E c = false ∧ (body s).1 = Ok a ∧ state (sys E c body s) = (body s).2.
Proof.
  unfold sys. destruct (fault E c); [done|]. by destruct (body s).
Qed.

Lemma getsize_Ok E p s size :
  result (getsize E p s) = Ok size →
  state (getsize E p s) = s
  ∧ ∀ d m, node_at s p = Some (File d m) → size = data_size d.
Proof.
  unfold getsize. intros (_ & Hb & ->)%sys_Ok.
  destruct (node_at s p) as [[d m|m]|]; simpl in *; [|by split|done].
  split; [done|]. intros ?? [= <- _]. congruence.
Qed.

(** ** [os.makedirs] *)

Lemma elem_of_prefixes p q : q ∈ prefixes p → (length q ≤ length p)%nat.
Proof.
  unfold prefixes. rewrite list_elem_of_fmap. intros (n & -> & _).
  rewrite length_take. lia.
Qed.

Lemma mkdirs_lookup E s p q :
  mkdirs E s p !! q = s !! q
  ∨ (s !! q = None ∧ q ∈ prefixes p ∧ mkdirs E s p !! q = Some (Dir (now E))).
Proof.
  unfold mkdirs. generalize (prefixes p). intros l. revert s.
  induction l as [|x l IH]; intros s; simpl; [by left|].
  set (s1 := match s !! x with None => <[x := Dir (now E)]> s | Some _ => s end).
  assert (Hs1 : s1 !! q = s !! q ∨ (s !! q = None ∧ q = x ∧ s1 !! q = Some (Dir (now E)))).
  { subst s1. destruct (s !! x) eqn:Hx; [by left|].
    destruct (decide (x = q)) as [->|Hne].
    - right. by rewrite lookup_insert_eq.
    - left. by rewrite lookup_insert_ne. }
  destruct (IH s1) as [H1|(H1 & H2 & H3)].
  - rewrite H1. destruct Hs1 as [?|(? & -> & ?)]; [by left|].
    right. split_and!; [done|apply list_elem_of_here|done].
  - destruct Hs1 as [Heq|(? & ? & ?)]; [|congruence].
    right. rewrite <- Heq. split_and!; [done|by apply list_elem_of_further|done].
Qed.

(** An existing node is left as it is, and no file is created. *)
Lemma mkdirs_file E s p q d m :
  mkdirs E s p !! q = Some (File d m) → s !! q = Some (File d m).
Proof. destruct (mkdirs_lookup E s p q) as [<-|(_ & _ & ->)]; done. Qed.

Lemma mkdirs_outside E s p q :
  (length p < length q)%nat → mkdirs E s p !! q = s !! q.
Proof.
  intros Hlen. destruct (mkdirs_lookup E s p q) as [?|(_ & Hin & _)]; [done|].
  apply elem_of_prefixes in Hin. lia.
Qed.

(** ** Relative paths *)

Lemma lcp_app_l c r : lcp (c ++ r) c = c.
Proof.
  induction c as [|x c IH]; simpl; [by destruct r|].
  by rewrite String.eqb_refl, IH.
Qed.

Lemma relpath_below c r : r ≠ [] → relpath (c ++ r) c = r.
Proof.
  intros Hr. unfold relpath. rewrite lcp_app_l, Nat.sub_diag, drop_app_length.
  simpl. by destruct r.
Qed.

Lemma join_ordinary_path d r : existsb special r = false → join d r = d ++ r.
Proof.
  revert d. induction r as [|x r IH]; intros d; simpl.
  - by rewrite app_nil_r.
  - intros [Hx Hr]%orb_false_elim. unfold join in *. simpl.
    unfold join_step at 2. unfold special in Hx.
    apply orb_false_elim in Hx as [-> ->].
    rewrite IH by done. by rewrite <- app_assoc.
Qed.

Lemma dirname_length p : p ≠ [] → (length (dirname p) < length p)%nat.
Proof.
  intros Hp. unfold dirname. rewrite length_take.
  destruct p; [done|]. simpl. lia.
Qed.

Lemma state_copy_worker E src s r :
  result (copy_attempt E src s) = Ok r →
  state (_copy_worker E src s) = state (copy_attempt E src s).
Proof.
  intros Hr. unfold _copy_worker, call.
  by rewrite state_emit_bind, state_try_except, Hr.
Qed.

(** A file below the common ancestor [c] of the source folders, at
    [c ++ rel], that the worker copies successfully (not simulated) to a
    place that is not an existing directory: the source is a regular file,
    and after the copy the staging tree has, at the staging root joined with
    [rel], a file with the content and the modification time that the source
    has at copy time; the size reported is that of the content. *)
Lemma copy_worker_stages (E : env) (c rel : path) (s : fsys) (size : Z) :
  dry_run E = false →
  commonpath (Config.source_folders (cfg E)) = Some c →
  rel ≠ [] →
  existsb special rel = false →
  is_dir s (staging_dir E ++ rel) = false →
  result (_copy_worker E (c ++ rel) s) = Ok (true, size, c ++ rel) →
  join (staging_dir E) (relpath (c ++ rel) c) = staging_dir E ++ rel
  ∧ ∃ d m,
      s !! (c ++ rel) = Some (File d m)
      ∧ size = data_size d
      ∧ state (_copy_worker E (c ++ rel) s) !! (staging_dir E ++ rel) = Some (File d m).
Proof.
  intros Hdry Hc Hrel Hsp Hnd Hok.
  assert (Hdst : join (staging_dir E) (relpath (c ++ rel) c) = staging_dir E ++ rel).
  { by rewrite relpath_below, join_ordinary_path. }
  split; [done|].
  rewrite result_copy_worker in Hok.
  destruct (result (copy_attempt E (c ++ rel) s)) as [r|e] eqn:Ha; [|done].
  injection Hok as ->. rewrite (state_copy_worker E _ s _ Ha).
  unfold copy_attempt in Ha |- *.
  apply result_bind_Ok in Ha as (size' & Hsize & Ha & Hst). rewrite Hst. clear Hst.
  apply getsize_Ok in Hsize as [Hst Hsize]. rewrite Hst in Ha |- *. clear Hst.
  rewrite Hc in Ha |- *.
  apply result_bind_Ok in Ha as (c' & [= <-] & Ha & Hst). rewrite Hst. clear Hst.
  cbn [state mret M_ret fst snd] in Ha |- *. cbv zeta in Ha |- *.
  rewrite Hdst, Hdry in Ha |- *.
  set (src := c ++ rel) in *. set (dst := staging_dir E ++ rel) in *.
  apply result_bind_Ok in Ha as ([] & Hmk & Ha & Hst). rewrite Hst. clear Hst.
  unfold makedirs in Hmk, Ha |- *.
  apply sys_Ok in Hmk as (_ & Hmk & Hst). rewrite Hst in Ha |- *. clear Hst.
  destruct (existsb (is_file s) (prefixes (dirname dst))); [done|].
  cbn [fst snd] in Hmk, Ha |- *. clear Hmk.
  set (s1 := mkdirs E s (dirname dst)) in *.
  apply result_bind_Ok in Ha as ([] & Hcp & Ha & Hst). rewrite Hst. clear Hst.
  cbn [negb] in Hcp |- *. unfold copy2 in Hcp |- *.
  apply sys_Ok in Hcp as (_ & Hcp & Hst). rewrite Hst. clear Hst.
  cbn [state mret M_ret fst snd].
  assert (Hdne : dst ≠ []) by (subst dst; by destruct (staging_dir E), rel).
  assert (Hs1dst : is_dir s1 dst = false).
  { unfold is_dir, node_at in Hnd |- *. destruct dst as [|x dst'] eqn:Hd; [done|].
    subst s1. rewrite mkdirs_outside; [done|]. rewrite <- Hd.
    apply dirname_length. by rewrite Hd. }
  rewrite Hs1dst in Hcp |- *.
  destruct (node_at s1 src) as [[d m|m]|] eqn:Hsrc; [|done|done].
  destruct (bool_decide (dst = src)); [done|].
  destruct (is_dir s1 (dirname dst)); [|done]. cbn [andb negb fst snd] in Hcp |- *.
  exists d, m.
  assert (Hs : s !! src = Some (File d m)).
  { unfold node_at in Hsrc. destruct src as [|x src']; [done|].
    by apply mkdirs_file in Hsrc. }
  rewrite Hs1dst in Hcp |- *. cbn [negb fst snd] in Hcp |- *.
  cbn [result mret M_ret fst snd] in Ha. injection Ha as <-.
  split_and!; [done| |by rewrite lookup_insert_eq].
  apply (Hsize d m). unfold node_at. by destruct src.
Qed.

(** * The archive *)

Lemma elem_of_staged_files E s f :
  f ∈ staged_files E s ↔
  is_dir s (staging_dir E) = true
  ∧ ∃ r d m, r ≠ [] ∧ f = staging_dir E ++ r ∧ s !! f = Some (File d m).
Proof.
  unfold staged_files. destruct (is_dir s (staging_dir E)).
  - rewrite list_elem_of_omap. split.
    + intros ([k x] & Hin & Hf). apply elem_of_map_to_list in Hin.
      unfold file_below in Hf. simpl in Hf.
      destruct (strip_prefix (staging_dir E) k) as [[|y r]|] eqn:Hk; [done| |done].
      destruct x as [d m|]; [|done]. injection Hf as <-.
      apply strip_prefix_Some in Hk. split; [done|]. by exists (y :: r), d, m.
    + intros (_ & r & d & m & Hr & -> & Hs). exists (staging_dir E ++ r, File d m).
      split; [by apply elem_of_map_to_list|].
      unfold file_below. simpl. rewrite strip_prefix_app. by destruct r.
  - rewrite elem_of_nil. split; [done|]. by intros [? _].
Qed.

Lemma NoDup_staged_files E s : NoDup (staged_files E s).
Proof.
  unfold staged_files. destruct (is_dir s (staging_dir E)); [|constructor].
  apply NoDup_omap; [apply NoDup_map_to_list|].
  intros [k1 x1] [k2 x2] f H1 H2 E1 E2. unfold file_below in E1, E2. simpl in *.
  destruct (strip_prefix _ k1) as [[|??]|]; [done| |done].
  destruct (strip_prefix _ k2) as [[|??]|]; [done| |done].
  destruct x1, x2; try done. injection E1 as ->. injection E2 as ->.
  apply elem_of_map_to_list in H1, H2. congruence.
Qed.

Lemma walk_files_run top s :
  walk_files top s
  = (Ok (if is_dir s top then omap (file_below top) (map_to_list s) else []), s,
     [Sys (sys_walk top)]).
Proof. reflexivity. Qed.

(** Writing the entries one after another. *)
Lemma write_entries_run E out s files es us :
  (∀ f, f ∈ files → f ≠ out ∧ is_file s f = true) →
  result (for_each (write_entry E out) files (<[out := File (Zip es) (now E)]> s)) = Ok us →
  state (for_each (write_entry E out) files (<[out := File (Zip es) (now E)]> s))
  = <[out := File (Zip (es ++ (archive_entry E s <$> files))) (now E)]> s.
Proof.
  revert es us. induction files as [|f files IH]; intros es us Hfiles Hok.
  - simpl. by rewrite app_nil_r.
  - rewrite for_each_cons in Hok |- *.
    apply result_bind_Ok in Hok as ([] & Hw & Hok & Hst). rewrite Hst. clear Hst.
    apply result_bind_Ok in Hok as (us' & Hrest & _ & Hst). rewrite Hst. clear Hst.
    cbn [state mret M_ret fst snd].
    destruct (Hfiles f) as [Hne Hf]; [apply list_elem_of_here|].
    unfold write_entry, zip_write in Hw, Hrest |- *.
    apply sys_Ok in Hw as (_ & Hw & Hst). rewrite Hst in Hrest |- *. clear Hst.
    assert (Hfne : f ≠ []) by (intros ->; done).
    assert (Hread : node_at (<[out := File (Zip es) (now E)]> s) f = s !! f).
    { unfold node_at. destruct f; [done|]. by rewrite lookup_insert_ne. }
    rewrite Hread in Hw, Hrest |- *.
    unfold is_file in Hf. assert (node_at s f = s !! f) as Hnf by (by destruct f).
    rewrite Hnf in Hf. destruct (s !! f) as [[d m|?]|] eqn:Hsf; [|done|done].
    assert (Hout : node_at (<[out := File (Zip es) (now E)]> s) out
                   = if bool_decide (out = []) then Some (Dir 0)
                     else Some (File (Zip es) (now E))).
    { unfold node_at. destruct out; [done|]. by rewrite lookup_insert_eq. }
    rewrite Hout in Hw, Hrest |- *.
    destruct (bool_decide (out = [])); [done|].
    cbn [fst snd] in Hrest |- *. rewrite insert_insert_eq in Hrest |- *.
    rewrite (IH _ us'); [| |done].
    + f_equal. f_equal. f_equal. rewrite <- app_assoc. f_equal. simpl. f_equal.
      unfold archive_entry, content_at. by rewrite Hsf.
    + intros g Hg. apply Hfiles. by apply list_elem_of_further.
Qed.

(** C9. A successful archive step that is not simulated, for an output path
    that is not itself one of the staged files, creates one archive at the
    output path and changes nothing else; its entries are, in the order of
    the traversal, the files of the staging tree, each under its path
    relative to the staging root and with its content: every file below the
    staging root has an entry, every entry is such a file, no entry has the
    empty name of the root, and no name occurs twice. *)
Theorem archive_holds_the_staged_files (E : env) (out : path) (s : fsys) :
  dry_run E = false →
  out ∉ staged_files E s →
  result (_zip_staging_folder E out s) = Ok tt →
  ∃ es : list (path * data),
    state (_zip_staging_folder E out s) = <[out := File (Zip es) (now E)]> s
    ∧ es = archive_entry E s <$> staged_files E s
    ∧ (∀ name d, (name, d) ∈ es ↔
         name ≠ [] ∧ is_dir s (staging_dir E) = true
         ∧ ∃ m, s !! (staging_dir E ++ name) = Some (File d m))
    ∧ NoDup es.*1.
Proof.
  intros Hdry Hout Hok.
  exists (archive_entry E s <$> staged_files E s).
  assert (Hentry : ∀ f, f ∈ staged_files E s →
            ∃ r d m, r ≠ [] ∧ f = staging_dir E ++ r ∧ s !! f = Some (File d m)
                     ∧ archive_entry E s f = (r, d)).
  { intros f (_ & r & d & m & Hr & -> & Hs)%elem_of_staged_files.
    exists r, d, m. split_and!; try done.
    unfold archive_entry, content_at. by rewrite Hs, relpath_below. }
  split_and!; [|done| |].
  - unfold _zip_staging_folder in Hok |- *. rewrite Hdry in Hok |- *.
    unfold call, log in Hok |- *.
    rewrite result_emit_bind in Hok. rewrite state_emit_bind.
    cbv iota in Hok |- *.
    rewrite result_emit_bind in Hok. rewrite state_emit_bind.
    rewrite result_bind, walk_files_run in Hok. rewrite state_bind, walk_files_run.
    cbn [result state fst snd] in Hok |- *.
    change (if is_dir s (staging_dir E)
            then omap (file_below (staging_dir E)) (map_to_list s) else [])
      with (staged_files E s) in Hok |- *.
    apply result_bind_Ok in Hok as ([] & Hopen & Hok & Hst). rewrite Hst. clear Hst.
    unfold zip_open in Hopen, Hok |- *.
    apply sys_Ok in Hopen as (_ & Hopen & Hst). rewrite Hst in Hok |- *. clear Hst.
    unfold create in Hopen, Hok |- *.
    destruct (is_dir s (dirname out) && negb (is_dir s out)); [|done].
    cbn [fst snd] in Hok |- *.
    apply result_bind_Ok in Hok as (us & Hloop & _ & Hst). rewrite Hst. clear Hst.
    change (state (emit (Log INFO MsgZipDone) ?x)) with x.
    rewrite (write_entries_run E out s _ [] us); [done| |done].
    intros f Hf. split; [by intros ->|].
    apply elem_of_staged_files in Hf as (_ & r & d & m & Hr & -> & Hs).
    unfold is_file. rewrite node_at_below by done. by rewrite Hs.
  - intros name d. rewrite list_elem_of_fmap. split.
    + intros (f & Heq & Hf). pose proof Hf as Hf'.
      apply elem_of_staged_files in Hf' as [Hd _].
      destruct (Hentry f Hf) as (r & d' & m & Hr & -> & Hs & He).
      rewrite He in Heq. injection Heq as -> ->. eauto.
    + intros (Hname & Hd & m & Hs). exists (staging_dir E ++ name).
      assert (Hf : staging_dir E ++ name ∈ staged_files E s).
      { apply elem_of_staged_files. split; [done|]. by exists name, d, m. }
      split; [|done].
      unfold archive_entry, content_at. by rewrite Hs, relpath_below.
  - rewrite <- list_fmap_compose.
    apply NoDup_fmap_2_strong; [|apply NoDup_staged_files].
    intros f g Hf Hg Heq. simpl in Heq.
    destruct (Hentry f Hf) as (r & ? & ? & Hr & -> & _ & _).
    destruct (Hentry g Hg) as (r' & ? & ? & Hr' & -> & _ & _).
    rewrite !relpath_below in Heq by done. by subst.
Qed.

Lemma archive_holds_the_staged_files_witness :
  let out := ["backup"; "nightly_20240102_030405.zip"] in
  dry_run Examples.real_run = false
  ∧ staged_files Examples.real_run Examples.disk = [["stage"; "old.tmp"]]
  ∧ result (_zip_staging_folder Examples.real_run out Examples.disk) = Ok tt
  ∧ ∃ es : list (path * data),
      state (_zip_staging_folder Examples.real_run out Examples.disk)
        = <[out := File (Zip es) (now Examples.real_run)]> Examples.disk
      ∧ es = archive_entry Examples.real_run Examples.disk
               <$> staged_files Examples.real_run Examples.disk
      ∧ (∀ name d, (name, d) ∈ es ↔
           name ≠ [] ∧ is_dir Examples.disk (staging_dir Examples.real_run) = true
           ∧ ∃ m, Examples.disk !! (staging_dir Examples.real_run ++ name)
                  = Some (File d m))
      ∧ NoDup es.*1.
Proof.
  intros out. split; [reflexivity|]. split; [vm_compute; reflexivity|].
  split; [vm_compute; reflexivity|].
  apply archive_holds_the_staged_files.
  - reflexivity.
  - apply (bool_decide_unpack _). vm_compute. exact I.
  - vm_compute. reflexivity.
Defined.

(** * Staging within a run

    What the locked block of [run] sets up before the pool starts makes the
    destination of every worker free: on a tree-shaped file system no
    destination is an existing directory when its worker runs. *)

(** ** Prefixes *)

Lemma elem_of_prefixes_iff p q : q ∈ prefixes p ↔ q ≠ [] ∧ q `prefix_of` p.
Proof.
  unfold prefixes. rewrite list_elem_of_fmap. split.
  - intros (n & -> & Hn). apply elem_of_seq in Hn. split.
    + intros Hnil. apply (f_equal length) in Hnil.
      rewrite length_take in Hnil. simpl in Hnil. lia.
    + apply prefix_take.
  - intros [Hq [k ->]]. exists (length q). split.
    + by rewrite take_app_length.
    + apply elem_of_seq. rewrite length_app. destruct q; [done|]. simpl. lia.
Qed.

Lemma lcp_prefix_l a b : lcp a b `prefix_of` a.
Proof.
  revert b. induction a as [|x a IH]; intros [|y b]; simpl;
    try apply prefix_nil.
  destruct (String.eqb x y); [|apply prefix_nil]. by apply prefix_cons.
Qed.

Lemma lcp_prefix_r a b : lcp a b `prefix_of` b.
Proof.
  revert b. induction a as [|x a IH]; intros [|y b]; simpl;
    try apply prefix_nil.
  destruct (String.eqb_spec x y) as [->|]; [|apply prefix_nil]. by apply prefix_cons.
Qed.

Lemma foldl_lcp_prefix acc l :
  foldl lcp acc l `prefix_of` acc ∧ ∀ x, x ∈ l → foldl lcp acc l `prefix_of` x.
Proof.
  revert acc. induction l as [|y l IH]; intros acc; simpl.
  - split; [done|]. intros x Hx. by inv Hx.
  - destruct (IH (lcp acc y)) as [H1 H2]. split.
    + etrans; [exact H1|apply lcp_prefix_l].
    + intros x [->|Hx]%elem_of_cons; [|by apply H2].
      etrans; [exact H1|apply lcp_prefix_r].
Qed.

Lemma commonpath_prefix ps c p :
  commonpath ps = Some c → p ∈ ps → c `prefix_of` p.
Proof.
  destruct ps as [|p0 ps]; [done|]. intros [= <-] Hp.
  destruct (foldl_lcp_prefix p0 ps) as [H1 H2].
  apply elem_of_cons in Hp as [->|Hp]; [done|by apply H2].
Qed.

(** ** What [os.makedirs] and [shutil.rmtree] leave *)

Lemma is_dir_lookup s p :
  is_dir s p = true ↔ p = [] ∨ ∃ m, s !! p = Some (Dir m).
Proof.
  unfold is_dir, node_at. destruct p as [|x p].
  - split; [by left|done].
  - destruct (s !! (x :: p)) as [[]|]; split; try done;
      try (intros [?|[? ?]]; done). intros _. right. eauto.
Qed.

Lemma mkdirs_lookup_in E s p q :
  q ∈ prefixes p →
  mkdirs E s p !! q = Some (default (Dir (now E)) (s !! q)).
Proof.
  unfold mkdirs. generalize (prefixes p). intros l. revert s.
  induction l as [|x l IH]; intros s Hq; simpl; [by inv Hq|].
  set (s1 := match s !! x with None => <[x := Dir (now E)]> s | Some _ => s end).
  assert (Hs1 : s1 !! x = Some (default (Dir (now E)) (s !! x))).
  { subst s1. destruct (s !! x) eqn:Hx; [done|]. by rewrite lookup_insert_eq. }
  assert (Hs1' : ∀ k, k ≠ x → s1 !! k = s !! k).
  { intros k Hk. subst s1. destruct (s !! x); [done|]. by rewrite lookup_insert_ne. }
  destruct (decide (q ∈ l)) as [Hin|Hout].
  - rewrite IH by done. destruct (decide (q = x)) as [->|Hne].
    + by rewrite Hs1.
    + by rewrite Hs1'.
  - apply elem_of_cons in Hq as [->|?]; [|done].
    assert (Hkeep : ∀ s2 : fsys,
              foldl (λ (s' : fsys) (q : path),
                       match s' !! q with
                       | None => <[q := Dir (now E)]> s'
                       | Some _ => s'
                       end) s2 l !! x = s2 !! x).
    { clear -Hout. induction l as [|y l IH]; intros s2; simpl; [done|].
      apply not_elem_of_cons in Hout as [Hne Hout]. rewrite IH by done.
      destruct (s2 !! y); [done|]. by rewrite lookup_insert_ne. }
    by rewrite Hkeep.
Qed.

Lemma mkdirs_lookup_notin E s p q :
  q ∉ prefixes p → mkdirs E s p !! q = s !! q.
Proof.
  intros Hq. destruct (mkdirs_lookup E s p q) as [?|(_ & ? & _)]; done.
Qed.

Lemma mkdirs_is_dir E s p q :
  is_dir (mkdirs E s p) q = true → is_dir s q = true ∨ q ∈ prefixes p.
Proof.
  rewrite !is_dir_lookup. intros [->|[m Hm]]; [by left; left|].
  destruct (mkdirs_lookup E s p q) as [Heq|(_ & Hin & _)]; [|by right].
  left. right. exists m. by rewrite <- Heq.
Qed.

Lemma mkdirs_keeps_dir E s p q :
  is_dir s q = true → is_dir (mkdirs E s p) q = true.
Proof.
  rewrite !is_dir_lookup. intros [->|[m Hm]]; [by left|]. right.
  destruct (mkdirs_lookup E s p q) as [->|(Hn & _)]; [eauto|congruence].
Qed.

Lemma mkdirs_tree E s p :
  existsb (is_file s) (prefixes p) = false →
  tree_shaped s → tree_shaped (mkdirs E s p).
Proof.
  intros Hfree Hs q r Hr [x Hx].
  destruct (mkdirs_lookup E s p (q ++ r)) as [Heq|(_ & Hin & _)].
  - apply mkdirs_keeps_dir, (Hs q r Hr). rewrite <- Heq. eauto.
  - destruct q as [|y q]; [done|].
    apply elem_of_prefixes_iff in Hin as [_ Hpre].
    assert (Hq : (y :: q) ∈ prefixes p).
    { apply elem_of_prefixes_iff. split; [done|].
      etrans; [|exact Hpre]. by apply prefix_app_r. }
    apply is_dir_lookup. right.
    rewrite (mkdirs_lookup_in _ _ _ _ Hq).
    assert (Hnf : is_file s (y :: q) = false).
    { apply not_true_iff_false. intros Hf.
      assert (existsb (is_file s) (prefixes p) = true); [|congruence].
      apply existsb_exists. exists (y :: q). split; [|done].
      by apply list_elem_of_In. }
    unfold is_file, node_at in Hnf.
    destruct (s !! (y :: q)) as [[]|]; simpl; eauto. done.
Qed.

Lemma rmtree_tree p s :
  tree_shaped s → tree_shaped (filter (λ kv : path * node, strip_prefix p kv.1 = None) s).
Proof.
  intros Hs q r Hr [x Hx]. apply map_lookup_filter_Some in Hx as [Hx Hnone].
  simpl in Hnone.
  assert (Hd : is_dir s q = true) by (apply (Hs q r Hr); eauto).
  apply is_dir_lookup in Hd as [->|[m Hm]]; [done|].
  apply is_dir_lookup. right. exists m. apply map_lookup_filter_Some.
  split; [done|]. simpl.
  destruct (strip_prefix p q) as [k|] eqn:Hk; [|done].
  apply strip_prefix_Some in Hk as ->.
  by rewrite <- app_assoc, strip_prefix_app in Hnone.
Qed.

(** ** The staging directory after it is reset *)

Lemma reset_staging_Ok E s :
  result (reset_staging E s) = Ok tt →
  ∃ s' : fsys,
    state (reset_staging E s) = mkdirs E s' (staging_dir E)
    ∧ existsb (is_file s') (prefixes (staging_dir E)) = false
    ∧ ((s' = s ∧ node_at s (staging_dir E) = None)
       ∨ s' = filter (λ kv : path * node, strip_prefix (staging_dir E) kv.1 = None) s).
Proof.
  unfold reset_staging. intros Hok.
  apply result_bind_Ok in Hok as (stale & Hstale & Hok & Hst). rewrite Hst. clear Hst.
  change (state (exists_ (staging_dir E) s)) with s in Hok |- *.
  injection Hstale as <-.
  apply result_bind_Ok in Hok as ([] & Hrm & Hok & Hst). rewrite Hst. clear Hst.
  unfold makedirs in Hok |- *.
  apply sys_Ok in Hok as (_ & Hmk & Hst). rewrite Hst. clear Hst.
  case_bool_decide as Hex.
  - unfold rmtree in Hrm, Hmk |- *.
    apply sys_Ok in Hrm as (_ & Hrm & Hst). rewrite Hst in Hmk |- *. clear Hst.
    destruct (is_dir s (staging_dir E)); [|done]. cbn [fst snd] in Hmk |- *.
    eexists. split; [|split; [|by right]].
    + by destruct (existsb _ _).
    + by destruct (existsb _ _).
  - cbn [state mret M_ret fst snd] in Hmk |- *.
    exists s. split; [|split].
    + by destruct (existsb _ _).
    + by destruct (existsb _ _).
    + left. split; [done|]. destruct (node_at s (staging_dir E)) eqn:Hn; [|done].
      destruct Hex. eauto.
Qed.

Lemma reset_staging_tree E s :
  result (reset_staging E s) = Ok tt →
  tree_shaped s → tree_shaped (state (reset_staging E s)).
Proof.
  intros (s' & -> & Hfree & [[-> _]| ->])%reset_staging_Ok Hs.
  - by apply mkdirs_tree.
  - by apply mkdirs_tree, rmtree_tree.
Qed.

(** Nothing is left strictly below the staging root. *)
Lemma reset_staging_empty E s r :
  result (reset_staging E s) = Ok tt →
  tree_shaped s → r ≠ [] →
  state (reset_staging E s) !! (staging_dir E ++ r) = None.
Proof.
  intros (s' & -> & Hfree & Hs')%reset_staging_Ok Hs Hr.
  rewrite mkdirs_outside.
  2: { rewrite length_app. destruct r; [done|]. simpl. lia. }
  destruct Hs' as [[-> Hnone]| ->].
  - destruct (s !! (staging_dir E ++ r)) eqn:Hl; [|done].
    assert (Hd : is_dir s (staging_dir E) = true) by (apply (Hs _ r Hr); eauto).
    unfold is_dir in Hd. by rewrite Hnone in Hd.
  - apply map_lookup_filter_None. right. intros x _. simpl.
    by rewrite strip_prefix_app.
Qed.

(** No file is created. *)
Lemma reset_staging_files E s k d m :
  result (reset_staging E s) = Ok tt →
  state (reset_staging E s) !! k = Some (File d m) → s !! k = Some (File d m).
Proof.
  intros (s' & -> & _ & Hs')%reset_staging_Ok Hk. apply mkdirs_file in Hk.
  destruct Hs' as [[-> _]| ->]; [done|].
  by apply map_lookup_filter_Some in Hk as [? _].
Qed.

(** ** The files that are enumerated *)

Lemma for_each_pure {A B} (f : A → M B) (g : A → B) l s :
  (∀ x, result (f x s) = Ok (g x) ∧ state (f x s) = s) →
  result (for_each f l s) = Ok (g <$> l) ∧ state (for_each f l s) = s.
Proof.
  intros Hf. induction l as [|x l [IHr IHs]]; [done|].
  destruct (Hf x) as [Hr Hs].
  rewrite for_each_cons, result_bind, state_bind, Hr, Hs.
  by rewrite result_bind, state_bind, IHr, IHs.
Qed.

Lemma files_of_folder_run folder s :
  result (files_of_folder folder s)
  = Ok (if is_dir s folder then omap (file_below folder) (map_to_list s) else [])
  ∧ state (files_of_folder folder s) = s.
Proof.
  unfold files_of_folder. rewrite result_bind, state_bind.
  change (result (isdir folder s)) with (Ok (A:=bool) (is_dir s folder)).
  change (state (isdir folder s)) with s.
  destruct (is_dir s folder) eqn:Hd.
  - rewrite walk_files_run, Hd. done.
  - unfold log. by rewrite result_emit_bind, state_emit_bind.
Qed.

Lemma get_files_run E s :
  result (_get_files_to_backup E s)
  = Ok (concat ((λ folder, if is_dir s folder
                           then omap (file_below folder) (map_to_list s) else [])
                <$> Config.source_folders (cfg E)))
  ∧ state (_get_files_to_backup E s) = s.
Proof.
  unfold _get_files_to_backup, call. rewrite result_emit_bind, state_emit_bind.
  destruct (for_each_pure files_of_folder _ (Config.source_folders (cfg E)) s
              (λ folder, files_of_folder_run folder s)) as [Hr Hs].
  by rewrite result_bind, state_bind, Hr, Hs.
Qed.

(** Every enumerated file is a regular file strictly below the common
    ancestor of the source folders. *)
Lemma enumerated_below_common_ancestor E s c files f :
  commonpath (Config.source_folders (cfg E)) = Some c →
  result (_get_files_to_backup E s) = Ok files →
  f ∈ files →
  ∃ rel d m, rel ≠ [] ∧ f = c ++ rel ∧ s !! f = Some (File d m).
Proof.
  intros Hc Hfiles Hf. destruct (get_files_run E s) as [Hr _].
  rewrite Hr in Hfiles. injection Hfiles as <-.
  apply list_elem_of_In, in_concat in Hf as (l & Hl & Hf).
  apply list_elem_of_In in Hl, Hf.
  apply list_elem_of_fmap in Hl as (folder & -> & Hfolder).
  destruct (is_dir s folder); [|by inv Hf].
  apply list_elem_of_omap in Hf as ([k x] & Hin & Hfb).
  apply elem_of_map_to_list in Hin. unfold file_below in Hfb. simpl in Hfb.
  destruct (strip_prefix folder k) as [[|y r]|] eqn:Hk; [done| |done].
  destruct x as [d m|]; [|done]. injection Hfb as <-.
  apply strip_prefix_Some in Hk as ->.
  destruct (commonpath_prefix _ _ _ Hc Hfolder) as [r0 ->].
  exists (r0 ++ y :: r), d, m. split_and!; [by destruct r0| |done].
  by rewrite <- app_assoc.
Qed.

(** ** The directories that a worker creates *)

Lemma sys_state (E : env) {A} (c : syscall) (body : fsys → res A * fsys) s :
  state (sys E c body s) = if fault E c then s else (body s).2.
Proof. unfold sys. destruct (fault E c); [done|]. by destruct (body s). Qed.

Lemma getsize_state E p s : state (getsize E p s) = s.
Proof.
  unfold getsize. rewrite sys_state. destruct (fault E _); [done|].
  by destruct (node_at s p) as [[]|].
Qed.

Lemma makedirs_state E q s :
  state (makedirs E q s) = s ∨ state (makedirs E q s) = mkdirs E s q.
Proof.
  unfold makedirs. rewrite sys_state. destruct (fault E _); [by left|].
  destruct (existsb _ _); [by left|by right].
Qed.

Lemma is_dir_insert_file s t d m p :
  is_dir (<[t := File d m]> s) p = true → is_dir s p = true.
Proof.
  rewrite !is_dir_lookup. intros [->|[m' Hm]]; [by left|]. right. exists m'.
  destruct (decide (t = p)) as [->|Hne].
  - by rewrite lookup_insert_eq in Hm.
  - by rewrite lookup_insert_ne in Hm.
Qed.

Lemma copy2_is_dir E a b s p :
  is_dir (state (copy2 E a b s)) p = true → is_dir s p = true.
Proof.
  unfold copy2. rewrite sys_state. destruct (fault E _); [done|].
  destruct (node_at s a) as [[d m|]|]; [|done|done].
  destruct (bool_decide _); [done|]. destruct (_ && _); [|done].
  apply is_dir_insert_file.
Qed.

Lemma state_copy_worker_attempt E f s :
  state (_copy_worker E f s) = state (copy_attempt E f s).
Proof.
  unfold _copy_worker, call. rewrite state_emit_bind, state_try_except.
  destruct (result (copy_attempt E f s)); [done|].
  unfold log. by rewrite state_emit_bind.
Qed.

Lemma copy_worker_is_dir E c f s p :
  commonpath (Config.source_folders (cfg E)) = Some c →
  is_dir (state (_copy_worker E f s)) p = true →
  is_dir s p = true
  ∨ p ∈ prefixes (dirname (join (staging_dir E) (relpath f c))).
Proof.
  intros Hc. rewrite state_copy_worker_attempt. unfold copy_attempt.
  rewrite state_bind, getsize_state.
  destruct (result (getsize E f s)) as [size|]; [|by left].
  rewrite Hc, state_bind. cbn [result state mret M_ret fst snd]. cbv zeta.
  set (dst := join (staging_dir E) (relpath f c)).
  rewrite state_bind.
  assert (Hmk : ∀ p, is_dir (state (makedirs E (dirname dst) s)) p = true →
                     is_dir s p = true ∨ p ∈ prefixes (dirname dst)).
  { intros p'. destruct (makedirs_state E (dirname dst) s) as [-> | ->]; [by left|].
    apply mkdirs_is_dir. }
  destruct (result (makedirs E (dirname dst) s)) as [[]|]; [|apply Hmk].
  rewrite state_bind.
  assert (Hcp : is_dir (state ((if negb (dry_run E) then copy2 E f dst else mret tt)
                                 (state (makedirs E (dirname dst) s)))) p = true →
                is_dir (state (makedirs E (dirname dst) s)) p = true).
  { destruct (negb (dry_run E)); [apply copy2_is_dir|done]. }
  destruct (result ((if negb (dry_run E) then copy2 E f dst else mret tt) _)) as [[]|];
    intros Hp; apply Hmk, Hcp, Hp.
Qed.

Lemma dirname_snoc p : p ≠ [] → ∃ x, p = dirname p ++ [x].
Proof.
  intros Hp. destruct (exists_last Hp) as (q & x & ->). exists x.
  unfold dirname. rewrite length_app. simpl.
  replace (length q + 1 - 1)%nat with (length q) by lia.
  by rewrite take_app_length.
Qed.

(** ** The pool *)

Section PoolInvariant.
Variables (E : env) (c : path).
Hypothesis Hc : commonpath (Config.source_folders (cfg E)) = Some c.

Lemma staging_dirs_from_mono d1 d2 s :
  (∀ g, g ∈ d1 → g ∈ d2) →
  staging_dirs_from E c d1 s → staging_dirs_from E c d2 s.
Proof.
  intros Hsub Hinv r0 Hr0 Hd.
  destruct (Hinv r0 Hr0 Hd) as (g & r1 & Hg & Hr1 & Heq).
  exists g, r1. split_and!; [by apply Hsub|done|done].
Qed.

Lemma worker_keeps_staging_dirs staged s rel :
  rel ≠ [] → existsb special rel = false →
  staging_dirs_from E c staged s →
  staging_dirs_from E c ((c ++ rel) :: staged) (state (_copy_worker E (c ++ rel) s)).
Proof.
  intros Hrel Hclean Hinv r0 Hr0 Hd.
  apply (copy_worker_is_dir E c _ _ _ Hc) in Hd as [Hd|Hin].
  - destruct (Hinv r0 Hr0 Hd) as (g & r1 & Hg & Hr1 & ->).
    exists (c ++ r0 ++ r1), r1. split_and!; [by apply list_elem_of_further|done|done].
  - rewrite relpath_below, join_ordinary_path in Hin by done.
    apply elem_of_prefixes_iff in Hin as [_ [k Hk]].
    destruct (dirname_snoc (staging_dir E ++ rel)) as [x Hx].
    { by destruct (staging_dir E), rel. }
    rewrite Hk, <- !app_assoc in Hx. apply app_inv_head in Hx.
    exists (c ++ rel), (k ++ [x]).
    split_and!; [apply list_elem_of_here|by destruct k|by rewrite Hx].
Qed.

Lemma state_for_each_worker f files s :
  state (for_each (_copy_worker E) (f :: files) s)
  = state (for_each (_copy_worker E) files (state (_copy_worker E f s))).
Proof.
  rewrite for_each_cons, state_bind.
  destruct (copy_worker_total E f s) as (ok & size & ->).
  rewrite state_bind.
  by destruct (result (for_each (_copy_worker E) files _)).
Qed.

Lemma pool_keeps_staging_dirs pre staged s :
  (∀ f, f ∈ pre → ∃ rel, f = c ++ rel ∧ rel ≠ [] ∧ existsb special rel = false) →
  staging_dirs_from E c staged s →
  staging_dirs_from E c (pre ++ staged) (state (for_each (_copy_worker E) pre s)).
Proof.
  revert staged s. induction pre as [|f pre IH]; intros staged s Hgood Hinv; [done|].
  rewrite state_for_each_worker.
  destruct (Hgood f) as (rel & -> & Hrel & Hclean); [apply list_elem_of_here|].
  eapply staging_dirs_from_mono; [|apply (IH ((c ++ rel) :: staged))].
  - intros g. simpl. rewrite elem_of_app, !elem_of_cons, elem_of_app. tauto.
  - intros g Hg. apply Hgood. by apply list_elem_of_further.
  - by apply worker_keeps_staging_dirs.
Qed.

(** A destination is free as long as no file that was staged lies below
    the file it is for. *)
Lemma staging_destination_free staged s rel :
  rel ≠ [] →
  staging_dirs_from E c staged s →
  (∀ g r, g ∈ staged → r ≠ [] → g ≠ (c ++ rel) ++ r) →
  is_dir s (staging_dir E ++ rel) = false.
Proof.
  intros Hrel Hinv Hanti. apply not_true_iff_false. intros Hd.
  destruct (Hinv rel Hrel Hd) as (g & r1 & Hg & Hr1 & ->).
  apply (Hanti _ r1 Hg Hr1). by rewrite <- app_assoc.
Qed.
End PoolInvariant.

(** ** The checks decide the properties *)

Lemma dirname_app_snoc p z : dirname (p ++ [z]) = p.
Proof.
  unfold dirname. rewrite length_app. simpl.
  replace (length p + 1 - 1)%nat with (length p) by lia.
  by rewrite take_app_length.
Qed.

Lemma is_tree_sound s : is_tree s = true → tree_shaped s.
Proof.
  intros Ht q r Hr [x Hx]. destruct q as [|y q]; [done|].
  unfold is_tree in Ht. rewrite forallb_forall in Ht.
  specialize (Ht ((y :: q) ++ r, x)). simpl in Ht.
  rewrite forallb_forall in Ht. apply Ht.
  - apply list_elem_of_In. by apply elem_of_map_to_list.
  - apply list_elem_of_In, elem_of_prefixes_iff. split; [done|].
    destruct (exists_last Hr) as (r' & z & ->).
    assert (Hdn : dirname ((y :: q) ++ r' ++ [z]) = (y :: q) ++ r').
    { rewrite app_assoc. apply dirname_app_snoc. }
    simpl in Hdn |- *. rewrite Hdn. by apply (prefix_app_r (y :: q) (y :: q) r').
Qed.

Lemma has_clean_names_sound s : has_clean_names s = true → clean_names s.
Proof.
  intros Hc k [x Hx]. unfold has_clean_names in Hc. rewrite forallb_forall in Hc.
  specialize (Hc (k, x)). simpl in Hc. apply negb_true_iff, Hc.
  apply list_elem_of_In. by apply elem_of_map_to_list.
Qed.

(** C7. In the locked block of a run that is not simulated, on a file
    system that is a tree with clean names: when the worker of an
    enumerated file [f] reports success, [f] lies below the common ancestor
    [c] of the source folders at [c ++ rel], its destination (the staging
    root joined with the path of [f] relative to [c]) is the staging root
    followed by [rel], [f] is a regular file at copy time, and after the copy
    the staging tree has at that destination a file with the same content
    and the same modification time; the size reported is that of the
    content. *)
Theorem staged_copy_mirrors_source
    (E : env) (s : fsys) (c : path) (pre post : list path) (f : path) (size : Z) :
  dry_run E = false →
  is_tree s = true →
  has_clean_names s = true →
  commonpath (Config.source_folders (cfg E)) = Some c →
  result (reset_staging E s) = Ok tt →
  result (_get_files_to_backup E (state (reset_staging E s))) = Ok (pre ++ f :: post) →
  result (_copy_worker E f (copy_time_state E s pre)) = Ok (true, size, f) →
  ∃ rel d m,
    f = c ++ rel
    ∧ join (staging_dir E) (relpath f c) = staging_dir E ++ rel
    ∧ copy_time_state E s pre !! f = Some (File d m)
    ∧ size = data_size d
    ∧ state (_copy_worker E f (copy_time_state E s pre)) !! (staging_dir E ++ rel)
      = Some (File d m).
Proof.
  intros Hdry Htree%is_tree_sound Hclean%has_clean_names_sound Hc Hreset Hfiles Hok.
  set (s1 := state (reset_staging E s)) in *.
  assert (Htree1 : tree_shaped s1) by by apply reset_staging_tree.
  assert (Hgood : ∀ g, g ∈ pre ++ f :: post →
            ∃ rel d m, g = c ++ rel ∧ rel ≠ [] ∧ existsb special rel = false
                       ∧ s1 !! g = Some (File d m)).
  { intros g Hg.
    destruct (enumerated_below_common_ancestor E s1 c _ g Hc Hfiles Hg)
      as (rel & d & m & Hrel & -> & Hs1).
    exists rel, d, m. split_and!; try done.
    apply reset_staging_files in Hs1; [|done].
    assert (Hk : existsb special (c ++ rel) = false) by (apply Hclean; eauto).
    rewrite existsb_app in Hk. by apply orb_false_elim in Hk as [_ ?]. }
  destruct (Hgood f) as (rel & d0 & m0 & -> & Hrel & Hcl & Hf1).
  { rewrite elem_of_app, elem_of_cons. auto. }
  assert (Hinv : staging_dirs_from E c (pre ++ []) (copy_time_state E s pre)).
  { apply pool_keeps_staging_dirs; [done| |].
    - intros g Hg. destruct (Hgood g) as (r & _ & _ & ? & ? & ? & _); [|eauto].
      rewrite elem_of_app. auto.
    - intros r0 Hr0 Hd. apply is_dir_lookup in Hd as [Hnil|[m Hm]].
      + by destruct (staging_dir E), r0.
      + fold s1 in Hm. unfold s1 in Hm.
        by rewrite reset_staging_empty in Hm. }
  assert (Hfree : is_dir (copy_time_state E s pre) (staging_dir E ++ rel) = false).
  { apply (staging_destination_free E c (pre ++ [])); [done|done|].
    intros g r Hg Hr ->. rewrite app_nil_r in Hg.
    destruct (Hgood ((c ++ rel) ++ r)) as (? & ? & ? & _ & _ & _ & Hg1).
    { rewrite elem_of_app. auto. }
    assert (Hd : is_dir s1 (c ++ rel) = true) by (apply (Htree1 _ r Hr); eauto).
    apply is_dir_lookup in Hd as [Hnil|[m Hm]]; [|congruence].
    by destruct c, rel. }
  destruct (copy_worker_stages E c rel _ size Hdry Hc Hrel Hcl Hfree Hok)
    as (Hdst & d & m & Hsrc & Hsize & Hstaged).
  exists rel, d, m. by split_and!.
Qed.

Lemma staged_copy_mirrors_source_witness :
  let E := Examples.real_run in
  let s := Examples.disk in
  let f := ["src"; "b"; "sub"; "f2.txt"] in
  dry_run E = false
  ∧ result (_get_files_to_backup E (state (reset_staging E s)))
    = Ok ([["src"; "a"; "f1.txt"]] ++ f :: [])
  ∧ ∃ rel d m,
      f = ["src"] ++ rel
      ∧ join (staging_dir E) (relpath f ["src"]) = staging_dir E ++ rel
      ∧ copy_time_state E s [["src"; "a"; "f1.txt"]] !! f = Some (File d m)
      ∧ 6 = data_size d
      ∧ state (_copy_worker E f (copy_time_state E s [["src"; "a"; "f1.txt"]]))
          !! (staging_dir E ++ rel) = Some (File d m).
Proof.
  intros E s f. split; [reflexivity|]. split; [vm_compute; reflexivity|].
  apply (staged_copy_mirrors_source E s ["src"] [["src"; "a"; "f1.txt"]] [] f 6).
  - reflexivity.
  - vm_compute. reflexivity.
  - vm_compute. reflexivity.
  - reflexivity.
  - vm_compute. reflexivity.
  - vm_compute. reflexivity.
  - vm_compute. reflexivity.
Defined.

(** ** Where the pool runs in the locked block *)

(** The pool runs the worker of [f] in the state that the workers before it
    leave. *)
Lemma pool_runs_worker_at_copy_time E s pre f post :
  state (for_each (_copy_worker E) (pre ++ f :: post) (state (reset_staging E s)))
  = state (for_each (_copy_worker E) post
             (state (_copy_worker E f (copy_time_state E s pre)))).
Proof.
  unfold copy_time_state. generalize (state (reset_staging E s)). intros s1.
  revert s1. induction pre as [|g pre IH]; intros s1; simpl app.
  - by rewrite state_for_each_worker.
  - by rewrite !state_for_each_worker, IH.
Qed.

Lemma state_for_each_getsize E files s : state (for_each (getsize E) files s) = s.
Proof.
  induction files as [|f files IH]; [done|].
  rewrite for_each_cons, state_bind, getsize_state.
  destruct (result (getsize E f s)); [|done].
  rewrite state_bind, IH. by destruct (result (for_each _ _ _)).
Qed.

(** The locked block hands the enumerated files to the pool in the state
    that resetting the staging directory leaves, and the archive step starts
    in the state that the pool leaves. *)
Lemma locked_body_copy_phase E s files sizes :
  0 < Config.parallel_workers (cfg E) →
  result (reset_staging E s) = Ok tt →
  result (_get_files_to_backup E (state (reset_staging E s))) = Ok files →
  files ≠ [] →
  result (for_each (getsize E) files (state (reset_staging E s))) = Ok sizes →
  state (locked_body E s)
  = state (_zip_staging_folder E
             (join (Config.destination (cfg E)) [backup_filename E])
             (state (for_each (_copy_worker E) files (state (reset_staging E s))))).
Proof.
  intros Hw Hreset Hfiles Hne Hsizes. unfold locked_body.
  rewrite state_bind, Hreset.
  destruct (get_files_run E (state (reset_staging E s))) as [_ Hst].
  rewrite state_bind, Hfiles, Hst.
  destruct files as [|f files]; [done|].
  rewrite state_bind, Hsizes, state_for_each_getsize. cbv zeta.
  rewrite state_bind, copy_files_total by done.
  f_equal. f_equal.
  unfold _copy_files_to_staging_parallel, call, log.
  rewrite !state_emit_bind, state_bind.
  assert (Hdry : ∀ s', result ((if dry_run E then emit (Log INFO MsgDryCopy) else mret tt) s') = Ok tt
                       ∧ state ((if dry_run E then emit (Log INFO MsgDryCopy) else mret tt) s') = s')
    by (intros s'; by destruct (dry_run E)).
  destruct (Hdry (state (reset_staging E s))) as [-> ->].
  rewrite state_bind. unfold pool_results.
  destruct (Z.leb_spec (Config.parallel_workers (cfg E)) 0) as [?|_]; [lia|].
  by destruct (result (for_each (_copy_worker E) (f :: files) _)).
Qed.

(** * More about the lock *)

Lemma enter_eq E p s :
  LockFile.__enter__ E p s =
  if bool_decide (is_Some (node_at s p))
  then (Raise (RuntimeError p), s, [Call LockFile_enter; Sys (sys_exists p)])
  else if fault E (sys_open_w p)
  then (Raise (OSError (sys_open_w p)), s,
        [Call LockFile_enter; Sys (sys_exists p); Sys (sys_open_w p)])
  else if is_dir s (dirname p) && negb (is_dir s p)
  then if fault E (sys_write p)
       then (Raise (OSError (sys_write p)), <[p := File (Bytes "") (now E)]> s,
             [Call LockFile_enter; Sys (sys_exists p); Sys (sys_open_w p);
              Sys (sys_write p)])
       else (Ok tt, <[p := File (Bytes (pretty (pid E))) (now E)]> s,
             [Call LockFile_enter; Sys (sys_exists p); Sys (sys_open_w p);
              Sys (sys_write p)])
  else (Raise (OSError (sys_open_w p)), s,
        [Call LockFile_enter; Sys (sys_exists p); Sys (sys_open_w p)]).
Proof.
  unfold LockFile.__enter__. rewrite bind_eq. unfold call, emit.
  rewrite bind_eq. unfold exists_. cbv beta.
  destruct (bool_decide (is_Some (node_at s p))); [reflexivity|].
  unfold open_w. rewrite bind_eq. unfold sys, create. cbv beta.
  destruct (fault E (sys_open_w p)); [reflexivity|].
  destruct (is_dir s (dirname p) && negb (is_dir s p)); [|reflexivity].
  destruct (fault E (sys_write p)); [reflexivity|].
  cbn [app]. by rewrite insert_insert_eq.
Qed.

Lemma exit_eq E p s :
  LockFile.__exit__ E p s =
  if bool_decide (is_Some (node_at s p))
  then if fault E (sys_remove p)
       then (Raise (OSError (sys_remove p)), s,
             [Call LockFile_exit; Sys (sys_exists p); Sys (sys_remove p)])
       else if is_file s p
       then (Ok tt, delete p s,
             [Call LockFile_exit; Sys (sys_exists p); Sys (sys_remove p)])
       else (Raise (OSError (sys_remove p)), s,
             [Call LockFile_exit; Sys (sys_exists p); Sys (sys_remove p)])
  else (Ok tt, s, [Call LockFile_exit; Sys (sys_exists p)]).
Proof.
  unfold LockFile.__exit__. rewrite bind_eq. unfold call, emit.
  rewrite bind_eq. unfold exists_. cbv beta.
  destruct (bool_decide (is_Some (node_at s p))); [|reflexivity].
  unfold remove, sys. cbv beta.
  destruct (fault E (sys_remove p)); [reflexivity|].
  by destruct (is_file s p).
Qed.

Lemma enter_Ok_inv E p s :
  result (LockFile.__enter__ E p s) = Ok tt →
  node_at s p = None
  ∧ p ≠ []
  ∧ is_dir s (dirname p) = true
  ∧ (fault E (sys_open_w p) = false ∧ fault E (sys_write p) = false)
  ∧ LockFile.__enter__ E p s
    = (Ok tt, <[p := File (Bytes (pretty (pid E))) (now E)]> s,
       [Call LockFile_enter; Sys (sys_exists p); Sys (sys_open_w p);
        Sys (sys_write p)]).
Proof.
  rewrite enter_eq. case_bool_decide as Hex; [done|].
  destruct (fault E (sys_open_w p)); [done|].
  destruct (is_dir s (dirname p)) eqn:Hd; [|done].
  destruct (is_dir s p) eqn:Hp; [done|].
  destruct (fault E (sys_write p)); [done|]. intros _.
  assert (Hnone : node_at s p = None).
  { destruct (node_at s p) eqn:Hn; [|done]. destruct Hex. eauto. }
  split_and!; try done. by intros ->.
Qed.

(** X1. Once [__enter__] has returned for one instance, [__enter__] of any
    instance on the same path raises the [RuntimeError], writes nothing and
    leaves the marker with the process identifier of the first. *)
Theorem second_acquire_is_refused (E E' : env) (p : path) (s : fsys) :
  result (LockFile.__enter__ E p s) = Ok tt →
  state (LockFile.__enter__ E p s) !! p
    = Some (File (Bytes (pretty (pid E))) (now E))
  ∧ LockFile.__enter__ E' p (state (LockFile.__enter__ E p s))
    = (Raise (RuntimeError p), state (LockFile.__enter__ E p s),
       [Call LockFile_enter; Sys (sys_exists p)]).
Proof.
  intros (_ & Hp & _ & _ & ->)%enter_Ok_inv. cbn [state fst snd].
  split; [by rewrite lookup_insert_eq|].
  rewrite enter_eq, bool_decide_eq_true_2; [done|].
  unfold node_at. destruct p; [done|]. rewrite lookup_insert_eq. eauto.
Qed.

Lemma second_acquire_is_refused_witness :
  let E := Examples.real_run in
  let E' := Examples.simulated_run in
  let p := lock_path E in
  result (LockFile.__enter__ E p Examples.disk) = Ok tt
  ∧ result (LockFile.__enter__ E' p (state (LockFile.__enter__ E p Examples.disk)))
    = Raise (RuntimeError p).
Proof.
  intros E E' p. split; [vm_compute; reflexivity|].
  destruct (second_acquire_is_refused E E' p Examples.disk) as [_ ->];
    [vm_compute; reflexivity|reflexivity].
Defined.

(** X2. Acquiring and then releasing restores the file system: when
    [__enter__] returns and the removal of the marker does not fail,
    [__exit__] returns and the state is the one before [__enter__]. *)
Theorem acquire_release_restores (E : env) (p : path) (s : fsys) :
  result (LockFile.__enter__ E p s) = Ok tt →
  fault E (sys_remove p) = false →
  result (LockFile.__exit__ E p (state (LockFile.__enter__ E p s))) = Ok tt
  ∧ state (LockFile.__exit__ E p (state (LockFile.__enter__ E p s))) = s.
Proof.
  intros (Hnone & Hp & _ & _ & ->)%enter_Ok_inv Hrm. cbn [state fst snd].
  set (s1 := <[p := File (Bytes (pretty (pid E))) (now E)]> s).
  assert (Hs1 : node_at s1 p = Some (File (Bytes (pretty (pid E))) (now E))).
  { unfold node_at. destruct p; [done|]. subst s1. by rewrite lookup_insert_eq. }
  assert (Hex : LockFile.__exit__ E p s1
                = (Ok tt, delete p s1,
                   [Call LockFile_exit; Sys (sys_exists p); Sys (sys_remove p)])).
  { rewrite exit_eq, bool_decide_eq_true_2 by (rewrite Hs1; eauto).
    unfold is_file. by rewrite Hrm, Hs1. }
  rewrite Hex. split; [done|]. cbn [state fst snd]. subst s1.
  apply delete_insert_id. unfold node_at in Hnone. by destruct p.
Qed.

Lemma acquire_release_restores_witness :
  let E := Examples.real_run in
  let p := lock_path E in
  result (LockFile.__enter__ E p Examples.disk) = Ok tt
  ∧ state (LockFile.__exit__ E p (state (LockFile.__enter__ E p Examples.disk)))
    = Examples.disk.
Proof.
  intros E p. split; [vm_compute; reflexivity|].
  apply (acquire_release_restores E p Examples.disk);
    [vm_compute; reflexivity|reflexivity].
Defined.

(** X3. Releasing is best effort and touches the marker only: whenever
    [__exit__] returns, there is no marker afterwards and every other path
    is as it was; when there is no marker to begin with, it returns without
    asking for a removal. *)
Theorem release_leaves_no_marker (E : env) (p : path) (s : fsys) :
  result (LockFile.__exit__ E p s) = Ok tt →
  node_at (state (LockFile.__exit__ E p s)) p = None
  ∧ (∀ q, q ≠ p → state (LockFile.__exit__ E p s) !! q = s !! q)
  ∧ (node_at s p = None →
     LockFile.__exit__ E p s = (Ok tt, s, [Call LockFile_exit; Sys (sys_exists p)])).
Proof.
  rewrite exit_eq. case_bool_decide as Hex.
  - destruct (fault E (sys_remove p)); [done|].
    unfold is_file. destruct (node_at s p) as [[d m|]|] eqn:Hn; try done.
    intros _. cbn [state fst snd].
    assert (Hp : p ≠ []) by (intros ->; done).
    split_and!.
    + unfold node_at. destruct p; [done|]. apply lookup_delete_eq.
    + intros q Hq. by apply lookup_delete_ne.
    + done.
  - intros _. cbn [state fst snd].
    assert (Hnone : node_at s p = None).
    { destruct (node_at s p) eqn:Hn; [|done]. destruct Hex. eauto. }
    by split_and!.
Qed.

Lemma release_leaves_no_marker_witness :
  let E := Examples.real_run in
  result (LockFile.__exit__ E (lock_path E) Examples.disk_locked) = Ok tt
  ∧ node_at (state (LockFile.__exit__ E (lock_path E) Examples.disk_locked))
      (lock_path E) = None.
Proof.
  intros E. split; [vm_compute; reflexivity|].
  apply (release_leaves_no_marker E (lock_path E) Examples.disk_locked).
  vm_compute. reflexivity.
Defined.

(** * More about the enumeration *)

Lemma trace_for_each_pure {A B} (f : A → M B) (g : A → B) l s :
  (∀ x, result (f x s) = Ok (g x) ∧ state (f x s) = s) →
  trace (for_each f l s) = concat ((λ x, trace (f x s)) <$> l).
Proof.
  intros Hf. induction l as [|x l IH]; [done|].
  destruct (Hf x) as [Hr Hs]. destruct (for_each_pure f g l s Hf) as [Hrl _].
  rewrite for_each_cons, trace_bind, Hr, Hs, trace_bind, Hrl, IH.
  cbn [trace mret M_ret snd]. by rewrite app_nil_r.
Qed.

Lemma trace_files_of_folder folder s :
  trace (files_of_folder folder s)
  = Sys (sys_isdir folder)
    :: (if is_dir s folder then [Sys (sys_walk folder)]
        else [Log WARNING (MsgSourceMissing folder)]).
Proof.
  unfold files_of_folder. rewrite trace_bind.
  change (result (isdir folder s)) with (Ok (A:=bool) (is_dir s folder)).
  change (state (isdir folder s)) with s.
  change (trace (isdir folder s)) with [Sys (sys_isdir folder)].
  destruct (is_dir s folder); [done|].
  unfold log. by rewrite trace_bind.
Qed.

Lemma elem_of_folder_files s folder f :
  f ∈ (if is_dir s folder then omap (file_below folder) (map_to_list s) else [])
  ↔ is_dir s folder = true
    ∧ ∃ r d m, r ≠ [] ∧ f = folder ++ r ∧ s !! f = Some (File d m).
Proof.
  destruct (is_dir s folder).
  - rewrite list_elem_of_omap. split.
    + intros ([k x] & Hin & Hf). apply elem_of_map_to_list in Hin.
      unfold file_below in Hf. simpl in Hf.
      destruct (strip_prefix folder k) as [[|y r]|] eqn:Hk; [done| |done].
      destruct x as [d m|]; [|done]. injection Hf as <-.
      apply strip_prefix_Some in Hk. split; [done|]. by exists (y :: r), d, m.
    + intros (_ & r & d & m & Hr & -> & Hs). exists (folder ++ r, File d m).
      split; [by apply elem_of_map_to_list|].
      unfold file_below. simpl. rewrite strip_prefix_app. by destruct r.
  - rewrite elem_of_nil. split; [done|]. by intros [? _].
Qed.

(** X4. The enumeration never raises and changes nothing.  It yields
    exactly the regular files strictly below a configured folder that is a
    directory, and it logs the warning for exactly the configured folders
    that are not directories. *)
Theorem enumeration_skips_missing_folders (E : env) (s : fsys) :
  ∃ files : list path,
    result (_get_files_to_backup E s) = Ok files
    ∧ state (_get_files_to_backup E s) = s
    ∧ (∀ f, f ∈ files ↔
         ∃ folder r d m,
           folder ∈ Config.source_folders (cfg E) ∧ is_dir s folder = true
           ∧ r ≠ [] ∧ f = folder ++ r ∧ s !! f = Some (File d m))
    ∧ (∀ folder,
         Log WARNING (MsgSourceMissing folder) ∈ trace (_get_files_to_backup E s)
         ↔ folder ∈ Config.source_folders (cfg E) ∧ is_dir s folder = false).
Proof.
  destruct (get_files_run E s) as [Hr Hs]. eexists. split; [exact Hr|].
  split; [exact Hs|]. split.
  - intros f. rewrite list_elem_of_In, in_concat. split.
    + intros (l & Hl & Hf). apply list_elem_of_In in Hl, Hf.
      apply list_elem_of_fmap in Hl as (folder & -> & Hfolder).
      apply elem_of_folder_files in Hf as (Hd & r & d & m & ? & ? & ?).
      by exists folder, r, d, m.
    + intros (folder & r & d & m & Hfolder & Hd & Hr' & Hf & Hsf).
      exists (if is_dir s folder then omap (file_below folder) (map_to_list s) else []).
      rewrite <- !list_elem_of_In. split.
      * apply list_elem_of_fmap. by exists folder.
      * apply elem_of_folder_files. split; [done|]. by exists r, d, m.
  - intros folder. unfold _get_files_to_backup. rewrite trace_call_bind.
    rewrite trace_bind.
    destruct (for_each_pure files_of_folder _ (Config.source_folders (cfg E)) s
                (λ x, files_of_folder_run x s)) as [Hfr _].
    rewrite Hfr. cbn [trace mret M_ret snd]. rewrite app_nil_r.
    rewrite (trace_for_each_pure files_of_folder _ _ s (λ x, files_of_folder_run x s)).
    rewrite elem_of_cons, list_elem_of_In, in_concat. split.
    + intros [?|(t & Ht & Hin)]; [done|].
      apply list_elem_of_In in Ht, Hin.
      apply list_elem_of_fmap in Ht as (x & -> & Hx).
      rewrite trace_files_of_folder in Hin.
      destruct (is_dir s x) eqn:Hd.
      * rewrite !elem_of_cons, elem_of_nil in Hin. by destruct Hin as [?|[?|?]].
      * rewrite !elem_of_cons, elem_of_nil in Hin.
        destruct Hin as [?|[[= ->]|?]]; done.
    + intros [Hfolder Hd]. right. exists (trace (files_of_folder folder s)).
      rewrite <- !list_elem_of_In. split.
      * apply list_elem_of_fmap. by exists folder.
      * rewrite trace_files_of_folder, Hd. rewrite !elem_of_cons. auto.
Qed.

(** ** How often a file is enumerated *)

Lemma times_app f l1 l2 : times f (l1 ++ l2) = (times f l1 + times f l2)%nat.
Proof. unfold times. by rewrite List.filter_app, length_app. Qed.

Lemma times_NoDup f l :
  NoDup l → times f l = if bool_decide (f ∈ l) then 1%nat else 0%nat.
Proof.
  unfold times. induction 1 as [|x l Hx Hl IH].
  - by case_bool_decide as H0; [apply elem_of_nil in H0|].
  - cbn [List.filter]. destruct (bool_decide (x = f)) eqn:Hxf.
    + apply bool_decide_eq_true_1 in Hxf. subst x. cbn [length]. rewrite IH.
      rewrite (bool_decide_eq_false_2 (f ∈ l)) by done.
      by rewrite (bool_decide_eq_true_2 (f ∈ f :: l)) by apply list_elem_of_here.
    + apply bool_decide_eq_false_1 in Hxf. rewrite IH.
      apply (f_equal (λ b : bool, if b then 1%nat else 0%nat)).
      apply bool_decide_ext. rewrite elem_of_cons.
      split; [auto|]. by intros [->|?].
Qed.

Lemma NoDup_folder_files s folder :
  NoDup (if is_dir s folder then omap (file_below folder) (map_to_list s) else []).
Proof.
  destruct (is_dir s folder); [|constructor].
  apply NoDup_omap; [apply NoDup_map_to_list|].
  intros [k1 x1] [k2 x2] f H1 H2 E1 E2. unfold file_below in E1, E2. simpl in *.
  destruct (strip_prefix _ k1) as [[|??]|]; [done| |done].
  destruct (strip_prefix _ k2) as [[|??]|]; [done| |done].
  destruct x1, x2; try done. injection E1 as ->. injection E2 as ->.
  apply elem_of_map_to_list in H1, H2. congruence.
Qed.

(** X5. A regular file is enumerated once for every configured folder that
    covers it: folders that are nested or listed twice make the run take
    their files more than once. *)
Theorem file_enumerated_once_per_covering_folder
    (E : env) (s : fsys) (files : list path) (f : path) (d : data) (m : Z) :
  result (_get_files_to_backup E s) = Ok files →
  s !! f = Some (File d m) →
  times f files = length (List.filter (covers s f) (Config.source_folders (cfg E))).
Proof.
  intros Hfiles Hf. destruct (get_files_run E s) as [Hr _].
  rewrite Hr in Hfiles. injection Hfiles as <-. clear Hr.
  induction (Config.source_folders (cfg E)) as [|folder folders IH]; [done|].
  cbn [fmap list_fmap concat List.filter]. rewrite times_app, IH.
  rewrite times_NoDup by apply NoDup_folder_files.
  assert (Hcov : covers s f folder = true ↔
            f ∈ (if is_dir s folder
                 then omap (file_below folder) (map_to_list s) else [])).
  { rewrite elem_of_folder_files. unfold covers. rewrite andb_true_iff.
    split; intros [Hd Hb]; (split; [done|]).
    - destruct (strip_prefix folder f) as [[|y r]|] eqn:Hk; try done.
      apply strip_prefix_Some in Hk. by exists (y :: r), d, m.
    - destruct Hb as (r & ? & ? & Hr' & -> & _).
      rewrite strip_prefix_app. by destruct r. }
  destruct (covers s f folder).
  - rewrite bool_decide_eq_true_2; [reflexivity|]. by apply Hcov.
  - rewrite bool_decide_eq_false_2; [reflexivity|].
    intros Hin. by apply Hcov in Hin.
Qed.

Lemma file_enumerated_once_per_covering_folder_witness :
  let E := Examples.nested_folders in
  let f := ["src"; "b"; "sub"; "f2.txt"] in
  ∃ files, result (_get_files_to_backup E Examples.disk) = Ok files
           ∧ times f files = 2%nat.
Proof.
  intros E f. eexists. split; [vm_compute; reflexivity|].
  rewrite (file_enumerated_once_per_covering_folder E Examples.disk _ f
             (Bytes "world!") 6); [reflexivity|vm_compute; reflexivity|reflexivity].
Defined.

(** * The outcome of a run *)

Lemma result_on_error e s : result (on_error e s) = Ok tt.
Proof. by destruct e. Qed.

Lemma result_guarded_block E s : result (guarded_block E s) = Ok tt.
Proof.
  unfold guarded_block. rewrite result_try_except.
  destruct (result (with_ _ _ _ s)) as [[]|e]; [done|apply result_on_error].
Qed.

Lemma result_finally_block E s :
  result (finally_block E s) = result (cleanup_staging E s).
Proof.
  unfold finally_block. rewrite result_bind, result_cleanup.
  by destruct (result (cleanup_staging E s)) as [[]|e].
Qed.

Lemma result_cleanup_staging E s :
  result (cleanup_staging E s) = Ok tt
  ∨ (dry_run E = false
     ∧ result (cleanup_staging E s) = Raise (OSError (sys_rmtree (staging_dir E)))).
Proof.
  unfold cleanup_staging. rewrite result_bind.
  change (result (exists_ (staging_dir E) s))
    with (Ok (A:=bool) (bool_decide (is_Some (node_at s (staging_dir E))))).
  change (state (exists_ (staging_dir E) s)) with s.
  destruct (bool_decide _); [|by left].
  destruct (dry_run E); [by left|]. unfold log. rewrite result_emit_bind.
  unfold rmtree, sys. destruct (fault E _); [by right|].
  destruct (is_dir s (staging_dir E)); [by left|by right].
Qed.

(** X6. The block of a run that the [except] clauses guard always
    completes: every exception of locking, copying and archiving is caught
    and logged.  A run therefore ends as the removal of the staging directory
    in its cleanup ends, and the only exception that can leave [run] is the
    failure of that removal. *)
Theorem only_staging_removal_fails_a_run (E : env) (s : fsys) :
  result (guarded_block E s) = Ok tt
  ∧ result (run E s) = result (cleanup_staging E (state (guarded_block E s)))
  ∧ (result (run E s) = Ok tt
     ∨ result (run E s) = Raise (OSError (sys_rmtree (staging_dir E)))).
Proof.
  assert (Hrun : result (run E s)
                 = result (cleanup_staging E (state (guarded_block E s)))).
  { rewrite result_run, result_finally_block, result_guarded_block.
    by destruct (result (cleanup_staging E _)) as [[]|e]. }
  split; [apply result_guarded_block|]. split; [exact Hrun|].
  rewrite Hrun.
  destruct (result_cleanup_staging E (state (guarded_block E s))) as [?|[_ ?]]; auto.
Qed.

(** X7. A simulated run never raises, whatever the file system is and
    whichever operating-system calls fail. *)
Theorem simulated_run_never_raises (E : env) (s : fsys) :
  dry_run E = true → result (run E s) = Ok tt.
Proof.
  intros Hdry.
  rewrite result_run, result_finally_block, result_guarded_block.
  destruct (result_cleanup_staging E (state (guarded_block E s))) as [->|[Hd _]];
    [done|congruence].
Qed.

Lemma simulated_run_never_raises_witness :
  result (run Examples.simulated_all_fail Examples.disk) = Ok tt.
Proof. apply simulated_run_never_raises. reflexivity. Defined.

(** * A run that finds nothing to back up *)

Lemma no_work_reset_staging E : emits (λ e, ¬ backup_work e) (reset_staging E).
Proof.
  unfold reset_staging, rmtree, makedirs.
  repeat emits_step; by intros [].
Qed.

Lemma no_work_get_files E : emits (λ e, ¬ backup_work e) (_get_files_to_backup E).
Proof.
  unfold _get_files_to_backup, files_of_folder.
  repeat emits_step; by intros [].
Qed.

(** X8. When the enumeration finds no file, the locked block of a run
    resets the staging directory, logs the warning and returns: it leaves the
    file system (the log file apart, whose records are in the trace) as the
    reset left it, starts no copy and writes no archive. *)
Theorem empty_enumeration_skips_copy_and_archive (E : env) (s : fsys) :
  result (reset_staging E s) = Ok tt →
  result (_get_files_to_backup E (state (reset_staging E s))) = Ok [] →
  result (locked_body E s) = Ok tt
  ∧ state (locked_body E s) = state (reset_staging E s)
  ∧ last (trace (locked_body E s)) = Some (Log WARNING MsgNoFiles)
  ∧ Forall (λ e, ¬ backup_work e) (trace (locked_body E s)).
Proof.
  intros Hreset Hfiles.
  destruct (get_files_run E (state (reset_staging E s))) as [_ Hst].
  unfold locked_body.
  rewrite result_bind, state_bind, trace_bind, Hreset.
  rewrite result_bind, state_bind, trace_bind, Hfiles, Hst.
  split_and!; [done|done| |].
  - change (trace (log WARNING MsgNoFiles (state (reset_staging E s))))
      with [Log WARNING MsgNoFiles].
    by rewrite app_assoc, last_snoc.
  - rewrite !Forall_app. split_and!.
    + apply no_work_reset_staging.
    + apply no_work_get_files.
    + repeat constructor. by intros [].
Qed.

Lemma empty_enumeration_skips_copy_and_archive_witness :
  let E := Examples.missing_sources in
  state (locked_body E Examples.disk) = state (reset_staging E Examples.disk)
  ∧ last (trace (locked_body E Examples.disk)) = Some (Log WARNING MsgNoFiles).
Proof.
  intros E.
  destruct (empty_enumeration_skips_copy_and_archive E Examples.disk)
    as (_ & Hs & Hl & _); [vm_compute; reflexivity|vm_compute; reflexivity|].
  by split.
Defined.

(** * What the program leaves alone

    Log records are events of the trace: the file that the logging handler
    appends to is not part of the file-system state.  The statements about
    what stays unchanged are about the file system without that file. *)

Lemma changes_only_mono {A} (P Q : path → Prop) (m : M A) :
  (∀ q, P q → Q q) → changes_only P m → changes_only Q m.
Proof. intros HPQ Hm s q Hq. apply Hm. auto. Qed.

Lemma changes_only_pure {A} (P : path → Prop) (m : M A) :
  (∀ s, state (m s) = s) → changes_only P m.
Proof. intros Hm s q _. by rewrite Hm. Qed.

Lemma changes_only_bind {A B} (P : path → Prop) (m : M A) (k : A → M B) :
  changes_only P m → (∀ a, changes_only P (k a)) → changes_only P (m ≫= k).
Proof.
  intros Hm Hk s q Hq. rewrite state_bind.
  destruct (result (m s)) as [a|e]; [|by apply Hm].
  rewrite Hk by done. by apply Hm.
Qed.

Lemma changes_only_try_except {A} (P : path → Prop) (m : M A) h :
  changes_only P m → (∀ e, changes_only P (h e)) → changes_only P (try_except m h).
Proof.
  intros Hm Hh s q Hq. rewrite state_try_except.
  destruct (result (m s)) as [a|e]; [by apply Hm|].
  rewrite Hh by done. by apply Hm.
Qed.

Lemma changes_only_try_finally {A} (P : path → Prop) (m : M A) f :
  changes_only P m → changes_only P f → changes_only P (try_finally m f).
Proof.
  intros Hm Hf s q Hq. rewrite state_try_finally, Hf by done. by apply Hm.
Qed.

Lemma changes_only_for_each {A B} (P : path → Prop) (f : A → M B) l :
  (∀ x, x ∈ l → changes_only P (f x)) → changes_only P (for_each f l).
Proof.
  induction l as [|x l IH]; intros Hf; [by apply changes_only_pure|].
  rewrite for_each_cons. apply changes_only_bind.
  - apply Hf, list_elem_of_here.
  - intros y. apply changes_only_bind.
    + apply IH. intros z Hz. by apply Hf, list_elem_of_further.
    + intros ys. by apply changes_only_pure.
Qed.

Lemma changes_only_sys (E : env) {A} (P : path → Prop) (c : syscall)
    (body : fsys → res A * fsys) :
  (∀ s q, ¬ P q → (body s).2 !! q = s !! q) → changes_only P (sys E c body).
Proof.
  intros Hb s q Hq. rewrite sys_state. destruct (fault E c); [done|by apply Hb].
Qed.

(** ** The operating-system calls *)

Lemma lookup_rmtree (p : path) (s : fsys) (q : path) :
  ¬ p `prefix_of` q →
  filter (λ kv : path * node, strip_prefix p kv.1 = None) s !! q = s !! q.
Proof.
  intros Hq. assert (Hn : strip_prefix p q = None).
  { destruct (strip_prefix p q) as [r|] eqn:Hr; [|done].
    apply strip_prefix_Some in Hr. destruct Hq. by exists r. }
  destruct (s !! q) as [x|] eqn:Hx.
  - by apply map_lookup_filter_Some.
  - apply map_lookup_filter_None. by left.
Qed.

Lemma changes_only_rmtree (E : env) (p : path) : changes_only (λ q, p `prefix_of` q) (rmtree E p).
Proof.
  apply changes_only_sys. intros s q Hq. destruct (is_dir s p); [|done].
  by apply lookup_rmtree.
Qed.

Lemma changes_only_makedirs (E : env) (p : path) : changes_only (λ q, q `prefix_of` p) (makedirs E p).
Proof.
  apply changes_only_sys. intros s q Hq. destruct (existsb _ _); [done|].
  apply mkdirs_lookup_notin. by intros [_ ?]%elem_of_prefixes_iff.
Qed.

Lemma changes_only_remove (E : env) (p : path) : changes_only (λ q, q = p) (remove E p).
Proof.
  apply changes_only_sys. intros s q Hq. destruct (is_file s p); [|done].
  by apply lookup_delete_ne.
Qed.

Lemma lookup_create (E : env) (c : syscall) (p : path) (d : data) (s : fsys) (q : path) : q ≠ p → (create E c p d s).2 !! q = s !! q.
Proof.
  intros Hq. unfold create. destruct (_ && _); [|done].
  by apply lookup_insert_ne.
Qed.

Lemma changes_only_zip_open (E : env) (out : path) : changes_only (λ q, q = out) (zip_open E out).
Proof. apply changes_only_sys. intros s q Hq. by apply lookup_create. Qed.

Lemma changes_only_zip_write (E : env) (out file arcname : path) :
  changes_only (λ q, q = out) (zip_write E out file arcname).
Proof.
  apply changes_only_sys. intros s q Hq.
  destruct (node_at s file) as [[d m|]|]; [|done|done].
  destruct (node_at s out) as [[[|es] m'|]|]; try done.
  by apply lookup_insert_ne.
Qed.

Lemma changes_only_copy2 (E : env) (src dst : path) :
  changes_only (λ q, q = dst ∨ q = dst ++ [basename src]) (copy2 E src dst).
Proof.
  apply changes_only_sys. intros s q Hq.
  destruct (node_at s src) as [[d m|]|]; [|done|done]. cbv zeta.
  case_bool_decide; [done|]. destruct (_ && _); [|done].
  apply lookup_insert_ne. intros <-. apply Hq.
  destruct (is_dir s dst); auto.
Qed.

Lemma changes_only_getsize (E : env) (P : path → Prop) (p : path) : changes_only P (getsize E p).
Proof. apply changes_only_pure. intros s. apply getsize_state. Qed.

(** ** The lock *)

Lemma changes_only_enter (E : env) (p : path) : changes_only (λ q, q = p) (LockFile.__enter__ E p).
Proof.
  intros s q Hq. rewrite enter_eq.
  destruct (bool_decide _); [done|]. destruct (fault E (sys_open_w p)); [done|].
  destruct (_ && _); [|done].
  destruct (fault E (sys_write p)); by apply lookup_insert_ne.
Qed.

Lemma changes_only_exit (E : env) (p : path) : changes_only (λ q, q = p) (LockFile.__exit__ E p).
Proof.
  intros s q Hq. rewrite exit_eq.
  destruct (bool_decide _); [|done]. destruct (fault E _); [done|].
  destruct (is_file s p); [|done]. by apply lookup_delete_ne.
Qed.

(** ** Archiving *)

Lemma changes_only_zip_staging_folder (E : env) (out : path) :
  changes_only (λ q, dry_run E = false ∧ q = out) (_zip_staging_folder E out).
Proof.
  unfold _zip_staging_folder.
  apply changes_only_bind; [by apply changes_only_pure|intros _].
  destruct (dry_run E); [by apply changes_only_pure|].
  apply changes_only_bind; [by apply changes_only_pure|intros _].
  apply changes_only_bind; [by apply changes_only_pure|intros files].
  apply (changes_only_mono (λ q, q = out)); [by intros q ->|].
  apply changes_only_bind; [apply changes_only_zip_open|intros _].
  apply changes_only_bind; [|intros _; by apply changes_only_pure].
  apply changes_only_for_each. intros f _. apply changes_only_zip_write.
Qed.

(** X9. Writing the archive changes the file system (the log file
    apart) at the output path and nowhere else, whether it completes or fails
    on the way. *)
Theorem archiving_writes_only_the_bundle (E : env) (out : path) (s : fsys) (q : path) :
  q ≠ out → state (_zip_staging_folder E out s) !! q = s !! q.
Proof.
  intros Hq. apply changes_only_zip_staging_folder. by intros [_ ?].
Qed.

Lemma archiving_writes_only_the_bundle_witness :
  let E := Examples.archive_fails in
  let out := ["backup"; "nightly_20240102_030405.zip"] in
  state (_zip_staging_folder E out Examples.disk) !! ["stage"; "old.tmp"]
  = Examples.disk !! ["stage"; "old.tmp"].
Proof. intros E out. by apply archiving_writes_only_the_bundle. Defined.

(** ** The cleanup phase *)

Lemma changes_only_cleanup_staging E :
  changes_only (λ q, staging_dir E `prefix_of` q) (cleanup_staging E).
Proof.
  unfold cleanup_staging.
  apply changes_only_bind; [by apply changes_only_pure|intros present].
  destruct present; [|by apply changes_only_pure].
  destruct (dry_run E); [by apply changes_only_pure|].
  apply changes_only_bind; [by apply changes_only_pure|intros _].
  apply changes_only_rmtree.
Qed.

Lemma state_listdir E d s : state (listdir E d s) = s.
Proof.
  unfold listdir. rewrite sys_state. destruct (fault E _); [done|].
  by destruct (is_dir s d).
Qed.

Lemma state_with_mtime E d n s : state (with_mtime E d n s) = s.
Proof.
  unfold with_mtime, getmtime. rewrite state_bind, sys_state.
  assert (Hs : (if fault E (sys_getmtime (join d [n])) then s
                else (match node_at s (join d [n]) with
                      | Some x => (Ok (node_mtime x), s)
                      | None => (Raise (OSError (sys_getmtime (join d [n]))), s)
                      end).2) = s).
  { destruct (fault E _); [done|]. by destruct (node_at s _). }
  rewrite Hs. by destruct (result _).
Qed.

Lemma state_for_each_with_mtime E d names s :
  state (for_each (with_mtime E d) names s) = s.
Proof.
  induction names as [|n names IH]; [done|].
  rewrite for_each_cons, state_bind, state_with_mtime.
  destruct (result (with_mtime E d n s)); [|done].
  rewrite state_bind, IH. by destruct (result (for_each _ _ _)).
Qed.

Lemma state_list_backups E d s : state (list_backups E d s) = s.
Proof.
  unfold list_backups. rewrite state_bind, state_listdir.
  destruct (result (listdir E d s)); [|done].
  rewrite state_bind, state_for_each_with_mtime.
  by destruct (result (for_each _ _ _)).
Qed.

Lemma with_mtime_names E d names s keyed :
  result (for_each (with_mtime E d) names s) = Ok keyed → fst <$> keyed = names.
Proof.
  revert keyed. induction names as [|n names IH]; intros keyed.
  - by intros [= <-].
  - rewrite for_each_cons, result_bind, state_with_mtime.
    unfold with_mtime at 1. rewrite result_bind.
    destruct (result (getmtime E (join d [n]) s)) as [t|]; [|done].
    cbn [result mret M_ret fst snd].
    rewrite result_bind.
    destruct (result (for_each (with_mtime E d) names s)) as [ks|]; [|done].
    cbn [result mret M_ret fst snd]. intros [= <-].
    cbn [fmap list_fmap fst]. f_equal. by apply IH.
Qed.

Lemma list_backups_names E s backups n :
  result (list_backups E (Config.destination (cfg E)) s) = Ok backups →
  n ∈ backups → n ∈ bundles E s.
Proof.
  unfold list_backups. intros Hr Hn.
  apply result_bind_Ok in Hr as (names & Hnames & Hr & _).
  rewrite state_listdir in Hr.
  apply sys_Ok in Hnames as (_ & Hnames & _).
  destruct (is_dir s (Config.destination (cfg E))); [|done].
  injection Hnames as <-.
  apply result_bind_Ok in Hr as (keyed & Hkeyed & Hr & _).
  apply with_mtime_names in Hkeyed.
  injection Hr as <-.
  unfold bundles. rewrite <- Hkeyed.
  by rewrite (sorted_perm snd keyed) in Hn.
Qed.

Lemma endswith_zip_ordinary n : endswith n ".zip" = true → special n = false.
Proof.
  intros Hn. unfold special.
  destruct (String.eqb_spec n ".") as [->|_]; [done|].
  by destruct (String.eqb_spec n "..") as [->|_].
Qed.

Lemma state_prune_old_backups E s :
  ∃ names,
    (∀ n, n ∈ names → n ∈ bundles E s)
    ∧ state (prune_old_backups E s)
      = state (for_each (delete_backup E (Config.destination (cfg E))) names s).
Proof.
  unfold prune_old_backups. rewrite state_bind, state_list_backups.
  destruct (result (list_backups E _ s)) as [backups|] eqn:Hb.
  - cbv zeta. exists (slice_to backups (- Config.retention (cfg E))). split.
    + intros n Hn. apply (list_backups_names E s backups n Hb).
      unfold slice_to in Hn. rewrite <- (take_drop (Z.to_nat
        (if - Config.retention (cfg E) <? 0
         then Z.max 0 (- Config.retention (cfg E) + Z.of_nat (length backups))
         else Z.min (- Config.retention (cfg E)) (Z.of_nat (length backups)))) backups).
      apply elem_of_app. by left.
    + rewrite state_bind. by destruct (result (for_each _ _ _)).
  - exists []. split; [by intros n ?%elem_of_nil|done].
Qed.

Lemma changes_only_prune E :
  changes_only (λ q, dry_run E = false ∧ bundle_path E q) (prune_old_backups E).
Proof.
  intros s q Hq. destruct (state_prune_old_backups E s) as (names & Hnames & ->).
  assert (Hall : ∀ n, n ∈ names →
            changes_only (λ q, dry_run E = false ∧ bundle_path E q)
              (delete_backup E (Config.destination (cfg E)) n)).
  { intros n Hn. apply Hnames, elem_of_bundles in Hn as (_ & Hsp & Hb).
    unfold delete_backup.
    destruct (dry_run E); [by apply changes_only_pure|].
    apply changes_only_bind; [by apply changes_only_pure|intros _].
    rewrite join_ordinary by done.
    eapply changes_only_mono; [|apply changes_only_remove].
    intros q' ->. split; [done|]. by exists n. }
  by apply (changes_only_for_each _ _ names Hall).
Qed.

Lemma changes_only_cleanup E :
  changes_only
    (λ q, dry_run E = false ∧ (staging_dir E `prefix_of` q ∨ bundle_path E q))
    (_cleanup E).
Proof.
  unfold _cleanup.
  apply changes_only_bind; [by apply changes_only_pure|intros _].
  apply changes_only_bind.
  { intros s q Hq. destruct (dry_run E) eqn:Hdry.
    - unfold cleanup_staging. rewrite state_bind. cbn [result exists_ fst snd].
      rewrite Hdry. by destruct (bool_decide _).
    - apply changes_only_cleanup_staging. intros Hp. apply Hq. auto. }
  intros _. apply changes_only_bind; [by apply changes_only_pure|intros _].
  apply changes_only_try_except; [|intros e; by apply changes_only_pure].
  eapply changes_only_mono; [|apply changes_only_prune].
  intros q [? ?]. auto.
Qed.

Lemma state_finally_block E s : state (finally_block E s) = state (_cleanup E s).
Proof.
  unfold finally_block. rewrite state_bind.
  by destruct (result (_cleanup E s)).
Qed.

(** X10. The cleanup phase changes the file system (the log file
    apart) only below the staging directory and at entries of the destination whose names are those
    of bundles (the prefix first, [.zip] last): whatever fails, it touches
    neither a source file, nor the lock marker, nor any other entry of the
    destination. *)
Theorem cleanup_touches_only_staging_and_bundles (E : env) (s : fsys) (q : path) :
  ¬ staging_dir E `prefix_of` q →
  ¬ bundle_path E q →
  state (_cleanup E s) !! q = s !! q.
Proof.
  intros Hst Hb. apply changes_only_cleanup. intros [_ [?|?]]; done.
Qed.

Lemma cleanup_touches_only_staging_and_bundles_witness :
  let E := Examples.listing_fails in
  state (_cleanup E Examples.disk_locked) !! ["backup"; ".backup.lock"]
  = Examples.disk_locked !! ["backup"; ".backup.lock"].
Proof.
  intros E. apply cleanup_touches_only_staging_and_bundles.
  - intros [k Hk]. discriminate Hk.
  - intros (n & Hn & Hq). injection Hq as <-. vm_compute in Hn. discriminate Hn.
Defined.

(** X11. A simulated cleanup changes nothing in the file system (the log
    file apart) and returns, whatever the file system is and whichever calls
    fail. *)
Theorem simulated_cleanup_changes_nothing (E : env) (s : fsys) :
  dry_run E = true → result (_cleanup E s) = Ok tt ∧ state (_cleanup E s) = s.
Proof.
  intros Hdry. split.
  - rewrite result_cleanup.
    destruct (result_cleanup_staging E s) as [?|[? _]]; [done|congruence].
  - apply map_eq. intros q. apply changes_only_cleanup. intros [? _]. congruence.
Qed.

Lemma simulated_cleanup_changes_nothing_witness :
  state (_cleanup Examples.simulated_run Examples.disk) = Examples.disk.
Proof. by apply simulated_cleanup_changes_nothing. Defined.

(** ** The locked block and the run *)

Lemma changes_only_reset_staging E :
  changes_only (on_staging_path E) (reset_staging E).
Proof.
  unfold reset_staging.
  apply changes_only_bind; [by apply changes_only_pure|intros stale].
  apply changes_only_bind.
  - destruct stale; [|by apply changes_only_pure].
    eapply changes_only_mono; [|apply changes_only_rmtree]. intros q Hq. by right.
  - intros _. eapply changes_only_mono; [|apply changes_only_makedirs].
    intros q Hq. by left.
Qed.

Lemma changes_only_copy_worker E c rel :
  commonpath (Config.source_folders (cfg E)) = Some c →
  rel ≠ [] → existsb special rel = false →
  changes_only (on_staging_path E) (_copy_worker E (c ++ rel)).
Proof.
  intros Hc Hrel Hclean s q Hq. rewrite state_copy_worker_attempt.
  unfold copy_attempt. rewrite state_bind, getsize_state.
  destruct (result (getsize E _ s)) as [size|]; [|done].
  rewrite Hc, state_bind. cbn [result state mret M_ret fst snd]. cbv zeta.
  rewrite relpath_below, join_ordinary_path by done.
  assert (Hrest : changes_only (on_staging_path E)
     (makedirs E (dirname (staging_dir E ++ rel));;
      (if negb (dry_run E)
       then copy2 E (c ++ rel) (staging_dir E ++ rel) else mret tt);;
      mret (true, size, c ++ rel))).
  { apply changes_only_bind.
    - eapply changes_only_mono; [|apply changes_only_makedirs].
      intros q' Hq'.
      assert (Hpre : q' `prefix_of` staging_dir E ++ rel).
      { etrans; [exact Hq'|]. unfold dirname. apply prefix_take. }
      destruct (prefix_weak_total q' (staging_dir E) (staging_dir E ++ rel));
        [done|by apply prefix_app_r|by left|by right].
    - intros _. apply changes_only_bind; [|intros _; by apply changes_only_pure].
      destruct (negb (dry_run E)); [|by apply changes_only_pure].
      eapply changes_only_mono; [|apply changes_only_copy2].
      intros q' [-> | ->]; right.
      + by apply prefix_app_r.
      + rewrite <- app_assoc. by apply prefix_app_r. }
  by apply Hrest.
Qed.

Lemma changes_only_copy_files E c files total :
  commonpath (Config.source_folders (cfg E)) = Some c →
  (∀ f, f ∈ files → ∃ rel, f = c ++ rel ∧ rel ≠ [] ∧ existsb special rel = false) →
  changes_only (on_staging_path E) (_copy_files_to_staging_parallel E files total).
Proof.
  intros Hc Hgood. unfold _copy_files_to_staging_parallel.
  apply changes_only_bind; [by apply changes_only_pure|intros _].
  apply changes_only_bind; [by apply changes_only_pure|intros _].
  apply changes_only_bind.
  { destruct (dry_run E); by apply changes_only_pure. }
  intros _. apply changes_only_bind; [|intros rs; by apply changes_only_pure].
  unfold pool_results. destruct (_ <=? _); [by apply changes_only_pure|].
  apply changes_only_for_each. intros f Hf.
  destruct (Hgood f Hf) as (rel & -> & Hrel & Hclean).
  by apply changes_only_copy_worker.
Qed.

Lemma backup_filename_ordinary E : special (backup_filename E) = false.
Proof.
  apply endswith_zip_ordinary.
  pose proof (backup_filename_is_backup E) as Hb. unfold is_backup in Hb.
  by apply andb_true_iff in Hb as [_ ?].
Qed.

Lemma locked_body_frame E s q :
  clean_names s →
  ¬ on_staging_path E q →
  (dry_run E = false → q ≠ Config.destination (cfg E) ++ [backup_filename E]) →
  state (locked_body E s) !! q = s !! q.
Proof.
  intros Hclean Hq Hout.
  pose proof (changes_only_reset_staging E s q Hq) as Hreset.
  unfold locked_body. rewrite state_bind.
  destruct (result (reset_staging E s)) as [[]|] eqn:Hr; [|done].
  destruct (get_files_run E (state (reset_staging E s))) as [Hf0 Hs1].
  rewrite state_bind, Hs1.
  destruct (result (_get_files_to_backup E (state (reset_staging E s))))
    as [[|f files]|] eqn:Hf; [done| |done].
  rewrite state_bind, state_for_each_getsize.
  destruct (result (for_each (getsize E) _ _)) as [sizes|]; [|done]. cbv zeta.
  rewrite join_ordinary by apply backup_filename_ordinary.
  rewrite <- Hreset.
  destruct (commonpath (Config.source_folders (cfg E))) as [c|] eqn:Hc.
  2: { unfold commonpath in Hc.
       destruct (Config.source_folders (cfg E)); [|done].
       rewrite Hf0 in Hf. done. }
  apply (changes_only_bind
           (λ q, on_staging_path E q
                 ∨ (dry_run E = false
                    ∧ q = Config.destination (cfg E) ++ [backup_filename E]))).
  - eapply changes_only_mono; [|apply (changes_only_copy_files E c)]; [by left|done|].
    intros g Hg.
    destruct (enumerated_below_common_ancestor E _ c _ g Hc Hf Hg)
      as (rel & d & m & Hrel & -> & Hs).
    exists rel. split_and!; [done|done|].
    apply reset_staging_files in Hs; [|done].
    assert (Hk : existsb special (c ++ rel) = false) by (apply Hclean; eauto).
    rewrite existsb_app in Hk. by apply orb_false_elim in Hk as [_ ?].
  - intros _. eapply changes_only_mono; [|apply changes_only_zip_staging_folder].
    intros q'. by right.
  - intros [?|[Hdry ?]]; [done|by apply Hout].
Qed.

Lemma lock_path_eq E : lock_path E = Config.destination (cfg E) ++ [".backup.lock"].
Proof. unfold lock_path. by rewrite join_ordinary. Qed.

Lemma clean_after_enter E s :
  clean_names s →
  result (LockFile.__enter__ E (lock_path E) s) = Ok tt →
  clean_names (state (LockFile.__enter__ E (lock_path E) s)).
Proof.
  intros Hclean (Hnone & Hne & Hd & _ & Hst)%enter_Ok_inv. rewrite Hst.
  unfold state. cbn [fst snd].
  intros k [x Hk]. destruct (decide (k = lock_path E)) as [->|Hne'].
  - rewrite lock_path_eq in Hd |- *. rewrite dirname_app_snoc in Hd.
    rewrite existsb_app. apply orb_false_intro; [|done].
    apply is_dir_lookup in Hd as [->|[m Hm]]; [done|]. apply Hclean; eauto.
  - rewrite lookup_insert_ne in Hk by done. apply Hclean; eauto.
Qed.

Lemma state_guarded_block E s :
  state (guarded_block E s)
  = state (with_ (LockFile.__enter__ E (lock_path E)) (LockFile.__exit__ E (lock_path E))
                 (locked_body E) s).
Proof.
  unfold guarded_block. rewrite state_try_except.
  destruct (result _) as [|e]; [done|]. by destruct e.
Qed.

Lemma guarded_block_frame E s q :
  clean_names s →
  ¬ on_staging_path E q →
  q ≠ lock_path E →
  (dry_run E = false → q ≠ Config.destination (cfg E) ++ [backup_filename E]) →
  state (guarded_block E s) !! q = s !! q.
Proof.
  intros Hclean Hq Hlock Hout. rewrite state_guarded_block.
  unfold with_. rewrite state_bind.
  pose proof (changes_only_enter E (lock_path E) s q Hlock) as Henter.
  destruct (result (LockFile.__enter__ E (lock_path E) s)) as [[]|] eqn:Hr; [|done].
  rewrite state_try_finally.
  rewrite (changes_only_exit E (lock_path E)) by done.
  rewrite locked_body_frame; [done|by apply clean_after_enter|done|done].
Qed.

Lemma run_frame E s q :
  clean_names s →
  ¬ on_staging_path E q →
  q ≠ lock_path E →
  (dry_run E = false → ¬ bundle_path E q) →
  state (run E s) !! q = s !! q.
Proof.
  intros Hclean Hq Hlock Hb. rewrite state_run, state_finally_block.
  rewrite changes_only_cleanup.
  - apply guarded_block_frame; try done. intros Hdry ->. apply (Hb Hdry).
    exists (backup_filename E). split; [apply backup_filename_is_backup|done].
  - intros [Hdry [Hp|Hbp]]; [apply Hq; by right|by apply Hb].
Qed.

(** X12. On a file system with clean names, a run changes nothing (the
    log file apart) outside the staging path (the staging directory, what is below it and the
    directories on the way to it), the lock marker and the entries of the
    destination that carry the name of a bundle, whatever fails on the way:
    in particular it never alters a source file that lies elsewhere. *)
Theorem run_changes_only_its_own_files (E : env) (s : fsys) (q : path) :
  has_clean_names s = true →
  ¬ on_staging_path E q →
  q ≠ lock_path E →
  ¬ bundle_path E q →
  state (run E s) !! q = s !! q.
Proof.
  intros Hclean%has_clean_names_sound Hq Hlock Hb. by apply run_frame.
Qed.

Lemma run_changes_only_its_own_files_witness :
  let E := Examples.copy_fails in
  state (run E Examples.disk) !! ["src"; "a"; "f1.txt"]
  = Some (File (Bytes "hello") 5).
Proof.
  intros E. rewrite (run_changes_only_its_own_files E Examples.disk).
  - reflexivity.
  - vm_compute. reflexivity.
  - intros [[k Hk]|[k Hk]]; discriminate Hk.
  - discriminate.
  - intros (n & _ & Hn). discriminate Hn.
Defined.

(** X13. A simulated run, on a file system with clean names, changes
    nothing (the log file apart) outside the staging path and the lock marker: it writes no bundle
    and deletes no old backup. *)
Theorem simulated_run_leaves_destination_alone (E : env) (s : fsys) (q : path) :
  dry_run E = true →
  has_clean_names s = true →
  ¬ on_staging_path E q →
  q ≠ lock_path E →
  state (run E s) !! q = s !! q.
Proof.
  intros Hdry Hclean%has_clean_names_sound Hq Hlock. apply run_frame; try done.
  congruence.
Qed.

Lemma simulated_run_leaves_destination_alone_witness :
  let E := Examples.simulated_run in
  let q := ["backup"; "nightly_20231231_000000.zip"] in
  state (run E Examples.disk) !! q = Some (File (Zip []) 40)
  ∧ state (run E Examples.disk) !! ["backup"; "nightly_20240102_030405.zip"] = None.
Proof.
  intros E q. split.
  - rewrite (simulated_run_leaves_destination_alone E Examples.disk).
    + reflexivity.
    + reflexivity.
    + vm_compute. reflexivity.
    + intros [[k Hk]|[k Hk]]; discriminate Hk.
    + discriminate.
  - rewrite (simulated_run_leaves_destination_alone E Examples.disk).
    + reflexivity.
    + reflexivity.
    + vm_compute. reflexivity.
    + intros [[k Hk]|[k Hk]]; discriminate Hk.
    + discriminate.
Defined.

(** X14. A run that starts without a lock marker ends without one, when
    the marker does not lie on the staging path and neither the writing of
    the process identifier into the marker nor the removal of the marker is
    made to fail: whatever else fails, no stale lock is left to block the
    next run. *)
Theorem run_leaves_no_stale_lock (E : env) (s : fsys) :
  has_clean_names s = true →
  node_at s (lock_path E) = None →
  ¬ on_staging_path E (lock_path E) →
  fault E (sys_write (lock_path E)) = false →
  fault E (sys_remove (lock_path E)) = false →
  state (run E s) !! lock_path E = None.
Proof.
  intros Hclean%has_clean_names_sound Hnone Hq Hwrite Hfault.
  assert (Hlk : ∀ s', node_at s' (lock_path E) = s' !! lock_path E).
  { intros s'. rewrite lock_path_eq. apply node_at_snoc. }
  assert (Hnb : ∀ n, is_backup E n = true → ".backup.lock" ≠ n).
  { intros n Hn <-. unfold is_backup in Hn.
    apply andb_true_iff in Hn as [_ Hn]. discriminate Hn. }
  rewrite state_run, state_finally_block, changes_only_cleanup.
  2: { intros [_ [Hp|(n & Hn & Heq)]]; [apply Hq; by right|].
       rewrite lock_path_eq in Heq. apply app_inj_tail in Heq as [_ Heq].
       by apply (Hnb n). }
  rewrite state_guarded_block. unfold with_. rewrite state_bind.
  destruct (result (LockFile.__enter__ E (lock_path E) s)) as [[]|e] eqn:Hr.
  - rewrite state_try_finally.
    pose proof (clean_after_enter E s Hclean Hr) as Hclean'.
    apply enter_Ok_inv in Hr as (_ & _ & _ & _ & Hst).
    set (sb := state (locked_body E (state (LockFile.__enter__ E (lock_path E) s)))).
    assert (Hsb : sb !! lock_path E
                  = Some (File (Bytes (pretty (pid E))) (now E))).
    { unfold sb. rewrite locked_body_frame; [|done|done|].
      - rewrite Hst. unfold state. cbn [fst snd]. apply lookup_insert_eq.
      - intros _. rewrite lock_path_eq. intros Heq%app_inj_tail.
        destruct Heq as [_ Heq].
        by apply (Hnb (backup_filename E) (backup_filename_is_backup E)). }
    rewrite exit_eq, Hfault. unfold is_file. rewrite Hlk, Hsb.
    rewrite bool_decide_eq_true_2 by eauto.
    unfold state. cbn [fst snd]. apply lookup_delete_eq.
  - assert (Hst : state (LockFile.__enter__ E (lock_path E) s) = s).
    { rewrite enter_eq in Hr |- *.
      destruct (bool_decide _); [reflexivity|].
      destruct (fault E (sys_open_w _)); [reflexivity|].
      destruct (_ && _); [|reflexivity].
      rewrite Hwrite in Hr. discriminate Hr. }
    by rewrite Hst, <- Hlk.
Qed.

Lemma run_leaves_no_stale_lock_witness :
  state (run Examples.archive_fails Examples.disk) !! ["backup"; ".backup.lock"] = None.
Proof.
  apply (run_leaves_no_stale_lock Examples.archive_fails Examples.disk).
  - vm_compute. reflexivity.
  - reflexivity.
  - intros [[k Hk]|[k Hk]]; discriminate Hk.
  - reflexivity.
  - reflexivity.
Defined.

(** * The staging directory after the cleanup *)

Lemma state_delete_backup_absent (E : env) (d : path) (n : string) (s : fsys) (q : path) :
  s !! q = None → state (delete_backup E d n s) !! q = None.
Proof.
  intros Hq. unfold delete_backup. destruct (dry_run E); [done|].
  unfold log. rewrite state_emit_bind. unfold remove. rewrite sys_state.
  destruct (fault E _); [done|]. destruct (is_file s _); [|done].
  apply lookup_delete_None. by right.
Qed.

Lemma state_for_each_delete_absent (E : env) (d : path) (names : list string) (s : fsys) (q : path) :
  s !! q = None → state (for_each (delete_backup E d) names s) !! q = None.
Proof.
  revert s. induction names as [|n names IH]; intros s Hq; [done|].
  rewrite for_each_cons, state_bind.
  pose proof (state_delete_backup_absent E d n s q Hq) as H1.
  destruct (result (delete_backup E d n s)); [|done].
  rewrite state_bind. specialize (IH _ H1).
  by destruct (result (for_each _ _ _)).
Qed.

Lemma state_cleanup E s :
  result (cleanup_staging E s) = Ok tt →
  state (_cleanup E s) = state (prune_old_backups E (state (cleanup_staging E s))).
Proof.
  intros Hr. unfold _cleanup, call, log.
  rewrite state_emit_bind, state_bind, Hr.
  rewrite state_emit_bind, state_try_except.
  by destruct (result (prune_old_backups E _)).
Qed.

(** X15. After a cleanup that is not simulated and returns, on a file
    system that is a tree, nothing is left at the staging path or below it:
    a later run finds no stale staging content. *)
Theorem cleanup_removes_the_staging_tree (E : env) (s : fsys) (q : path) :
  dry_run E = false →
  is_tree s = true →
  result (_cleanup E s) = Ok tt →
  staging_dir E `prefix_of` q →
  state (_cleanup E s) !! q = None.
Proof.
  intros Hdry Htree%is_tree_sound Hr [r ->]. rewrite result_cleanup in Hr.
  rewrite state_cleanup by done.
  destruct (state_prune_old_backups E (state (cleanup_staging E s)))
    as (names & _ & ->).
  apply state_for_each_delete_absent.
  revert Hr. unfold cleanup_staging. rewrite result_bind, state_bind.
  change (result (exists_ (staging_dir E) s))
    with (Ok (A:=bool) (bool_decide (is_Some (node_at s (staging_dir E))))).
  change (state (exists_ (staging_dir E) s)) with s.
  rewrite Hdry. case_bool_decide as Hex.
  - unfold log. rewrite result_emit_bind, state_emit_bind. unfold rmtree.
    intros Hrm. apply sys_Ok in Hrm as (_ & Hbody & Hst). rewrite Hst.
    destruct (is_dir s (staging_dir E)); [|done].
    apply map_lookup_filter_None. right. intros x _.
    cbn [fst]. by rewrite strip_prefix_app.
  - intros _. unfold state. cbn [mret M_ret fst snd].
    destruct (s !! (staging_dir E ++ r)) as [x|] eqn:Hx; [|done].
    exfalso. apply Hex. destruct r as [|y r].
    + rewrite app_nil_r in Hx. unfold node_at. destruct (staging_dir E); eauto.
    + assert (Hd : is_dir s (staging_dir E) = true).
      { apply (Htree _ (y :: r)); [done|eauto]. }
      unfold is_dir in Hd. destruct (node_at s (staging_dir E)); [eauto|done].
Qed.

Lemma cleanup_removes_the_staging_tree_witness :
  state (_cleanup Examples.real_run Examples.disk) !! ["stage"; "old.tmp"] = None.
Proof.
  apply cleanup_removes_the_staging_tree.
  - reflexivity.
  - vm_compute. reflexivity.
  - vm_compute. reflexivity.
  - by exists ["old.tmp"].
Defined.

(** * What aborts a backup before anything is copied *)

Lemma for_each_getsize_fails (E : env) (files : list path) (s : fsys) (f : path) :
  f ∈ files → fault E (sys_getsize f) = true →
  ∃ g, g ∈ files
       ∧ result (for_each (getsize E) files s) = Raise (OSError (sys_getsize g)).
Proof.
  induction files as [|x files IH]; intros Hf Hfault; [by apply elem_of_nil in Hf|].
  rewrite for_each_cons, result_bind, getsize_state.
  destruct (result (getsize E x s)) as [size|e] eqn:Hx.
  - assert (f ∈ files) as Hin.
    { apply elem_of_cons in Hf as [->|?]; [|done].
      unfold getsize, sys in Hx. by rewrite Hfault in Hx. }
    destruct (IH Hin Hfault) as (g & Hg & Hr). exists g.
    split; [by apply list_elem_of_further|]. by rewrite result_bind, Hr.
  - exists x. split; [apply list_elem_of_here|].
    unfold getsize, sys, result in Hx.
    destruct (fault E (sys_getsize x)); cbn [fst] in Hx; [by injection Hx as <-|].
    destruct (node_at s x) as [[]|]; cbn [fst] in Hx; try done.
    by injection Hx as <-.
Qed.

Lemma no_work_getsizes E files :
  emits (λ e, ¬ backup_work e) (for_each (getsize E) files).
Proof. unfold getsize. repeat emits_step; by intros []. Qed.

(** X16. The sizes of the enumerated files are read outside the worker's
    [try]: when the size of one of them cannot be read, the locked block
    raises that error after the staging reset, and no file is copied and no
    archive written, unlike a failed copy, which is tolerated. *)
Theorem unreadable_size_aborts_the_backup
    (E : env) (s : fsys) (files : list path) (f : path) :
  result (reset_staging E s) = Ok tt →
  result (_get_files_to_backup E (state (reset_staging E s))) = Ok files →
  f ∈ files →
  fault E (sys_getsize f) = true →
  ∃ g, g ∈ files
       ∧ result (locked_body E s) = Raise (OSError (sys_getsize g))
       ∧ state (locked_body E s) = state (reset_staging E s)
       ∧ Forall (λ e, ¬ backup_work e) (trace (locked_body E s)).
Proof.
  intros Hreset Hfiles Hf Hfault.
  destruct (get_files_run E (state (reset_staging E s))) as [_ Hst].
  destruct (for_each_getsize_fails E files (state (reset_staging E s)) f Hf Hfault)
    as (g & Hg & Hr).
  exists g. split; [done|]. unfold locked_body.
  rewrite result_bind, state_bind, trace_bind, Hreset.
  rewrite result_bind, state_bind, trace_bind, Hfiles, Hst.
  destruct files as [|f0 files]; [by apply elem_of_nil in Hf|].
  rewrite result_bind, state_bind, trace_bind, Hr, state_for_each_getsize.
  split_and!; [done|done|].
  rewrite !Forall_app. split_and!.
  - apply no_work_reset_staging.
  - apply no_work_get_files.
  - apply no_work_getsizes.
Qed.

Lemma unreadable_size_aborts_the_backup_witness :
  let E := Examples.size_fails in
  ∃ g, result (locked_body E Examples.disk) = Raise (OSError (sys_getsize g))
       ∧ state (locked_body E Examples.disk) = state (reset_staging E Examples.disk).
Proof.
  intros E.
  destruct (unreadable_size_aborts_the_backup E Examples.disk
              [["src"; "a"; "f1.txt"]; ["src"; "b"; "sub"; "f2.txt"]]
              ["src"; "b"; "sub"; "f2.txt"])
    as (g & _ & Hr & Hs & _).
  - vm_compute. reflexivity.
  - vm_compute. reflexivity.
  - apply list_elem_of_further, list_elem_of_here.
  - reflexivity.
  - exists g. split; [exact Hr|exact Hs].
Defined.

Lemma copy_files_no_workers E files total s :
  Config.parallel_workers (cfg E) ≤ 0 →
  _copy_files_to_staging_parallel E files total s
  = (Raise ValueError, s,
     Call m_copy_files_to_staging_parallel
     :: Log INFO (MsgCopying (length files) total (Config.parallel_workers (cfg E)))
     :: (if dry_run E then [Log INFO MsgDryCopy] else [])).
Proof.
  intros Hw. unfold _copy_files_to_staging_parallel, pool_results.
  destruct (Z.leb_spec (Config.parallel_workers (cfg E)) 0) as [_|?]; [|lia].
  by destruct (dry_run E).
Qed.

(** X17. With a worker count that is not positive, and at least one file
    to back up, the pool cannot be created: the locked block raises
    [ValueError] after announcing the copy; no worker starts, nothing is
    copied and no archive is written. *)
Theorem nonpositive_worker_count_aborts_the_backup
    (E : env) (s : fsys) (files : list path) (sizes : list Z) :
  Config.parallel_workers (cfg E) ≤ 0 →
  result (reset_staging E s) = Ok tt →
  result (_get_files_to_backup E (state (reset_staging E s))) = Ok files →
  files ≠ [] →
  result (for_each (getsize E) files (state (reset_staging E s))) = Ok sizes →
  result (locked_body E s) = Raise ValueError
  ∧ state (locked_body E s) = state (reset_staging E s)
  ∧ Forall (λ e, ¬ backup_work e) (trace (locked_body E s)).
Proof.
  intros Hw Hreset Hfiles Hne Hsizes.
  destruct (get_files_run E (state (reset_staging E s))) as [_ Hst].
  unfold locked_body.
  rewrite result_bind, state_bind, trace_bind, Hreset.
  rewrite result_bind, state_bind, trace_bind, Hfiles, Hst.
  destruct files as [|f0 files]; [done|].
  rewrite result_bind, state_bind, trace_bind, Hsizes, state_for_each_getsize.
  cbv zeta.
  rewrite result_bind, state_bind, trace_bind, copy_files_no_workers by done.
  split_and!; [done|done|].
  rewrite !Forall_app. split_and!.
  - apply no_work_reset_staging.
  - apply no_work_get_files.
  - apply no_work_getsizes.
  - unfold trace. cbn [snd]. destruct (dry_run E); repeat constructor; by intros [].
Qed.

Lemma nonpositive_worker_count_aborts_the_backup_witness :
  let E := Examples.no_workers in
  result (locked_body E Examples.disk) = Raise ValueError
  ∧ state (locked_body E Examples.disk) = state (reset_staging E Examples.disk).
Proof.
  intros E.
  destruct (nonpositive_worker_count_aborts_the_backup E Examples.disk
              [["src"; "a"; "f1.txt"]; ["src"; "b"; "sub"; "f2.txt"]] [5; 6])
    as (Hr & Hs & _).
  - done.
  - vm_compute. reflexivity.
  - vm_compute. reflexivity.
  - done.
  - vm_compute. reflexivity.
  - split; [exact Hr|exact Hs].
Defined.

(** * What a simulated run writes *)

Lemma writes_no_file_pure {A} (P : path → Prop) (m : M A) :
  (∀ s, state (m s) = s) → writes_no_file P m.
Proof. intros Hm s q d t _. by rewrite Hm. Qed.

Lemma writes_no_file_changes_only {A} (P : path → Prop) (m : M A) :
  changes_only P m → writes_no_file P m.
Proof. intros Hm s q d t Hq. by rewrite Hm. Qed.

Lemma writes_no_file_mono {A} (P Q : path → Prop) (m : M A) :
  (∀ q, P q → Q q) → writes_no_file P m → writes_no_file Q m.
Proof. intros HPQ Hm s q d t Hq. apply Hm. auto. Qed.

Lemma writes_no_file_bind {A B} (P : path → Prop) (m : M A) (k : A → M B) :
  writes_no_file P m → (∀ a, writes_no_file P (k a)) → writes_no_file P (m ≫= k).
Proof.
  intros Hm Hk s q d t Hq. rewrite state_bind.
  destruct (result (m s)) as [a|e]; [|by apply Hm].
  intros Hs. by apply Hm, (Hk a).
Qed.

Lemma writes_no_file_try_except {A} (P : path → Prop) (m : M A) h :
  writes_no_file P m → (∀ e, writes_no_file P (h e)) →
  writes_no_file P (try_except m h).
Proof.
  intros Hm Hh s q d t Hq. rewrite state_try_except.
  destruct (result (m s)) as [a|e]; [by apply Hm|].
  intros Hs. by apply Hm, (Hh e).
Qed.

Lemma writes_no_file_try_finally {A} (P : path → Prop) (m : M A) f :
  writes_no_file P m → writes_no_file P f → writes_no_file P (try_finally m f).
Proof.
  intros Hm Hf s q d t Hq. rewrite state_try_finally.
  intros Hs. by apply Hm, Hf.
Qed.

Lemma writes_no_file_for_each {A B} (P : path → Prop) (f : A → M B) l :
  (∀ x, writes_no_file P (f x)) → writes_no_file P (for_each f l).
Proof.
  intros Hf. induction l as [|x l IH]; [by apply writes_no_file_pure|].
  rewrite for_each_cons. apply writes_no_file_bind; [apply Hf|intros y].
  apply writes_no_file_bind; [apply IH|intros ys].
  by apply writes_no_file_pure.
Qed.

Lemma writes_no_file_rmtree (E : env) (P : path → Prop) (p : path) :
  writes_no_file P (rmtree E p).
Proof.
  intros s q d t _. unfold rmtree. rewrite sys_state.
  destruct (fault E _); [done|]. destruct (is_dir s p); [|done].
  by intros [? _]%map_lookup_filter_Some.
Qed.

Lemma writes_no_file_makedirs (E : env) (P : path → Prop) (p : path) :
  writes_no_file P (makedirs E p).
Proof.
  intros s q d t _. destruct (makedirs_state E p s) as [-> | ->]; [done|].
  apply mkdirs_file.
Qed.

Section Simulated.
Variable E : env.
Hypothesis simulated : dry_run E = true.

Lemma writes_no_file_worker (P : path → Prop) (f : path) :
  writes_no_file P (_copy_worker E f).
Proof.
  intros s q d t _. rewrite state_copy_worker_attempt. unfold copy_attempt.
  rewrite state_bind, getsize_state.
  destruct (result (getsize E f s)) as [size|]; [|done].
  rewrite state_bind.
  destruct (commonpath (Config.source_folders (cfg E))) as [c|]; [|done].
  cbn [result state mret M_ret fst snd]. cbv zeta.
  rewrite simulated. cbn [negb]. rewrite state_bind.
  set (p := dirname (join (staging_dir E) (relpath f c))).
  assert (Hmk : state (makedirs E p s) !! q = Some (File d t) →
                s !! q = Some (File d t)).
  { apply (writes_no_file_makedirs E (λ _, False)). by intros []. }
  destruct (result (makedirs E p s)) as [[]|]; [|done].
  by rewrite state_bind.
Qed.

Lemma writes_no_file_locked_body : writes_no_file (λ _, False) (locked_body E).
Proof.
  unfold locked_body. apply writes_no_file_bind.
  { unfold reset_staging.
    apply writes_no_file_bind; [by apply writes_no_file_pure|intros stale].
    apply writes_no_file_bind; [|intros _; apply writes_no_file_makedirs].
    destruct stale; [apply writes_no_file_rmtree|by apply writes_no_file_pure]. }
  intros _. apply writes_no_file_bind.
  { apply writes_no_file_pure. intros s. by destruct (get_files_run E s). }
  intros [|f files]; [by apply writes_no_file_pure|].
  apply writes_no_file_bind.
  { apply writes_no_file_pure. intros s. apply state_for_each_getsize. }
  intros sizes. cbv zeta. apply writes_no_file_bind.
  - unfold _copy_files_to_staging_parallel.
    apply writes_no_file_bind; [by apply writes_no_file_pure|intros _].
    apply writes_no_file_bind; [by apply writes_no_file_pure|intros _].
    apply writes_no_file_bind.
    { destruct (dry_run E); by apply writes_no_file_pure. }
    intros _. apply writes_no_file_bind; [|intros rs; by apply writes_no_file_pure].
    unfold pool_results. destruct (_ <=? _); [by apply writes_no_file_pure|].
    apply writes_no_file_for_each. intros g. apply writes_no_file_worker.
  - intros _. apply writes_no_file_changes_only.
    eapply changes_only_mono; [|apply changes_only_zip_staging_folder].
    intros q [? _]. congruence.
Qed.

Lemma writes_no_file_run : writes_no_file (λ q, q = lock_path E) (run E).
Proof.
  unfold run.
  apply writes_no_file_bind; [by apply writes_no_file_pure|intros _].
  apply writes_no_file_bind; [by apply writes_no_file_pure|intros _].
  apply writes_no_file_try_finally.
  - unfold guarded_block. apply writes_no_file_try_except.
    + unfold with_. apply writes_no_file_bind.
      * apply writes_no_file_changes_only, changes_only_enter.
      * intros _. apply writes_no_file_try_finally.
        -- eapply writes_no_file_mono; [|apply writes_no_file_locked_body]. by intros q [].
        -- apply writes_no_file_changes_only, changes_only_exit.
    + intros e. apply writes_no_file_pure. intros s. by destruct e.
  - unfold finally_block. apply writes_no_file_bind.
    + apply writes_no_file_changes_only.
      eapply changes_only_mono; [|apply changes_only_cleanup].
      intros q [? _]. congruence.
    + intros _. by apply writes_no_file_pure.
Qed.
End Simulated.

(** X18. A simulated run writes no file but its log: whatever the file
    system is and whichever calls fail, a regular file found after the run
    anywhere but at the lock path was there before the run, with the same content and
    modification time.  (It does remove the files of a stale staging
    directory and create directories.) *)
Theorem simulated_run_writes_no_file
    (E : env) (s : fsys) (q : path) (d : data) (t : Z) :
  dry_run E = true →
  q ≠ lock_path E →
  state (run E s) !! q = Some (File d t) →
  s !! q = Some (File d t).
Proof. intros Hdry Hq. by apply writes_no_file_run. Qed.

Lemma simulated_run_writes_no_file_witness :
  Examples.disk !! ["src"; "a"; "f1.txt"] = Some (File (Bytes "hello") 5).
Proof.
  apply (simulated_run_writes_no_file Examples.simulated_run).
  - reflexivity.
  - discriminate.
  - vm_compute. reflexivity.
Defined.

(** * Where files are staged *)

(** X19. No two enumerated files are staged at the same place: on a file
    system with clean names, the destinations that the workers compute for
    two different enumerated files (the staging root joined with the path
    relative to the common ancestor of the source folders) are different. *)
Theorem distinct_files_get_distinct_destinations
    (E : env) (s : fsys) (c : path) (files : list path) (f1 f2 : path) :
  has_clean_names s = true →
  commonpath (Config.source_folders (cfg E)) = Some c →
  result (_get_files_to_backup E s) = Ok files →
  f1 ∈ files → f2 ∈ files →
  f1 ≠ f2 →
  join (staging_dir E) (relpath f1 c) ≠ join (staging_dir E) (relpath f2 c).
Proof.
  intros Hclean%has_clean_names_sound Hc Hfiles H1 H2 Hne.
  destruct (enumerated_below_common_ancestor E s c files f1 Hc Hfiles H1)
    as (r1 & d1 & m1 & Hr1 & -> & Hs1).
  destruct (enumerated_below_common_ancestor E s c files f2 Hc Hfiles H2)
    as (r2 & d2 & m2 & Hr2 & -> & Hs2).
  assert (Hk : ∀ r x, s !! (c ++ r) = Some x → existsb special r = false).
  { intros r x Hx. assert (Hcr : existsb special (c ++ r) = false)
      by (apply Hclean; eauto).
    rewrite existsb_app in Hcr. by apply orb_false_elim in Hcr as [_ ?]. }
  rewrite !relpath_below by done.
  rewrite !join_ordinary_path by eauto.
  intros Heq%app_inv_head. apply Hne. by rewrite Heq.
Qed.

Lemma distinct_files_get_distinct_destinations_witness :
  let E := Examples.real_run in
  join (staging_dir E) (relpath ["src"; "a"; "f1.txt"] ["src"])
  ≠ join (staging_dir E) (relpath ["src"; "b"; "sub"; "f2.txt"] ["src"]).
Proof.
  intros E.
  apply (distinct_files_get_distinct_destinations E Examples.disk ["src"]
           [["src"; "a"; "f1.txt"]; ["src"; "b"; "sub"; "f2.txt"]]).
  - vm_compute. reflexivity.
  - reflexivity.
  - vm_compute. reflexivity.
  - apply list_elem_of_here.
  - apply list_elem_of_further, list_elem_of_here.
  - discriminate.
Defined.

(** * Retention counts that are not positive *)

Lemma slice_to_nonneg {A} (l : list A) (a : Z) :
  0 ≤ a → slice_to l a = take (Z.to_nat a) l.
Proof.
  intros Ha. unfold slice_to. destruct (Z.ltb_spec a 0) as [?|_]; [lia|].
  destruct (Z.le_ge_cases a (Z.of_nat (length l))) as [Hle|Hge].
  - by rewrite Z.min_l.
  - rewrite Z.min_r, Nat2Z.id by done. rewrite !take_ge; [done|lia|lia].
Qed.

Lemma no_deletion_list_backups E d : emits (λ e, ¬ deletion e) (list_backups E d).
Proof.
  unfold list_backups, with_mtime, listdir, getmtime.
  repeat emits_step; by intros [].
Qed.

(** X20. With a retention count of 0 the slice [backups[:-0]] is empty:
    pruning deletes nothing and announces no deletion, whatever the
    destination holds and whichever calls fail, so that every bundle is kept
    rather than none. *)
Theorem zero_retention_deletes_nothing (E : env) (s : fsys) :
  Config.retention (cfg E) = 0 →
  state (prune_old_backups E s) = s
  ∧ Forall (λ e, ¬ deletion e) (trace (prune_old_backups E s)).
Proof.
  intros HR. unfold prune_old_backups. cbv zeta.
  rewrite state_bind, trace_bind, state_list_backups, HR.
  change (- 0) with 0.
  destruct (result (list_backups E _ s)) as [backups|].
  - rewrite slice_to_nonneg by done. change (Z.to_nat 0) with 0%nat.
    rewrite take_0. split; [done|].
    apply Forall_app. split; [apply no_deletion_list_backups|constructor].
  - split; [done|apply no_deletion_list_backups].
Qed.

Lemma zero_retention_deletes_nothing_witness :
  state (prune_old_backups Examples.keep_none Examples.disk) = Examples.disk.
Proof. by apply zero_retention_deletes_nothing. Defined.

(** X21. A retention count [R <= 0] turns the slice [backups[:-R]] into
    "the first [-R]": pruning (not simulated, no call failing) returns and
    deletes the [-R] least recently modified bundles (all of them when there
    are fewer), leaves everything else as it was, and no deleted bundle was
    modified later than one that stays. *)
Theorem nonpositive_retention_deletes_the_oldest (E : env) (s : fsys) :
  dry_run E = false →
  Config.retention (cfg E) ≤ 0 →
  no_faults E →
  is_dir s (Config.destination (cfg E)) = true →
  forallb (λ n, is_file s (Config.destination (cfg E) ++ [n])) (bundles E s) = true →
  ∃ deleted kept : list string,
    sorted (mtime_in s (Config.destination (cfg E))) (bundles E s) = deleted ++ kept
    ∧ length deleted
      = Nat.min (Z.to_nat (- Config.retention (cfg E))) (length (bundles E s))
    ∧ result (prune_old_backups E s) = Ok tt
    ∧ (∀ n, n ∈ deleted →
         state (prune_old_backups E s) !! (Config.destination (cfg E) ++ [n]) = None)
    ∧ (∀ p, (∀ n, n ∈ deleted → p ≠ Config.destination (cfg E) ++ [n]) →
         state (prune_old_backups E s) !! p = s !! p)
    ∧ (∀ x y, x ∈ deleted → y ∈ kept →
         mtime_in s (Config.destination (cfg E)) x
         ≤ mtime_in s (Config.destination (cfg E)) y).
Proof.
  intros Hdry HR Hq Hd Hfiles.
  set (d := Config.destination (cfg E)) in *.
  set (k := Z.to_nat (- Config.retention (cfg E))).
  set (srt := sorted (mtime_in s d) (bundles E s)).
  assert (Hperm : srt ≡ₚ bundles E s) by apply sorted_perm.
  assert (Hlen : length srt = length (bundles E s)) by by rewrite Hperm.
  assert (Hnd : NoDup srt) by (rewrite Hperm; apply NoDup_bundles).
  assert (Hsplit : srt = take k srt ++ drop k srt) by by rewrite take_drop.
  assert (Hndt : NoDup (take k srt)).
  { rewrite Hsplit in Hnd. by apply NoDup_app in Hnd as [? _]. }
  assert (Hall : Forall (λ n, is_file s (d ++ [n]) = true ∧ special n = false)
                   (take k srt)).
  { apply Forall_forall. intros n Hn.
    assert (Hb : n ∈ bundles E s).
    { rewrite <- Hperm, Hsplit, elem_of_app. auto. }
    split.
    - rewrite forallb_forall in Hfiles. apply Hfiles. by apply list_elem_of_In.
    - apply elem_of_bundles in Hb. tauto. }
  destruct (delete_backups_run E Hq d (take k srt) s Hdry Hndt Hall) as [[us Hus] Hst].
  assert (Hres : result (prune_old_backups E s) = Ok tt
                 ∧ state (prune_old_backups E s)
                   = foldl (λ m n, delete (d ++ [n]) m) s (take k srt)).
  { unfold prune_old_backups. cbv zeta. fold d.
    destruct (list_backups_run E Hq s Hd) as [Hr Hs]. fold d in Hr, Hs. fold srt in Hr.
    rewrite result_bind, state_bind, Hr, Hs.
    rewrite slice_to_nonneg by lia. fold k.
    by rewrite result_bind, state_bind, Hus, Hst. }
  destruct Hres as [Hres Hstate]. rewrite Hstate.
  exists (take k srt), (drop k srt). split_and!.
  - exact Hsplit.
  - rewrite length_take, Hlen. done.
  - done.
  - intros n Hn. by apply lookup_foldl_delete_in.
  - intros p Hp. by apply lookup_foldl_delete_other.
  - intros x y Hx Hy. by apply (sorted_take_drop (mtime_in s d) (bundles E s) k).
Qed.

Lemma nonpositive_retention_deletes_the_oldest_witness :
  let E := Examples.keep_minus_one in
  ∃ deleted kept : list string,
    sorted (mtime_in Examples.disk ["backup"]) (bundles E Examples.disk)
    = deleted ++ kept
    ∧ length deleted = 1%nat
    ∧ result (prune_old_backups E Examples.disk) = Ok tt.
Proof.
  intros E.
  destruct (nonpositive_retention_deletes_the_oldest E Examples.disk)
    as (deleted & kept & Hs & Hl & Hr & _).
  - reflexivity.
  - done.
  - intros c. reflexivity.
  - vm_compute. reflexivity.
  - vm_compute. reflexivity.
  - exists deleted, kept. split_and!; [exact Hs| |exact Hr].
    rewrite Hl. vm_compute. reflexivity.
Defined.

(** * Failures of the lock *)

(** X22. [run] itself does not create the destination directory (the
    constructor does, when it sets up logging): if the directory is missing
    when [run] starts, and there is no lock marker, the marker cannot be
    written, and the guarded block logs the fatal error and does nothing else:
    no staging reset, no enumeration, no change to the file system. *)
Theorem missing_destination_stops_the_backup (E : env) (s : fsys) :
  node_at s (lock_path E) = None →
  is_dir s (Config.destination (cfg E)) = false →
  guarded_block E s
  = (Ok tt, s,
     [Call LockFile_enter; Sys (sys_exists (lock_path E));
      Sys (sys_open_w (lock_path E));
      Log CRITICAL (MsgFatal (OSError (sys_open_w (lock_path E))))]).
Proof.
  intros Hnone Hd.
  assert (Hen : LockFile.__enter__ E (lock_path E) s =
    (Raise (OSError (sys_open_w (lock_path E))), s,
     [Call LockFile_enter; Sys (sys_exists (lock_path E));
      Sys (sys_open_w (lock_path E))])).
  { assert (Hdn : dirname (lock_path E) = Config.destination (cfg E))
      by (rewrite lock_path_eq; apply dirname_app_snoc).
    rewrite enter_eq, Hnone, Hdn, Hd.
    rewrite bool_decide_eq_false_2 by (by intros [? ?]).
    by destruct (fault E _). }
  unfold guarded_block, with_, try_except.
  by rewrite (bind_Raise _ _ _ _ _ _ Hen).
Qed.

Lemma missing_destination_stops_the_backup_witness :
  state (guarded_block Examples.real_run Examples.disk_without_destination)
  = Examples.disk_without_destination.
Proof.
  rewrite (missing_destination_stops_the_backup Examples.real_run
             Examples.disk_without_destination); reflexivity.
Defined.

(** * What a simulated pruning announces *)

Lemma omap_none {A B} (f : A → option B) (l : list A) :
  Forall (λ x, f x = None) l → omap f l = [].
Proof. induction 1 as [|x l Hx _ IH]; [done|]. cbn. by rewrite Hx. Qed.

Lemma silent_list_backups E d s :
  announced (trace (list_backups E d s)) = []
  ∧ deleted_backups (trace (list_backups E d s)) = [].
Proof.
  assert (H : emits (λ e, announce e = None ∧ deletion_of e = None)
                (list_backups E d)).
  { unfold list_backups, with_mtime, listdir, getmtime.
    repeat emits_step; by split. }
  split; apply omap_none; (eapply Forall_impl; [apply H|]); by intros e [? ?].
Qed.

Lemma simulated_deletions E d names s :
  dry_run E = true →
  for_each (delete_backup E d) names s
  = (Ok ((λ _, tt) <$> names), s, (λ n, Log INFO (MsgDryDelete n)) <$> names).
Proof.
  intros Hdry. induction names as [|n names IH]; [done|].
  assert (Hone : delete_backup E d n s = (Ok tt, s, [Log INFO (MsgDryDelete n)])).
  { unfold delete_backup. by rewrite Hdry. }
  rewrite for_each_cons, (bind_Ok _ _ _ _ _ _ Hone).
  rewrite (bind_Ok _ _ _ _ _ _ IH).
  unfold result, state, trace. cbn [mret M_ret fst snd app].
  by rewrite app_nil_r.
Qed.

Lemma real_deletions E d names s :
  no_faults E →
  dry_run E = false →
  NoDup names →
  Forall (λ n, is_file s (d ++ [n]) = true ∧ special n = false) names →
  deleted_backups (trace (for_each (delete_backup E d) names s)) = names.
Proof.
  intros Hq Hdry Hnd. revert s.
  induction Hnd as [|n names Hn Hnd IH]; intros s Hall; [done|].
  apply Forall_cons in Hall as [[Hf Hs] Hall].
  assert (Hone : delete_backup E d n s =
    (Ok tt, delete (d ++ [n]) s,
     [Log INFO (MsgDelete n); Sys (sys_remove (d ++ [n]))])).
  { unfold delete_backup. rewrite Hdry, join_ordinary by done.
    rewrite bind_eq. unfold log, emit. by rewrite (remove_run E Hq). }
  rewrite for_each_cons, trace_bind, Hone.
  cbn [result state trace fst snd].
  assert (Hall' : Forall (λ m, is_file (delete (d ++ [n]) s) (d ++ [m]) = true
                              ∧ special m = false) names).
  { apply Forall_forall. intros m Hm.
    rewrite Forall_forall in Hall. destruct (Hall m Hm) as [Hfm Hsm].
    split; [|done]. unfold is_file in *.
    rewrite node_at_snoc in *. rewrite lookup_delete_ne; [done|].
    intros [= ->]%app_inv_head. done. }
  destruct (delete_backups_run E Hq d names _ Hdry Hnd Hall') as [[us Hus] _].
  rewrite trace_bind, Hus. cbn [trace mret M_ret snd].
  rewrite app_nil_r. unfold deleted_backups in *.
  cbn [app omap list_omap deletion_of]. f_equal. by apply IH.
Qed.

(** X24. A simulated pruning is faithful: with the same configuration and
    no call failing, it changes nothing in the file system and announces, in the same order,
    exactly the backups that the real pruning logs as deleted and removes. *)
Theorem simulated_pruning_announces_the_real_deletions (E E' : env) (s : fsys) :
  cfg E' = cfg E →
  dry_run E = false →
  dry_run E' = true →
  no_faults E →
  no_faults E' →
  is_dir s (Config.destination (cfg E)) = true →
  forallb (λ n, is_file s (Config.destination (cfg E) ++ [n])) (bundles E s) = true →
  announced (trace (prune_old_backups E' s))
  = deleted_backups (trace (prune_old_backups E s))
  ∧ state (prune_old_backups E' s) = s
  ∧ state (prune_old_backups E s)
    = foldl (λ m n, delete (Config.destination (cfg E) ++ [n]) m) s
        (announced (trace (prune_old_backups E' s))).
Proof.
  intros Hcfg Hdry Hdry' Hq Hq' Hd Hfiles.
  set (d := Config.destination (cfg E)) in *.
  set (srt := sorted (mtime_in s d) (bundles E s)).
  set (names := slice_to srt (- Config.retention (cfg E))).
  assert (Hb : bundles E' s = bundles E s).
  { unfold bundles, is_backup. by rewrite Hcfg. }
  assert (Hperm : srt ≡ₚ bundles E s) by apply sorted_perm.
  assert (Hnd : NoDup srt) by (rewrite Hperm; apply NoDup_bundles).
  assert (Hsub : ∀ n, n ∈ names → n ∈ srt).
  { intros n Hn. unfold names, slice_to in Hn.
    rewrite <- (take_drop (Z.to_nat
      (if - Config.retention (cfg E) <? 0
       then Z.max 0 (- Config.retention (cfg E) + Z.of_nat (length srt))
       else Z.min (- Config.retention (cfg E)) (Z.of_nat (length srt)))) srt).
    apply elem_of_app. by left. }
  assert (Hndn : NoDup names).
  { unfold names, slice_to. revert Hnd. generalize (Z.to_nat
      (if - Config.retention (cfg E) <? 0
       then Z.max 0 (- Config.retention (cfg E) + Z.of_nat (length srt))
       else Z.min (- Config.retention (cfg E)) (Z.of_nat (length srt)))).
    intros k Hnd. rewrite <- (take_drop k srt) in Hnd.
    by apply NoDup_app in Hnd as [? _]. }
  assert (Hall : Forall (λ n, is_file s (d ++ [n]) = true ∧ special n = false) names).
  { apply Forall_forall. intros n Hn.
    assert (Hbn : n ∈ bundles E s) by (rewrite <- Hperm; by apply Hsub).
    split.
    - rewrite forallb_forall in Hfiles. apply Hfiles. by apply list_elem_of_In.
    - apply elem_of_bundles in Hbn. tauto. }
  assert (Hreal : deleted_backups (trace (prune_old_backups E s)) = names
                  ∧ state (prune_old_backups E s)
                    = foldl (λ m n, delete (d ++ [n]) m) s names).
  { unfold prune_old_backups. cbv zeta. fold d.
    destruct (list_backups_run E Hq s Hd) as [Hr Hs]. fold d in Hr, Hs. fold srt in Hr.
    destruct (silent_list_backups E d s) as [_ Hsil].
    destruct (delete_backups_run E Hq d names s Hdry Hndn Hall) as [[us Hus] Hst].
    rewrite trace_bind, state_bind, Hr, Hs. fold names.
    rewrite trace_bind, state_bind, Hus, Hst. cbn [trace mret M_ret snd].
    rewrite app_nil_r. unfold deleted_backups in *. rewrite omap_app, Hsil.
    split; [|done]. by apply real_deletions. }
  assert (Hsim : announced (trace (prune_old_backups E' s)) = names
                 ∧ state (prune_old_backups E' s) = s).
  { unfold prune_old_backups. cbv zeta. rewrite Hcfg. fold d.
    assert (Hd' : is_dir s (Config.destination (cfg E')) = true) by by rewrite Hcfg.
    destruct (list_backups_run E' Hq' s Hd') as [Hr Hs].
    rewrite Hb, Hcfg in Hr. rewrite Hcfg in Hs. fold d in Hr, Hs. fold srt in Hr.
    destruct (silent_list_backups E' d s) as [Hsil _].
    rewrite trace_bind, state_bind, Hr, Hs. fold names.
    rewrite trace_bind, state_bind, (simulated_deletions E' d names s Hdry').
    cbn [result state trace mret M_ret fst snd].
    rewrite app_nil_r. unfold announced in *. rewrite omap_app, Hsil.
    split; [|done]. cbn [app]. clear. induction names as [|n names IH]; [done|].
    cbn. by rewrite IH. }
  destruct Hreal as [Hr1 Hr2], Hsim as [Hs1 Hs2].
  by rewrite Hs1, Hr1, Hr2, Hs2.
Qed.

Lemma simulated_pruning_announces_the_real_deletions_witness :
  announced (trace (prune_old_backups Examples.simulated_run Examples.disk))
  = deleted_backups (trace (prune_old_backups Examples.real_run Examples.disk)).
Proof.
  apply (simulated_pruning_announces_the_real_deletions
           Examples.real_run Examples.simulated_run Examples.disk).
  - reflexivity.
  - reflexivity.
  - reflexivity.
  - intros c. reflexivity.
  - intros c. reflexivity.
  - vm_compute. reflexivity.
  - vm_compute. reflexivity.
Defined.

(** * Release and cleanup in a run that acquires the lock *)

Lemma count_occ_absent (a : event) (t : list event) :
  Forall (λ e, e ≠ a) t → count_occ event_eq_dec t a = 0%nat.
Proof.
  intros Ht. apply count_occ_not_In. rewrite <- list_elem_of_In.
  intros Hin. rewrite Forall_forall in Ht. by apply (Ht _ Hin).
Qed.

Lemma cleanup_start_eq E s :
  acquires E s →
  cleanup_start E s = state (LockFile.__exit__ E (lock_path E) (block_end E s)).
Proof.
  intros Hacq. unfold cleanup_start, block_end. rewrite state_guarded_block.
  unfold with_. by rewrite state_bind, Hacq, state_try_finally.
Qed.

Lemma exit_Ok_absent E (p : path) s :
  result (LockFile.__exit__ E p s) = Ok tt →
  node_at (state (LockFile.__exit__ E p s)) p = None.
Proof.
  rewrite exit_eq. case_bool_decide as Hex.
  - destruct (fault E (sys_remove p)); [done|].
    unfold is_file. destruct (node_at s p) as [[d m|]|] eqn:Hn; try done.
    intros _. unfold state. cbn [fst snd].
    unfold node_at. destruct p; [done|]. apply lookup_delete_eq.
  - intros _. unfold state. cbn [fst snd].
    destruct (node_at s p) eqn:Hn; [|done]. destruct Hex. eauto.
Qed.

Lemma exit_Ok_when_file E (p : path) s :
  is_file s p = true → fault E (sys_remove p) = false →
  result (LockFile.__exit__ E p s) = Ok tt.
Proof.
  intros Hf Hrm. rewrite exit_eq, Hrm, Hf.
  rewrite bool_decide_eq_true_2; [done|].
  unfold is_file in Hf. destruct (node_at s p); [eauto|done].
Qed.

Lemma cleanup_staging_keeps_absent E s (q : path) :
  s !! q = None → state (cleanup_staging E s) !! q = None.
Proof.
  intros Hq. unfold cleanup_staging. rewrite state_bind.
  cbn [result state exists_ fst snd].
  destruct (bool_decide _); [|done]. destruct (dry_run E); [done|].
  unfold log. rewrite state_emit_bind. unfold rmtree. rewrite sys_state.
  destruct (fault E _); [done|]. destruct (is_dir s _); [|done].
  apply map_lookup_filter_None. by left.
Qed.

Lemma state_cleanup_cases E s :
  state (_cleanup E s) = state (cleanup_staging E s)
  ∨ (result (cleanup_staging E s) = Ok tt
     ∧ state (_cleanup E s)
       = state (prune_old_backups E (state (cleanup_staging E s)))).
Proof.
  destruct (result (cleanup_staging E s)) as [[]|e] eqn:Hr.
  - right. split; [done|]. by apply state_cleanup.
  - left. unfold _cleanup, call. by rewrite state_emit_bind, state_bind, Hr.
Qed.

Lemma cleanup_keeps_absent E s (q : path) :
  s !! q = None → state (_cleanup E s) !! q = None.
Proof.
  intros Hq. pose proof (cleanup_staging_keeps_absent E s q Hq) as Hs.
  destruct (state_cleanup_cases E s) as [->|[_ ->]]; [done|].
  destruct (state_prune_old_backups E (state (cleanup_staging E s)))
    as (names & _ & ->).
  by apply state_for_each_delete_absent.
Qed.

Lemma cleanup_staging_removes E s :
  dry_run E = false →
  result (cleanup_staging E s) = Ok tt →
  state (cleanup_staging E s) !! staging_dir E = None.
Proof.
  intros Hdry. unfold cleanup_staging. rewrite result_bind, state_bind.
  cbn [result state exists_ fst snd]. rewrite Hdry.
  case_bool_decide as Hex.
  - unfold log. rewrite result_emit_bind, state_emit_bind. unfold rmtree.
    intros Hrm. apply sys_Ok in Hrm as (_ & Hbody & Hst). rewrite Hst.
    destruct (is_dir s (staging_dir E)); [|done].
    apply map_lookup_filter_None. right. intros x _. cbn [fst].
    by rewrite <- (app_nil_r (staging_dir E)) at 2; rewrite strip_prefix_app.
  - intros _. unfold state. cbn [mret M_ret fst snd].
    destruct (s !! staging_dir E) as [x|] eqn:Hx; [|done].
    destruct Hex. unfold node_at. destruct (staging_dir E); eauto.
Qed.

(** The trace of pruning: the destination is listed first, and only
    there. *)
Lemma trace_sys (E : env) {A} (c : syscall) (body : fsys → res A * fsys) s :
  trace (sys E c body s) = [Sys c].
Proof. unfold sys. destruct (fault E c); [done|]. by destruct (body s). Qed.

Lemma trace_listdir E d s : trace (listdir E d s) = [Sys (sys_listdir d)].
Proof. unfold listdir. apply trace_sys. Qed.

Lemma trace_list_backups E s :
  ∃ t, trace (list_backups E (Config.destination (cfg E)) s) = listing E :: t
       ∧ Forall (λ e, e ≠ listing E) t.
Proof.
  unfold list_backups. rewrite trace_bind, trace_listdir.
  destruct (result (listdir E _ s)) as [names|]; [|by exists []].
  eexists. split; [reflexivity|]. generalize (state (listdir E (Config.destination (cfg E)) s)).
  change (emits (λ e, e ≠ listing E)
    (keyed ← for_each (with_mtime E (Config.destination (cfg E)))
                      (List.filter (is_backup E) names);
     mret (fst <$> sorted snd keyed))).
  unfold with_mtime, getmtime. repeat emits_step; discriminate.
Qed.

Lemma trace_prune E s :
  ∃ t, trace (prune_old_backups E s) = listing E :: t
       ∧ Forall (λ e, e ≠ listing E) t.
Proof.
  unfold prune_old_backups. cbv zeta. rewrite trace_bind.
  destruct (trace_list_backups E s) as (t1 & -> & Ht1).
  destruct (result (list_backups E _ s)) as [backups|]; [|by exists t1].
  eexists. split; [reflexivity|]. apply Forall_app. split; [done|].
  generalize (state (list_backups E (Config.destination (cfg E)) s)).
  change (emits (λ e, e ≠ listing E)
    (for_each (delete_backup E (Config.destination (cfg E)))
       (slice_to backups (- Config.retention (cfg E)));; mret tt)).
  unfold delete_backup, remove. repeat emits_step; discriminate.
Qed.

Lemma no_listing_guarded_block E : emits (λ e, e ≠ listing E) (guarded_block E).
Proof.
  unfold guarded_block, with_, LockFile.__enter__, LockFile.__exit__, open_w,
    remove, locked_body, reset_staging, _get_files_to_backup, files_of_folder,
    _copy_files_to_staging_parallel, pool_results, _copy_worker, copy_attempt,
    _zip_staging_folder, write_entry, zip_open, zip_write, rmtree, makedirs,
    getsize, copy2, on_error.
  repeat emits_step; discriminate.
Qed.

Lemma no_listing_cleanup_staging E : emits (λ e, e ≠ listing E) (cleanup_staging E).
Proof. unfold cleanup_staging, rmtree. repeat emits_step; discriminate. Qed.

Lemma result_run_cleanup E s :
  result (run E s) = result (cleanup_staging E (cleanup_start E s)).
Proof.
  unfold cleanup_start.
  rewrite result_run, result_finally_block, result_guarded_block.
  by destruct (result (cleanup_staging E _)) as [[]|e].
Qed.

Lemma listing_count_cleanup E s :
  count_occ event_eq_dec (trace (_cleanup E s)) (listing E)
  = match result (cleanup_staging E s) with Ok _ => 1%nat | Raise _ => 0%nat end.
Proof.
  unfold _cleanup. rewrite trace_call_bind, trace_bind.
  rewrite count_occ_cons_neq by discriminate.
  pose proof (count_occ_absent _ _ (no_listing_cleanup_staging E s)) as Hcs.
  destruct (result (cleanup_staging E s)) as [[]|e]; [|done].
  rewrite trace_log_bind, trace_try_except, count_occ_app, Hcs.
  rewrite count_occ_cons_neq by discriminate.
  destruct (trace_prune E (state (cleanup_staging E s))) as (t & Ht & Hnl).
  rewrite Ht.
  destruct (result (prune_old_backups E _)) as [[]|e'].
  - rewrite count_occ_cons_eq by done. by rewrite count_occ_absent.
  - cbn [app]. rewrite count_occ_cons_eq by done.
    rewrite count_occ_app, count_occ_absent by done.
    cbn [trace log emit snd]. by rewrite count_occ_cons_neq by discriminate.
Qed.

Lemma listing_count_run E s :
  occurrences (listing E) (trace (run E s))
  = match result (run E s) with Ok _ => 1%nat | Raise _ => 0%nat end.
Proof.
  unfold occurrences. rewrite result_run_cleanup, trace_run.
  rewrite !count_occ_cons_neq by discriminate. rewrite count_occ_app.
  rewrite (count_occ_absent _ _ (no_listing_guarded_block E s)).
  fold (cleanup_start E s). unfold finally_block. rewrite trace_bind.
  pose proof (listing_count_cleanup E (cleanup_start E s)) as Hc.
  rewrite result_cleanup.
  destruct (result (cleanup_staging E (cleanup_start E s))) as [[]|e]; [|done].
  rewrite count_occ_app, Hc. cbn [trace]. rewrite trace_log_bind.
  cbn [trace log emit snd]. by rewrite !count_occ_cons_neq by discriminate.
Qed.

Lemma marker_kept_by_the_block E s :
  acquires E s →
  clean_names s →
  ¬ on_staging_path E (lock_path E) →
  is_file (block_end E s) (lock_path E) = true.
Proof.
  intros Hacq Hclean Hq. unfold block_end.
  pose proof (clean_after_enter E s Hclean Hacq) as Hclean'.
  apply enter_Ok_inv in Hacq as (_ & _ & _ & _ & Hst).
  assert (Hnb : ∀ n, is_backup E n = true → ".backup.lock" ≠ n).
  { intros n Hn <-. unfold is_backup in Hn.
    apply andb_true_iff in Hn as [_ Hn]. discriminate Hn. }
  assert (Hlk : ∀ s', node_at s' (lock_path E) = s' !! lock_path E).
  { intros s'. rewrite lock_path_eq. apply node_at_snoc. }
  unfold is_file. rewrite Hlk, locked_body_frame; [|done|done|].
  - rewrite Hst. unfold state. cbn [fst snd]. by rewrite lookup_insert_eq.
  - intros _. rewrite lock_path_eq. intros Heq%app_inj_tail.
    destruct Heq as [_ Heq].
    by apply (Hnb (backup_filename E) (backup_filename_is_backup E)).
Qed.

(** C3, as amended. In every run that acquires the lock, whatever fails
    in staging setup, enumeration, copying or archiving:
    the release [__exit__] is entered exactly once, on the state in which
    the locked block is left; it returns when the marker is a file there and
    its removal does not fail (the marker is still there on a file system
    with clean names when it lies off the staging path), and when it returns
    the marker is gone, at the start of the cleanup and at the end of the
    run;
    the cleanup [_cleanup] is entered exactly once, on the state the release
    left; the destination is listed for pruning once when the run returns
    and not at all when the staging removal raises; a run that returns ends
    in the state that pruning leaves after the staging removal, and unless
    it is simulated nothing is left at the staging path. *)
Theorem cleanup_and_release_exactly_once (E : env) (s : fsys) :
  acquires E s →
  (occurrences (Call LockFile_exit) (trace (run E s)) = 1%nat
   ∧ cleanup_start E s = state (LockFile.__exit__ E (lock_path E) (block_end E s))
   ∧ (has_clean_names s = true → ¬ on_staging_path E (lock_path E) →
      is_file (block_end E s) (lock_path E) = true)
   ∧ (is_file (block_end E s) (lock_path E) = true →
      fault E (sys_remove (lock_path E)) = false →
      result (LockFile.__exit__ E (lock_path E) (block_end E s)) = Ok tt)
   ∧ (result (LockFile.__exit__ E (lock_path E) (block_end E s)) = Ok tt →
      node_at (cleanup_start E s) (lock_path E) = None
      ∧ state (run E s) !! lock_path E = None))
  ∧ (occurrences (Call m_cleanup) (trace (run E s)) = 1%nat
     ∧ state (run E s) = state (_cleanup E (cleanup_start E s))
     ∧ occurrences (listing E) (trace (run E s))
       = match result (run E s) with Ok _ => 1%nat | Raise _ => 0%nat end
     ∧ (result (run E s) = Ok tt →
        state (run E s)
        = state (prune_old_backups E
                   (state (cleanup_staging E (cleanup_start E s)))))
     ∧ (dry_run E = false → result (run E s) = Ok tt →
        state (run E s) !! staging_dir E = None)).
Proof.
  intros Hacq.
  assert (Hrun : state (run E s) = state (_cleanup E (cleanup_start E s))).
  { by rewrite state_run, state_finally_block. }
  assert (Hcounts : occurrences (Call m_cleanup) (trace (run E s)) = 1%nat
                    ∧ occurrences (Call LockFile_exit) (trace (run E s)) = 1%nat).
  { unfold occurrences. rewrite trace_run.
    destruct (trace_guarded_acquired E s Hacq) as (sb & th & -> & _ & Hth).
    set (fs := [m_cleanup; LockFile_exit]).
    destruct (trace_finally_block E fs (state (guarded_block E s)))
      as (tf & -> & Htf).
    destruct (trace_exit E fs (lock_path E) sb) as (tx & -> & Htx).
    assert (Hen : Forall (not_call_of fs)
                    (trace (LockFile.__enter__ E (lock_path E) s))).
    { apply quiet_enter. subst fs. not_in_methods. }
    assert (Hbody : ∀ s', Forall (not_call_of fs) (trace (locked_body E s'))).
    { apply quiet_locked_body; [| |intros src|]; subst fs; not_in_methods. }
    assert (Hlog : Forall (not_call_of fs) th).
    { eapply Forall_impl; [exact Hth|]. by intros e (lv & msg & ->). }
    assert (H1 : m_cleanup ∈ fs) by (subst fs; rewrite !elem_of_cons; auto).
    assert (H2 : LockFile_exit ∈ fs) by (subst fs; rewrite !elem_of_cons; auto).
    pose proof (count_occ_quiet fs m_cleanup) as Q1.
    pose proof (count_occ_quiet fs LockFile_exit) as Q2.
    split.
    - rewrite !count_occ_cons_neq by discriminate.
      rewrite !count_occ_app.
      rewrite (count_occ_cons_neq _ tx) by discriminate.
      rewrite (count_occ_cons_eq _ tf) by done.
      rewrite !Q1 by done. done.
    - rewrite !count_occ_cons_neq by discriminate.
      rewrite !count_occ_app.
      rewrite (count_occ_cons_eq _ tx) by done.
      rewrite (count_occ_cons_neq _ tf) by discriminate.
      rewrite !Q2 by done. done. }
  destruct Hcounts as [Hc1 Hc2].
  split; split_and!.
  - exact Hc2.
  - by apply cleanup_start_eq.
  - intros Hclean%has_clean_names_sound Hq. by apply marker_kept_by_the_block.
  - apply exit_Ok_when_file.
  - intros Hex. rewrite cleanup_start_eq by done.
    pose proof (exit_Ok_absent E _ _ Hex) as Habs. split; [exact Habs|].
    rewrite Hrun. apply cleanup_keeps_absent.
    rewrite cleanup_start_eq by done.
    rewrite lock_path_eq in Habs |- *. by rewrite node_at_snoc in Habs.
  - exact Hc1.
  - exact Hrun.
  - apply listing_count_run.
  - intros Hok. rewrite Hrun. apply state_cleanup.
    by rewrite <- result_run_cleanup.
  - intros Hdry Hok. rewrite result_run_cleanup in Hok.
    rewrite Hrun, state_cleanup by done.
    destruct (state_prune_old_backups E
                (state (cleanup_staging E (cleanup_start E s))))
      as (names & _ & ->).
    apply state_for_each_delete_absent. by apply cleanup_staging_removes.
Qed.

Lemma cleanup_and_release_exactly_once_witness :
  let E := Examples.real_run in
  acquires E Examples.disk
  ∧ occurrences (Call LockFile_exit) (trace (run E Examples.disk)) = 1%nat
  ∧ occurrences (listing E) (trace (run E Examples.disk)) = 1%nat
  ∧ state (run E Examples.disk) !! lock_path E = None
  ∧ state (run E Examples.disk) !! staging_dir E = None.
Proof.
  intros E.
  assert (Hacq : acquires E Examples.disk) by (vm_compute; reflexivity).
  destruct (cleanup_and_release_exactly_once E Examples.disk Hacq)
    as [(H1 & _ & Hfile & Hex & Hgone) (_ & _ & Hlist & _ & Hstg)].
  assert (Hok : result (run E Examples.disk) = Ok tt) by (vm_compute; reflexivity).
  split; [exact Hacq|]. split; [exact H1|]. split.
  { rewrite Hlist, Hok. reflexivity. }
  split.
  - apply Hgone, Hex; [|reflexivity]. apply Hfile; [vm_compute; reflexivity|].
    intros [[k Hk]|[k Hk]]; discriminate Hk.
  - apply Hstg; [reflexivity|exact Hok].
Defined.

(** C3, as the specification states it, fails.  In the first run the
    staging path is taken by a regular file: the run acquires the lock, its
    staging setup fails, and the staging removal of its cleanup fails too, so
    that the destination is never listed and both bundles stay although one
    is to be kept.  In the second run the removal of the marker fails: the
    release is entered once, and the marker is still there at the end. *)
Lemma pruning_or_release_can_be_missed :
  (acquires Examples.real_run Examples.disk_staging_blocked
   ∧ occurrences (Call m_cleanup)
       (trace (run Examples.real_run Examples.disk_staging_blocked)) = 1%nat
   ∧ occurrences (listing Examples.real_run)
       (trace (run Examples.real_run Examples.disk_staging_blocked)) = 0%nat
   ∧ Config.retention (cfg Examples.real_run) = 1
   ∧ bundles Examples.real_run
       (state (run Examples.real_run Examples.disk_staging_blocked))
     = bundles Examples.real_run Examples.disk_staging_blocked
   ∧ length (bundles Examples.real_run Examples.disk_staging_blocked) = 2%nat)
  ∧ (acquires Examples.release_fails Examples.disk
     ∧ occurrences (Call LockFile_exit)
         (trace (run Examples.release_fails Examples.disk)) = 1%nat
     ∧ state (run Examples.release_fails Examples.disk)
         !! ["backup"; ".backup.lock"]
       = Some (File (Bytes "4242") 100)).
Proof. split; split_and!; vm_compute; reflexivity. Qed.

(** * Cleanup outside the lock *)

(** C4, on the code.  A first instance runs and leaves its locked block:
    the marker is removed before the cleanup is entered, not after the
    pruning, and the cleanup starts without the marker.  A second instance
    that starts then acquires the lock and stages its files; the cleanup of
    the first instance, run on that state, removes the staged files of the
    second while the second holds the lock. *)
Theorem cleanup_runs_outside_the_lock :
  let E := Examples.real_run in
  let E2 := Examples.second_instance in
  let files := [["src"; "a"; "f1.txt"]; ["src"; "b"; "sub"; "f2.txt"]] in
  let s1 := cleanup_start E Examples.disk in
  let s2 := copy_time_state E2 (state (LockFile.__enter__ E2 (lock_path E2) s1))
              files in
  let s3 := state (finally_block E s2) in
  acquires E Examples.disk
  ∧ precedes (Sys (sys_remove (lock_path E))) (Call m_cleanup)
      (trace (run E Examples.disk))
  ∧ precedes (Sys (sys_remove (lock_path E))) (listing E)
      (trace (run E Examples.disk))
  ∧ ¬ release_after_pruning E (trace (run E Examples.disk))
  ∧ s1 !! lock_path E = None
  ∧ acquires E2 s1
  ∧ result (_get_files_to_backup E2
              (state (reset_staging E2
                        (state (LockFile.__enter__ E2 (lock_path E2) s1)))))
    = Ok files
  ∧ s2 !! lock_path E2 = Some (File (Bytes "4343") 101)
  ∧ s2 !! ["stage"; "a"; "f1.txt"] = Some (File (Bytes "hello") 5)
  ∧ s3 !! ["stage"; "a"; "f1.txt"] = None
  ∧ s3 !! ["stage"] = None
  ∧ s3 !! lock_path E2 = Some (File (Bytes "4343") 101).
Proof.
  intros E E2 files s1 s2 s3. split_and!; try (vm_compute; reflexivity).
  - apply precedesb_precedes. vm_compute. reflexivity.
  - apply precedesb_precedes. vm_compute. reflexivity.
  - intros H. apply precedes_precedesb in H. vm_compute in H. discriminate.
Qed.

(** * Errors in the cleanup phase and the lock *)

Lemma retention_errors_absorbed_from (E : env) (s : fsys) :
  result (cleanup_staging E s) = Ok tt →
  cleanup_returns E s
  ∧ match result (prune_old_backups E (state (cleanup_staging E s))) with
    | Raise e => Log ERROR (MsgRetentionError e) ∈ trace (_cleanup E s)
    | Ok _ => True
    end
  ∧ result (finally_block E s) = Ok tt
  ∧ Log INFO MsgFinished ∈ trace (finally_block E s).
Proof.
  intros Hstg.
  assert (Hc : result (_cleanup E s) = Ok tt) by (by rewrite result_cleanup).
  split_and!; [done| | |].
  - unfold _cleanup. rewrite trace_call_bind, trace_bind, Hstg, trace_log_bind.
    rewrite trace_try_except.
    destruct (result (prune_old_backups E _)) as [[]|e]; [done|].
    rewrite !elem_of_cons, !elem_of_app, !elem_of_cons, elem_of_app.
    do 2 right. right. right. simpl. rewrite elem_of_cons. by left.
  - unfold finally_block. by rewrite result_bind, Hc.
  - unfold finally_block. rewrite trace_bind, Hc, elem_of_app. right.
    rewrite trace_log_bind. simpl. rewrite !elem_of_cons. auto.
Qed.

(** C8, as amended.  No error of the retention part of the cleanup phase
    (listing the destination, reading modification times, deleting bundles)
    propagates: from whatever state [sc] the cleanup starts, when its staging
    part returns the cleanup returns, an error of the retention part is in
    the log, and the [finally] block goes on to its last log record.
    No error of the cleanup phase, of the staging removal either, blocks
    the release of the lock: in a run that acquires the lock the cleanup
    runs on the state that the release left; a marker that the release
    removed is absent at the end of the run, whatever the cleanup did; and
    the cleanup never touches a marker that lies off the staging tree. *)
Theorem retention_errors_are_absorbed (E : env) (sc s : fsys) :
  (result (cleanup_staging E sc) = Ok tt →
   cleanup_returns E sc
   ∧ match result (prune_old_backups E (state (cleanup_staging E sc))) with
     | Raise e => Log ERROR (MsgRetentionError e) ∈ trace (_cleanup E sc)
     | Ok _ => True
     end
   ∧ result (finally_block E sc) = Ok tt
   ∧ Log INFO MsgFinished ∈ trace (finally_block E sc))
  ∧ (acquires E s →
     state (run E s)
     = state (_cleanup E
                (state (LockFile.__exit__ E (lock_path E) (block_end E s))))
     ∧ (result (LockFile.__exit__ E (lock_path E) (block_end E s)) = Ok tt →
        state (run E s) !! lock_path E = None)
     ∧ (¬ staging_dir E `prefix_of` lock_path E →
        state (run E s) !! lock_path E
        = state (LockFile.__exit__ E (lock_path E) (block_end E s))
            !! lock_path E)).
Proof.
  split; [apply retention_errors_absorbed_from|]. intros Hacq.
  assert (Hrun : state (run E s)
                 = state (_cleanup E (state (LockFile.__exit__ E (lock_path E)
                                                (block_end E s))))).
  { by rewrite state_run, state_finally_block, <- cleanup_start_eq. }
  split_and!.
  - exact Hrun.
  - intros Hex. rewrite Hrun. apply cleanup_keeps_absent.
    pose proof (exit_Ok_absent E _ _ Hex) as Habs.
    rewrite lock_path_eq in Habs |- *. by rewrite node_at_snoc in Habs.
  - intros Hq. rewrite Hrun. apply changes_only_cleanup.
    intros [_ [?|(n & Hn & Heq)]]; [done|].
    rewrite lock_path_eq in Heq. apply app_inj_tail in Heq as [_ <-].
    unfold is_backup in Hn. apply andb_true_iff in Hn as [_ Hn]. discriminate Hn.
Qed.

Lemma retention_errors_are_absorbed_witness :
  let E := Examples.listing_fails in
  let sc := cleanup_start E Examples.disk in
  cleanup_returns E sc
  ∧ Log ERROR (MsgRetentionError (OSError (sys_listdir ["backup"])))
      ∈ trace (_cleanup E sc)
  ∧ state (run E Examples.disk) !! lock_path E = None.
Proof.
  intros E sc.
  destruct (retention_errors_are_absorbed E sc Examples.disk) as [Hc Hl].
  destruct Hc as (H1 & H2 & _); [vm_compute; reflexivity|].
  destruct Hl as (_ & H3 & _); [vm_compute; reflexivity|].
  split; [exact H1|]. split; [exact H2|].
  apply H3. vm_compute. reflexivity.
Defined.

(** * The copy pool, file by file *)

(** The state that a successful copy leaves. *)
Lemma copy_worker_state (E : env) (c rel : path) (s : fsys) (size : Z) :
  dry_run E = false →
  commonpath (Config.source_folders (cfg E)) = Some c →
  rel ≠ [] →
  existsb special rel = false →
  is_dir s (staging_dir E ++ rel) = false →
  result (_copy_worker E (c ++ rel) s) = Ok (true, size, c ++ rel) →
  ∃ d m,
    s !! (c ++ rel) = Some (File d m)
    ∧ state (_copy_worker E (c ++ rel) s)
      = <[staging_dir E ++ rel := File d m]>
          (mkdirs E s (dirname (staging_dir E ++ rel))).
Proof.
  intros Hdry Hc Hrel Hsp Hnd Hok.
  assert (Hdst : join (staging_dir E) (relpath (c ++ rel) c) = staging_dir E ++ rel).
  { by rewrite relpath_below, join_ordinary_path. }
  rewrite result_copy_worker in Hok.
  destruct (result (copy_attempt E (c ++ rel) s)) as [r|e] eqn:Ha; [|done].
  injection Hok as ->. rewrite (state_copy_worker E _ s _ Ha).
  unfold copy_attempt in Ha |- *.
  apply result_bind_Ok in Ha as (size' & Hsize & Ha & Hst). rewrite Hst. clear Hst.
  apply getsize_Ok in Hsize as [Hst Hsize]. rewrite Hst in Ha |- *. clear Hst.
  rewrite Hc in Ha |- *.
  apply result_bind_Ok in Ha as (c' & [= <-] & Ha & Hst). rewrite Hst. clear Hst.
  cbn [state mret M_ret fst snd] in Ha |- *. cbv zeta in Ha |- *.
  rewrite Hdst, Hdry in Ha |- *.
  set (src := c ++ rel) in *. set (dst := staging_dir E ++ rel) in *.
  apply result_bind_Ok in Ha as ([] & Hmk & Ha & Hst). rewrite Hst. clear Hst.
  unfold makedirs in Hmk, Ha |- *.
  apply sys_Ok in Hmk as (_ & Hmk & Hst). rewrite Hst in Ha |- *. clear Hst.
  destruct (existsb (is_file s) (prefixes (dirname dst))); [done|].
  cbn [fst snd] in Hmk, Ha |- *. clear Hmk.
  set (s1 := mkdirs E s (dirname dst)) in *.
  apply result_bind_Ok in Ha as ([] & Hcp & Ha & Hst). rewrite Hst. clear Hst.
  cbn [negb] in Hcp |- *. unfold copy2 in Hcp |- *.
  apply sys_Ok in Hcp as (_ & Hcp & Hst). rewrite Hst. clear Hst.
  cbn [state mret M_ret fst snd].
  assert (Hdne : dst ≠ []) by (subst dst; by destruct (staging_dir E), rel).
  assert (Hs1dst : is_dir s1 dst = false).
  { unfold is_dir, node_at in Hnd |- *. destruct dst as [|x dst'] eqn:Hd; [done|].
    subst s1. rewrite mkdirs_outside; [done|]. rewrite <- Hd.
    apply dirname_length. by rewrite Hd. }
  rewrite Hs1dst in Hcp |- *.
  destruct (node_at s1 src) as [[d m|m]|] eqn:Hsrc; [|done|done].
  destruct (bool_decide (dst = src)); [done|].
  destruct (is_dir s1 (dirname dst)); [|done]. cbn [andb negb fst snd] in Hcp |- *.
  exists d, m.
  assert (Hs : s !! src = Some (File d m)).
  { unfold node_at in Hsrc. destruct src as [|x src']; [done|].
    by apply mkdirs_file in Hsrc. }
  rewrite Hs1dst in Hcp |- *. cbn [negb fst snd] in Hcp |- *.
  by split.
Qed.

(** The state that a successful archive step leaves. *)
Lemma zip_staging_folder_run (E : env) (out : path) (s : fsys) :
  dry_run E = false →
  out ∉ staged_files E s →
  result (_zip_staging_folder E out s) = Ok tt →
  state (_zip_staging_folder E out s)
  = <[out := File (Zip (archive_entry E s <$> staged_files E s)) (now E)]> s.
Proof.
  intros Hdry Hout Hok.
  unfold _zip_staging_folder in Hok |- *. rewrite Hdry in Hok |- *.
  unfold call, log in Hok |- *.
  rewrite result_emit_bind in Hok. rewrite state_emit_bind.
  cbv iota in Hok |- *.
  rewrite result_emit_bind in Hok. rewrite state_emit_bind.
  rewrite result_bind, walk_files_run in Hok. rewrite state_bind, walk_files_run.
  cbn [result state fst snd] in Hok |- *.
  change (if is_dir s (staging_dir E)
          then omap (file_below (staging_dir E)) (map_to_list s) else [])
    with (staged_files E s) in Hok |- *.
  apply result_bind_Ok in Hok as ([] & Hopen & Hok & Hst). rewrite Hst. clear Hst.
  unfold zip_open in Hopen, Hok |- *.
  apply sys_Ok in Hopen as (_ & Hopen & Hst). rewrite Hst in Hok |- *. clear Hst.
  unfold create in Hopen, Hok |- *.
  destruct (is_dir s (dirname out) && negb (is_dir s out)); [|done].
  cbn [fst snd] in Hok |- *.
  apply result_bind_Ok in Hok as (us & Hloop & _ & Hst). rewrite Hst. clear Hst.
  change (state (emit (Log INFO MsgZipDone) ?x)) with x.
  rewrite (write_entries_run E out s _ [] us); [done| |done].
  intros f Hf. split; [by intros ->|].
  apply elem_of_staged_files in Hf as (_ & r & d & m & Hr & -> & Hs).
  unfold is_file. rewrite node_at_below by done. by rewrite Hs.
Qed.

Lemma trace_for_each_worker E f files s :
  trace (for_each (_copy_worker E) (f :: files) s)
  = trace (_copy_worker E f s)
    ++ trace (for_each (_copy_worker E) files (state (_copy_worker E f s))).
Proof.
  rewrite for_each_cons, trace_bind.
  destruct (copy_worker_total E f s) as (ok & size & ->).
  rewrite trace_bind.
  destruct (result (for_each (_copy_worker E) files _)); [|done].
  cbn [trace mret M_ret snd]. by rewrite app_nil_r.
Qed.

Lemma is_dir_insert_other (s : fsys) (p q : path) (x : node) :
  p ≠ q → is_dir (<[q := x]> s) p = is_dir s p.
Proof.
  intros Hne. unfold is_dir, node_at. destruct p; [done|].
  by rewrite lookup_insert_ne.
Qed.

(** A copy attempt that fails leaves every regular file as it is: at most
    directories are new. *)
Lemma copy2_Raise_state E a b s e :
  result (copy2 E a b s) = Raise e → state (copy2 E a b s) = s.
Proof.
  unfold copy2, sys. destruct (fault E _); [reflexivity|].
  destruct (node_at s a) as [[d m|m]|]; [|reflexivity|reflexivity].
  cbv zeta. destruct (bool_decide _); [reflexivity|].
  destruct (_ && _); [discriminate|reflexivity].
Qed.

Lemma copy_attempt_Raise_state E f s e :
  result (copy_attempt E f s) = Raise e →
  state (copy_attempt E f s) = s ∨ ∃ p, state (copy_attempt E f s) = mkdirs E s p.
Proof.
  unfold copy_attempt. rewrite result_bind, state_bind, getsize_state.
  destruct (result (getsize E f s)) as [size|]; [|by left].
  destruct (commonpath (Config.source_folders (cfg E))) as [c|]; [|by left].
  rewrite result_bind, state_bind. cbn [result state mret M_ret fst snd]. cbv zeta.
  set (dst := join (staging_dir E) (relpath f c)).
  rewrite result_bind, state_bind.
  assert (Hmk : state (makedirs E (dirname dst) s) = s
                ∨ ∃ p, state (makedirs E (dirname dst) s) = mkdirs E s p).
  { destruct (makedirs_state E (dirname dst) s) as [->| ->]; eauto. }
  destruct (result (makedirs E (dirname dst) s)) as [[]|]; [|done].
  rewrite result_bind, state_bind.
  destruct (negb (dry_run E)).
  - destruct (result (copy2 E f dst _)) as [[]|e'] eqn:Hcp; [discriminate|].
    intros _. by rewrite (copy2_Raise_state _ _ _ _ _ Hcp).
  - discriminate.
Qed.

Lemma failed_worker_state E f s e :
  result (copy_attempt E f s) = Raise e →
  (∀ p, is_dir s p = true → is_dir (state (_copy_worker E f s)) p = true)
  ∧ (∀ q d m, state (_copy_worker E f s) !! q = Some (File d m)
              ↔ s !! q = Some (File d m)).
Proof.
  intros He. rewrite state_copy_worker_attempt.
  destruct (copy_attempt_Raise_state E f s e He) as [->|[p ->]]; [done|].
  split.
  - intros q. apply mkdirs_keeps_dir.
  - intros q d m.
    destruct (mkdirs_lookup E s p q) as [->|(Hn & _ & ->)]; [done|].
    rewrite Hn. split; discriminate.
Qed.

Section Mirror.
Variables (E : env) (c : path) (s1 : fsys).
Hypothesis Hc : commonpath (Config.source_folders (cfg E)) = Some c.
Hypothesis Htree1 : tree_shaped s1.

Lemma worker_mirrors attempted copied s' rel size :
  dry_run E = false →
  stageable E c s1 (c ++ rel) →
  (∀ g, g ∈ attempted → stageable E c s1 g) →
  staging_mirrors E c s1 attempted copied s' →
  result (_copy_worker E (c ++ rel) s') = Ok (true, size, c ++ rel) →
  staging_mirrors E c s1 ((c ++ rel) :: attempted) ((c ++ rel) :: copied)
    (state (_copy_worker E (c ++ rel) s')).
Proof.
  intros Hdry (rel' & d & m & Heq & Hrel & Hcl & Hs1 & Hnsp) Hgood
    (Hdir & Hdirs & Hout & Hfiles) Hok.
  apply app_inv_head in Heq as <-.
  assert (Hfree : is_dir s' (staging_dir E ++ rel) = false).
  { apply (staging_destination_free E c attempted s' rel Hrel Hdirs).
    intros g r Hg Hr ->.
    destruct (Hgood _ Hg) as (? & dg & mg & _ & _ & _ & Hg1 & _).
    assert (Hd : is_dir s1 (c ++ rel) = true) by (apply (Htree1 _ r Hr); eauto).
    apply is_dir_lookup in Hd as [Hnil|[m' Hm']]; [|congruence].
    by destruct c, rel. }
  destruct (copy_worker_state E c rel s' size Hdry Hc Hrel Hcl Hfree Hok)
    as (d' & m' & Hsrc & Hst).
  rewrite (Hout _ Hnsp), Hs1 in Hsrc. injection Hsrc as <- <-.
  split_and!.
  - rewrite Hst, is_dir_insert_other.
    + by apply mkdirs_keeps_dir.
    + intros Heq. apply (f_equal length) in Heq. rewrite length_app in Heq.
      destruct rel; [done|]. simpl in Heq. lia.
  - by apply worker_keeps_staging_dirs.
  - intros q Hq.
    rewrite (changes_only_copy_worker E c rel Hc Hrel Hcl s' q Hq). by apply Hout.
  - intros r d0 m0 Hr. rewrite Hst. destruct (decide (r = rel)) as [->|Hne].
    + rewrite lookup_insert_eq. split.
      * intros [= <- <-]. split; [apply list_elem_of_here|done].
      * intros [_ Hs]. rewrite Hs1 in Hs. by injection Hs as <- <-.
    + rewrite lookup_insert_ne by (intros ?%app_inv_head; congruence).
      assert (Hmk : mkdirs E s' (dirname (staging_dir E ++ rel)) !! (staging_dir E ++ r)
                    = Some (File d0 m0)
                    ↔ s' !! (staging_dir E ++ r) = Some (File d0 m0)).
      { destruct (mkdirs_lookup E s' (dirname (staging_dir E ++ rel))
                    (staging_dir E ++ r)) as [->|(Hn & _ & ->)]; [done|].
        rewrite Hn. split; discriminate. }
      rewrite Hmk, (Hfiles r d0 m0 Hr), elem_of_cons.
      split; [intros [? ?]; auto|]. intros [[Heq|?] ?]; [|done].
      apply app_inv_head in Heq. congruence.
Qed.

Lemma failed_worker_mirrors attempted copied s' rel e :
  stageable E c s1 (c ++ rel) →
  staging_mirrors E c s1 attempted copied s' →
  result (copy_attempt E (c ++ rel) s') = Raise e →
  staging_mirrors E c s1 ((c ++ rel) :: attempted) copied
    (state (_copy_worker E (c ++ rel) s')).
Proof.
  intros (rel' & d & m & Heq & Hrel & Hcl & Hs1 & Hnsp)
    (Hdir & Hdirs & Hout & Hfiles) He.
  apply app_inv_head in Heq as <-.
  destruct (failed_worker_state E (c ++ rel) s' e He) as [Hkeep Hsame].
  split_and!.
  - by apply Hkeep.
  - by apply worker_keeps_staging_dirs.
  - intros q Hq.
    rewrite (changes_only_copy_worker E c rel Hc Hrel Hcl s' q Hq). by apply Hout.
  - intros r d0 m0 Hr. rewrite Hsame. by apply Hfiles.
Qed.

(** The pool keeps the mirror: the files copied are those with a successful
    result, every result is that of an enumerated file, and a file without
    a successful result has the record of its failure. *)
Lemma pool_mirrors files attempted copied s' :
  dry_run E = false →
  (∀ g, g ∈ files → stageable E c s1 g) →
  (∀ g, g ∈ attempted → stageable E c s1 g) →
  staging_mirrors E c s1 attempted copied s' →
  ∃ rs attempted' copied',
    result (for_each (_copy_worker E) files s') = Ok rs
    ∧ (∀ g, g ∈ copied' ↔ (∃ size, (true, size, g) ∈ rs) ∨ g ∈ copied)
    ∧ (∀ r, r ∈ rs → r.2 ∈ files)
    ∧ (∀ g, g ∈ files →
         (∃ size, (true, size, g) ∈ rs)
         ∨ ∃ e, Log ERROR (MsgCopyFailed g e)
                ∈ trace (for_each (_copy_worker E) files s'))
    ∧ staging_mirrors E c s1 attempted' copied'
        (state (for_each (_copy_worker E) files s')).
Proof.
  intros Hdry. revert attempted copied s'.
  induction files as [|f files IH]; intros attempted copied s' Hf Hg Hinv.
  { exists [], attempted, copied.
    split_and!; [done| |by intros ? ?%elem_of_nil|by intros ? ?%elem_of_nil|done].
    intros g. split; [auto|]. by intros [[size Hs%elem_of_nil]|?]. }
  assert (Hsf : stageable E c s1 f) by (apply Hf, list_elem_of_here).
  destruct Hsf as (rel & d & m & -> & Hsf).
  assert (Hsf' : stageable E c s1 (c ++ rel)) by (by exists rel, d, m).
  assert (Hstep : ∃ r attempted1 copied1,
     result (_copy_worker E (c ++ rel) s') = Ok r ∧ r.2 = c ++ rel
     ∧ (∀ g, g ∈ attempted1 → stageable E c s1 g)
     ∧ (∀ g, g ∈ copied1 ↔ (∃ size, r = (true, size, g)) ∨ g ∈ copied)
     ∧ ((∃ size, r = (true, size, c ++ rel))
        ∨ ∃ e, Log ERROR (MsgCopyFailed (c ++ rel) e)
               ∈ trace (_copy_worker E (c ++ rel) s'))
     ∧ staging_mirrors E c s1 attempted1 copied1
         (state (_copy_worker E (c ++ rel) s'))).
  { assert (Hatt : ∀ g, g ∈ (c ++ rel) :: attempted → stageable E c s1 g).
    { intros g [->|?]%elem_of_cons; auto. }
    destruct (result (copy_attempt E (c ++ rel) s')) as [r|e] eqn:Ha.
    - destruct (copy_attempt_Ok _ _ _ _ Ha) as [size Heqr]. subst r.
      assert (Hok : result (_copy_worker E (c ++ rel) s') = Ok (true, size, c ++ rel)).
      { by rewrite result_copy_worker, Ha. }
      exists (true, size, c ++ rel), ((c ++ rel) :: attempted), ((c ++ rel) :: copied).
      split_and!; [done|done|done| | |by apply (worker_mirrors attempted copied s' rel size)].
      + intros g. rewrite elem_of_cons. split.
        * intros [->|?]; [left; by exists size|by right].
        * intros [[sz Heq]|?]; [|by right]. left. by injection Heq.
      + left. by exists size.
    - exists (false, 0, c ++ rel), ((c ++ rel) :: attempted), copied.
      split_and!; [| done|done| | |by eapply failed_worker_mirrors].
      + by rewrite result_copy_worker, Ha.
      + intros g. split; [by right|]. by intros [[sz Heq]|?].
      + right. exists e. rewrite trace_copy_worker, Ha.
        rewrite elem_of_cons, elem_of_app, elem_of_cons. auto. }
  destruct Hstep as (r & att1 & cop1 & Hr & Hr2 & Hatt1 & Hcop1 & Hlog1 & Hinv1).
  destruct (IH att1 cop1 (state (_copy_worker E (c ++ rel) s')))
    as (rs & att' & cop' & Hrs & Hcop' & Hsrc & Hlog & Hfin); [|done|done|].
  { intros g Hin. by apply Hf, list_elem_of_further. }
  exists (r :: rs), att', cop'. split_and!.
  - by rewrite for_each_cons, result_bind, Hr, result_bind, Hrs.
  - intros g. rewrite Hcop', Hcop1. split.
    + intros [[size Hin]|[[size ->]|?]].
      * left. exists size. by apply list_elem_of_further.
      * left. exists size. apply list_elem_of_here.
      * by right.
    + intros [[size [<-|Hin]%elem_of_cons]|?].
      * right. left. by exists size.
      * left. by exists size.
      * right. by right.
  - intros r' [->|Hin]%elem_of_cons.
    + rewrite Hr2. apply list_elem_of_here.
    + apply list_elem_of_further. by apply Hsrc.
  - intros g [->|Hin]%elem_of_cons.
    + destruct Hlog1 as [[size ->]|[e He]].
      * left. exists size. apply list_elem_of_here.
      * right. exists e. rewrite trace_for_each_worker, elem_of_app. by left.
    + destruct (Hlog g Hin) as [[size Hs]|[e He]].
      * left. exists size. by apply list_elem_of_further.
      * right. exists e. rewrite trace_for_each_worker, elem_of_app. by right.
  - by rewrite state_for_each_worker.
Qed.
End Mirror.

Lemma reset_mirrors E c s :
  result (reset_staging E s) = Ok tt →
  tree_shaped s →
  staging_mirrors E c (state (reset_staging E s)) [] [] (state (reset_staging E s)).
Proof.
  intros Hreset Htree. split_and!.
  - destruct (reset_staging_Ok E s Hreset) as (s' & -> & Hfree & _).
    apply is_dir_lookup.
    destruct (decide (staging_dir E = [])) as [?|Hp]; [by left|]. right.
    assert (Hin : staging_dir E ∈ prefixes (staging_dir E)).
    { by apply elem_of_prefixes_iff. }
    rewrite (mkdirs_lookup_in E s' _ _ Hin).
    destruct (s' !! staging_dir E) as [[d m|m]|] eqn:Hs; [|by eauto|by eauto].
    exfalso. apply not_true_iff_false in Hfree. apply Hfree.
    apply existsb_exists. exists (staging_dir E).
    split; [apply list_elem_of_In; exact Hin|].
    unfold is_file, node_at. destruct (staging_dir E); [done|]. by rewrite Hs.
  - intros r0 Hr0 Hd. apply is_dir_lookup in Hd as [Hnil|[m Hm]].
    + by destruct (staging_dir E), r0.
    + by rewrite reset_staging_empty in Hm.
  - done.
  - intros r d m Hr. rewrite reset_staging_empty by done.
    split; [done|]. by intros [?%elem_of_nil _].
Qed.

Lemma enumerated_stageable E c s files g :
  commonpath (Config.source_folders (cfg E)) = Some c →
  tree_shaped s → clean_names s →
  result (reset_staging E s) = Ok tt →
  result (_get_files_to_backup E (state (reset_staging E s))) = Ok files →
  g ∈ files →
  stageable E c (state (reset_staging E s)) g.
Proof.
  intros Hc Htree Hclean Hreset Hfiles Hg.
  destruct (enumerated_below_common_ancestor E _ c files g Hc Hfiles Hg)
    as (rel & d & m & Hrel & -> & Hs1).
  destruct (reset_mirrors E c s Hreset Htree) as (Hdir & _ & _ & _).
  pose proof (reset_staging_tree E s Hreset Htree) as Htree1.
  exists rel, d, m. split_and!; [done|done| |done|].
  - apply reset_staging_files in Hs1; [|done].
    assert (Hk : existsb special (c ++ rel) = false) by (apply Hclean; eauto).
    rewrite existsb_app in Hk. by apply orb_false_elim in Hk as [_ ?].
  - assert (Hgne : c ++ rel ≠ []) by (by destruct c, rel).
    assert (Hnd : is_dir (state (reset_staging E s)) (c ++ rel) = false).
    { unfold is_dir, node_at. destruct (c ++ rel); [done|]. by rewrite Hs1. }
    intros [[r Hr]|[r Hr]].
    + destruct r as [|y r].
      * rewrite app_nil_r in Hr. congruence.
      * apply is_dir_lookup in Hdir as [Hnil|[m' Hm']].
        { rewrite Hnil in Hr. symmetry in Hr. by apply app_eq_nil in Hr as [? _]. }
        assert (Hd : is_dir (state (reset_staging E s)) (c ++ rel) = true).
        { apply (Htree1 _ (y :: r)); [done|]. rewrite <- Hr. eauto. }
        congruence.
    + destruct r as [|y r].
      * rewrite app_nil_r in Hr. congruence.
      * rewrite Hr, reset_staging_empty in Hs1; done.
Qed.

(** The pool runs the worker of every file, each in the state that the
    workers before it leave, and returns their results in the order of the
    files. *)
Lemma pool_runs_every_worker E files s :
  ∃ rs, result (for_each (_copy_worker E) files s) = Ok rs
    ∧ length rs = length files
    ∧ ∀ pre g post, files = pre ++ g :: post →
        ∃ r, result (_copy_worker E g (state (for_each (_copy_worker E) pre s))) = Ok r
             ∧ rs !! length pre = Some r
             ∧ ∀ ev, ev ∈ trace (_copy_worker E g
                                   (state (for_each (_copy_worker E) pre s))) →
                     ev ∈ trace (for_each (_copy_worker E) files s).
Proof.
  revert s. induction files as [|f files IH]; intros s.
  { exists []. split_and!; [done|done|]. intros [|??] ?? Heq; discriminate Heq. }
  destruct (copy_worker_total E f s) as (ok & size & Hr).
  destruct (IH (state (_copy_worker E f s))) as (rs & Hrs & Hlen & Hall).
  exists ((ok, size, f) :: rs). split_and!.
  - by rewrite for_each_cons, result_bind, Hr, result_bind, Hrs.
  - simpl. by rewrite Hlen.
  - intros [|x pre] g post Heq; simpl in Heq; injection Heq as <- ->.
    + exists (ok, size, f). split_and!; [exact Hr|done|].
      intros ev Hev. rewrite trace_for_each_worker, elem_of_app. by left.
    + destruct (Hall pre g post eq_refl) as (r & Hr' & Hlk & Htr).
      exists r. rewrite state_for_each_worker. split_and!; [done|done|].
      intros ev Hev. rewrite trace_for_each_worker, elem_of_app. right. by apply Htr.
Qed.

Lemma copy_files_run E files total s :
  0 < Config.parallel_workers (cfg E) →
  state (_copy_files_to_staging_parallel E files total s)
  = state (for_each (_copy_worker E) files s)
  ∧ ∃ before,
      trace (_copy_files_to_staging_parallel E files total s)
      = before ++ trace (for_each (_copy_worker E) files s).
Proof.
  intros Hw. unfold _copy_files_to_staging_parallel.
  rewrite trace_call_bind, trace_log_bind. unfold call, log.
  rewrite !state_emit_bind, state_bind, trace_bind.
  assert (Hdry : ∃ t, ∀ s',
            (if dry_run E then emit (Log INFO MsgDryCopy) else mret tt) s'
            = (Ok tt, s', t)).
  { destruct (dry_run E); eexists; intros s'; reflexivity. }
  destruct Hdry as [t Hdry]. rewrite Hdry.
  cbn [result state trace fst snd].
  unfold pool_results.
  destruct (Z.leb_spec (Config.parallel_workers (cfg E)) 0) as [?|_]; [lia|].
  rewrite state_bind, trace_bind.
  split.
  - by destruct (result (for_each (_copy_worker E) files s)).
  - exists (Call m_copy_files_to_staging_parallel
            :: Log INFO (MsgCopying (length files) total
                           (Config.parallel_workers (cfg E))) :: t).
    destruct (result (for_each (_copy_worker E) files s));
      cbn [trace mret M_ret snd]; by rewrite ?app_nil_r.
Qed.

(** The parts of a locked block that reaches the copy phase. *)
Lemma locked_body_run E s files sizes :
  0 < Config.parallel_workers (cfg E) →
  result (reset_staging E s) = Ok tt →
  result (_get_files_to_backup E (state (reset_staging E s))) = Ok files →
  files ≠ [] →
  result (for_each (getsize E) files (state (reset_staging E s))) = Ok sizes →
  result (locked_body E s)
  = result (_zip_staging_folder E (Config.destination (cfg E) ++ [backup_filename E])
              (copy_time_state E s files))
  ∧ state (locked_body E s)
    = state (_zip_staging_folder E (Config.destination (cfg E) ++ [backup_filename E])
               (copy_time_state E s files))
  ∧ ∃ before,
      trace (locked_body E s)
      = before
        ++ trace (for_each (_copy_worker E) files (state (reset_staging E s)))
        ++ trace (_zip_staging_folder E
                    (Config.destination (cfg E) ++ [backup_filename E])
                    (copy_time_state E s files)).
Proof.
  intros Hw Hreset Hfiles Hne Hsizes.
  destruct (get_files_run E (state (reset_staging E s))) as [_ Hst].
  unfold locked_body, copy_time_state.
  rewrite result_bind, state_bind, trace_bind, Hreset.
  rewrite result_bind, state_bind, trace_bind, Hfiles, Hst.
  destruct files as [|f0 files]; [done|].
  rewrite result_bind, state_bind, trace_bind, state_for_each_getsize, Hsizes.
  cbv zeta.
  rewrite join_ordinary by apply backup_filename_ordinary.
  set (total := foldl Z.add 0 sizes).
  set (s1 := state (reset_staging E s)).
  destruct (copy_files_run E (f0 :: files) total s1 Hw) as [Hcs [before Hct]].
  rewrite result_bind, state_bind, trace_bind, copy_files_total, Hcs, Hct by done.
  split; [done|]. split; [done|].
  match goal with
  | |- ∃ b, ?a ++ ?b1 ++ ?c ++ (before ++ ?t) ++ ?d = _ =>
    exists (a ++ b1 ++ c ++ before)
  end.
  by rewrite <- !app_assoc.
Qed.

(** A locked block that completes with files to back up went through the
    copy phase. *)
Lemma locked_body_Ok E s files :
  result (locked_body E s) = Ok tt →
  result (_get_files_to_backup E (state (reset_staging E s))) = Ok files →
  files ≠ [] →
  0 < Config.parallel_workers (cfg E)
  ∧ result (reset_staging E s) = Ok tt
  ∧ ∃ sizes, result (for_each (getsize E) files (state (reset_staging E s))) = Ok sizes.
Proof.
  intros Hok Hfiles Hne.
  destruct (get_files_run E (state (reset_staging E s))) as [_ Hst].
  unfold locked_body in Hok.
  rewrite result_bind in Hok.
  destruct (result (reset_staging E s)) as [[]|] eqn:Hreset; [|done].
  rewrite result_bind, Hfiles, Hst in Hok.
  destruct files as [|f0 files]; [done|].
  rewrite result_bind, state_for_each_getsize in Hok.
  destruct (result (for_each (getsize E) (f0 :: files) _)) as [sizes|]; [|done].
  cbv zeta in Hok.
  split; [|split; [done|by exists sizes]].
  destruct (Z.lt_ge_cases 0 (Config.parallel_workers (cfg E))) as [?|Hle]; [done|].
  rewrite result_bind, copy_files_no_workers in Hok by done. done.
Qed.

(** C6. In a locked block that reaches the copy phase (the staging
    directory is reset, the enumeration returns the files
    [pre ++ f :: post], their sizes are read, the worker count is positive),
    let the copy of [f] fail with [e], in the state that the workers of the
    files before it leave.  Then the pool returns one result for every file,
    in their order, and the result of [f] is the unsuccessful (False, 0, f);
    the worker of every file is called in the block, each in the state that
    the workers before it leave, and its result is the one the pool returns
    at its position; the failure of [f] is logged, and after that the
    archive step is entered; the block ends as the archive step does, which
    starts in the state that the workers leave.  In a block that is not
    simulated, on a file system that is a tree with clean names, the staging
    tree then holds a regular file for every file with a successful result,
    at its path relative to the common ancestor [c] of the source folders;
    unless the file is the log file or has an unsuccessful result as well,
    it has the content and the modification time that the source had when
    the block started. *)
Theorem copy_failure_is_recorded_and_tolerated
    (E : env) (s : fsys) (pre post : list path) (f : path) (e : exn)
    (sizes : list Z) :
  0 < Config.parallel_workers (cfg E) →
  result (reset_staging E s) = Ok tt →
  result (_get_files_to_backup E (state (reset_staging E s))) = Ok (pre ++ f :: post) →
  result (for_each (getsize E) (pre ++ f :: post) (state (reset_staging E s)))
  = Ok sizes →
  result (copy_attempt E f (copy_time_state E s pre)) = Raise e →
  ∃ rs,
    result (pool_results E (pre ++ f :: post) (state (reset_staging E s))) = Ok rs
    ∧ length rs = length (pre ++ f :: post)
    ∧ rs !! length pre = Some (false, 0, f)
    ∧ (∀ pre' g post', pre ++ f :: post = pre' ++ g :: post' →
         Call (m_copy_worker g) ∈ trace (locked_body E s)
         ∧ ∃ r, result (_copy_worker E g (copy_time_state E s pre')) = Ok r
                ∧ rs !! length pre' = Some r)
    ∧ precedes (Log ERROR (MsgCopyFailed f e)) (Call m_zip_staging_folder)
        (trace (locked_body E s))
    ∧ result (locked_body E s)
      = result (_zip_staging_folder E
                  (Config.destination (cfg E) ++ [backup_filename E])
                  (copy_time_state E s (pre ++ f :: post)))
    ∧ state (locked_body E s)
      = state (_zip_staging_folder E
                 (Config.destination (cfg E) ++ [backup_filename E])
                 (copy_time_state E s (pre ++ f :: post)))
    ∧ (dry_run E = false → is_tree s = true → has_clean_names s = true →
       ∀ c, commonpath (Config.source_folders (cfg E)) = Some c →
       ∀ size rel, (true, size, c ++ rel) ∈ rs →
         is_file (copy_time_state E s (pre ++ f :: post)) (staging_dir E ++ rel) = true
         ∧ ((false, 0, c ++ rel) ∉ rs → c ++ rel ≠ log_path E →
            ∃ d m, s !! (c ++ rel) = Some (File d m)
                   ∧ copy_time_state E s (pre ++ f :: post) !! (staging_dir E ++ rel)
                     = Some (File d m))).
Proof.
  intros Hw Hreset Hfiles Hsizes He.
  assert (Hne : pre ++ f :: post ≠ []) by (by destruct pre).
  destruct (locked_body_run E s _ sizes Hw Hreset Hfiles Hne Hsizes)
    as (Hres & Hst & before & Htr).
  destruct (pool_runs_every_worker E (pre ++ f :: post) (state (reset_staging E s)))
    as (rs & Hrs & Hlen & Hall).
  exists rs.
  assert (Hpool : result (pool_results E (pre ++ f :: post) (state (reset_staging E s)))
                  = Ok rs).
  { unfold pool_results.
    by destruct (Z.leb_spec (Config.parallel_workers (cfg E)) 0) as [?|_]; [lia|]. }
  destruct (Hall pre f post eq_refl) as (rf & Hrf & Hlkf & Htrf).
  fold (copy_time_state E s pre) in Hrf, Htrf.
  split_and!; [done|done| | | |done|done|].
  - rewrite result_copy_worker, He in Hrf. by injection Hrf as <-.
  - intros pre' g post' Heq.
    destruct (Hall pre' g post' Heq) as (r & Hr & Hlk & Htrw).
    split; [|by exists r].
    rewrite Htr, !elem_of_app. right. left. apply Htrw.
    rewrite trace_copy_worker. apply list_elem_of_here.
  - assert (Hin : Log ERROR (MsgCopyFailed f e)
                  ∈ trace (for_each (_copy_worker E) (pre ++ f :: post)
                             (state (reset_staging E s)))).
    { apply Htrf. rewrite trace_copy_worker, He.
      rewrite elem_of_cons, elem_of_app, elem_of_cons. auto. }
    apply list_elem_of_split in Hin as (l1 & l2 & Hsplit).
    assert (Hz : ∃ tz, trace (_zip_staging_folder E
                                (Config.destination (cfg E) ++ [backup_filename E])
                                (copy_time_state E s (pre ++ f :: post)))
                       = Call m_zip_staging_folder :: tz).
    { unfold _zip_staging_folder. rewrite trace_call_bind. eauto. }
    destruct Hz as [tz Hz].
    exists (before ++ l1), l2, tz. rewrite Htr, Hsplit, Hz.
    by rewrite <- !app_assoc.
  - intros Hdry Htree%is_tree_sound Hclean%has_clean_names_sound c Hc size rel Hin.
    pose proof (reset_staging_tree E s Hreset Htree) as Htree1.
    assert (Hgood : ∀ g, g ∈ pre ++ f :: post →
                         stageable E c (state (reset_staging E s)) g).
    { intros g Hg. by apply (enumerated_stageable E c s (pre ++ f :: post) g). }
    destruct (pool_mirrors E c (state (reset_staging E s)) Hc Htree1
                (pre ++ f :: post) [] [] (state (reset_staging E s)) Hdry Hgood)
      as (rs' & att & cop & Hrs' & Hcop & Hsrc & _ & Hdir & Hdirs & Hframe & Hmirror).
    { by intros g ?%elem_of_nil. }
    { by apply reset_mirrors. }
    rewrite Hrs in Hrs'. injection Hrs' as <-.
    pose proof (Hsrc _ Hin) as Hg. cbn [snd] in Hg.
    destruct (Hgood _ Hg) as (rel' & d & m & Heq & Hrel & _ & Hs1 & Hnsp).
    apply app_inv_head in Heq as <-.
    assert (Hs2 : copy_time_state E s (pre ++ f :: post) !! (staging_dir E ++ rel)
                  = Some (File d m)).
    { apply Hmirror; [done|]. split; [|done]. apply Hcop. left. by exists size. }
    split.
    + unfold is_file. rewrite node_at_below by done. by rewrite Hs2.
    + intros _ _. exists d, m. split; [|done].
      by rewrite <- (changes_only_reset_staging E s _ Hnsp).
Qed.

Lemma copy_failure_is_recorded_and_tolerated_witness :
  let E := Examples.copy_fails in
  let f1 := ["src"; "a"; "f1.txt"] in
  let f2 := ["src"; "b"; "sub"; "f2.txt"] in
  let e := OSError (sys_copy2 f1 ["stage"; "a"; "f1.txt"]) in
  ∃ rs,
    result (pool_results E ([] ++ f1 :: [f2]) (state (reset_staging E Examples.disk)))
    = Ok rs
    ∧ length rs = length ([] ++ f1 :: [f2])
    ∧ rs !! length (@nil path) = Some (false, 0, f1)
    ∧ (∀ pre' g post', [] ++ f1 :: [f2] = pre' ++ g :: post' →
         Call (m_copy_worker g) ∈ trace (locked_body E Examples.disk)
         ∧ ∃ r, result (_copy_worker E g (copy_time_state E Examples.disk pre')) = Ok r
                ∧ rs !! length pre' = Some r)
    ∧ precedes (Log ERROR (MsgCopyFailed f1 e)) (Call m_zip_staging_folder)
        (trace (locked_body E Examples.disk))
    ∧ result (locked_body E Examples.disk)
      = result (_zip_staging_folder E
                  (Config.destination (cfg E) ++ [backup_filename E])
                  (copy_time_state E Examples.disk ([] ++ f1 :: [f2])))
    ∧ state (locked_body E Examples.disk)
      = state (_zip_staging_folder E
                 (Config.destination (cfg E) ++ [backup_filename E])
                 (copy_time_state E Examples.disk ([] ++ f1 :: [f2])))
    ∧ (dry_run E = false → is_tree Examples.disk = true →
       has_clean_names Examples.disk = true →
       ∀ c, commonpath (Config.source_folders (cfg E)) = Some c →
       ∀ size rel, (true, size, c ++ rel) ∈ rs →
         is_file (copy_time_state E Examples.disk ([] ++ f1 :: [f2]))
           (staging_dir E ++ rel) = true
         ∧ ((false, 0, c ++ rel) ∉ rs → c ++ rel ≠ log_path E →
            ∃ d m, Examples.disk !! (c ++ rel) = Some (File d m)
                   ∧ copy_time_state E Examples.disk ([] ++ f1 :: [f2])
                       !! (staging_dir E ++ rel)
                     = Some (File d m))).
Proof.
  intros E f1 f2 e.
  apply (copy_failure_is_recorded_and_tolerated E Examples.disk [] [f2] f1 e [5; 6]).
  - reflexivity.
  - vm_compute. reflexivity.
  - vm_compute. reflexivity.
  - vm_compute. reflexivity.
  - vm_compute. reflexivity.
Defined.

(** * From the source folders to the bundle *)

(** X25. The bundle holds the sources.  In a locked block that is not
    simulated, on a file system that is a tree with clean names, with an
    output path that is not below the staging directory, and with the log
    file (which the block itself appends to, and which the file system of
    this development leaves out) not among the enumerated files: when the
    block completes and its log has no record of a failed copy, the output
    path holds an archive whose entries are exactly the enumerated files,
    each under its path relative to the common ancestor [c] of the source
    folders and with the content it had when the block started; no name
    occurs twice. *)
Theorem bundle_holds_the_enumerated_files
    (E : env) (s : fsys) (c : path) (files : list path) :
  dry_run E = false →
  is_tree s = true →
  has_clean_names s = true →
  commonpath (Config.source_folders (cfg E)) = Some c →
  ¬ staging_dir E `prefix_of` Config.destination (cfg E) ++ [backup_filename E] →
  result (_get_files_to_backup E (state (reset_staging E s))) = Ok files →
  files ≠ [] →
  log_path E ∉ files →
  result (locked_body E s) = Ok tt →
  forallb (λ e, negb (is_copy_failure e)) (trace (locked_body E s)) = true →
  ∃ es : list (path * data),
    state (locked_body E s) !! (Config.destination (cfg E) ++ [backup_filename E])
    = Some (File (Zip es) (now E))
    ∧ NoDup es.*1
    ∧ ∀ rel d, (rel, d) ∈ es ↔
        rel ≠ [] ∧ c ++ rel ∈ files ∧ ∃ m, s !! (c ++ rel) = Some (File d m).
Proof.
  intros Hdry Htree%is_tree_sound Hclean%has_clean_names_sound Hc Hout
    Hfiles Hne _ Hok Hlog.
  destruct (locked_body_Ok E s files Hok Hfiles Hne) as (Hw & Hreset & sizes & Hsizes).
  destruct (locked_body_run E s files sizes Hw Hreset Hfiles Hne Hsizes)
    as (Hres & Hst & before & Htr).
  rewrite Hres in Hok. rename Hok into Hzip.
  set (s1 := state (reset_staging E s)) in *.
  set (out := Config.destination (cfg E) ++ [backup_filename E]) in *.
  rewrite Htr, !forallb_app in Hlog.
  apply andb_true_iff in Hlog as [_ Hlog]. apply andb_true_iff in Hlog as [Hlog _].
  pose proof (reset_staging_tree E s Hreset Htree) as Htree1. fold s1 in Htree1.
  assert (Hgood : ∀ g, g ∈ files → stageable E c s1 g).
  { intros g Hg. by apply (enumerated_stageable E c s files g). }
  destruct (pool_mirrors E c s1 Hc Htree1 files [] [] s1 Hdry Hgood)
    as (rs & att & cop & Hrs & Hcop & Hsrc & Hlogs & Hdir & Hdirs & Hframe & Hmirror).
  { by intros g ?%elem_of_nil. }
  { by apply reset_mirrors. }
  assert (Hmem : ∀ g, g ∈ cop ↔ g ∈ files).
  { intros g. rewrite Hcop. split.
    - intros [[size Hin]|Hin%elem_of_nil]; [|done]. apply (Hsrc _ Hin).
    - intros Hg. left. destruct (Hlogs g Hg) as [?|[e He]]; [done|].
      rewrite forallb_forall in Hlog. apply list_elem_of_In in He.
      specialize (Hlog _ He). discriminate Hlog. }
  fold (copy_time_state E s files) in Hmirror.
  set (s2 := copy_time_state E s files) in *.
  assert (Hnot : out ∉ staged_files E s2).
  { intros (_ & r & ? & ? & _ & Heq & _)%elem_of_staged_files.
    apply Hout. by exists r. }
  rewrite Hst, (zip_staging_folder_run E out s2 Hdry Hnot Hzip).
  exists (archive_entry E s2 <$> staged_files E s2).
  assert (Hentry : ∀ f, f ∈ staged_files E s2 →
            ∃ r d m, r ≠ [] ∧ f = staging_dir E ++ r ∧ s2 !! f = Some (File d m)
                     ∧ archive_entry E s2 f = (r, d)).
  { intros f (_ & r & d & m & Hr & -> & Hs)%elem_of_staged_files.
    exists r, d, m. split_and!; try done.
    unfold archive_entry, content_at. by rewrite Hs, relpath_below. }
  split_and!.
  - apply lookup_insert_eq.
  - rewrite <- list_fmap_compose.
    apply NoDup_fmap_2_strong; [|apply NoDup_staged_files].
    intros f g Hf Hg Heq. simpl in Heq.
    destruct (Hentry f Hf) as (r & ? & ? & Hr & -> & _ & _).
    destruct (Hentry g Hg) as (r' & ? & ? & Hr' & -> & _ & _).
    rewrite !relpath_below in Heq by done. by subst.
  - intros rel d. rewrite list_elem_of_fmap. split.
    + intros (f & Heq & Hf).
      destruct (Hentry f Hf) as (r & d' & m & Hr & -> & Hs & He).
      rewrite He in Heq. injection Heq as -> ->.
      apply Hmirror in Hs as [Hin Hs1]; [|done].
      split; [done|].
      apply Hmem in Hin.
      split; [done|]. exists m. by apply (reset_staging_files E s) in Hs1.
    + intros (Hrel & Hin & m & Hs).
      destruct (Hgood _ Hin) as (rel' & d' & m' & Heq & _ & _ & Hs1 & Hnsp).
      pose proof (changes_only_reset_staging E s _ Hnsp) as Hfr. fold s1 in Hfr.
      clear Hs1. assert (Hs1 : s1 !! (c ++ rel) = Some (File d m))
        by (by rewrite Hfr).
      assert (Hs2 : s2 !! (staging_dir E ++ rel) = Some (File d m)).
      { apply Hmirror; [done|]. split; [|done]. by apply Hmem. }
      exists (staging_dir E ++ rel). split.
      * unfold archive_entry, content_at. by rewrite Hs2, relpath_below.
      * apply elem_of_staged_files. split; [done|]. by exists rel, d, m.
Qed.

Lemma bundle_holds_the_enumerated_files_witness :
  let E := Examples.real_run in
  ∃ es : list (path * data),
    state (locked_body E Examples.disk) !! ["backup"; "nightly_20240102_030405.zip"]
    = Some (File (Zip es) 100)
    ∧ NoDup es.*1
    ∧ ∀ rel d, (rel, d) ∈ es ↔
        rel ≠ [] ∧ ["src"] ++ rel ∈ [["src"; "a"; "f1.txt"]; ["src"; "b"; "sub"; "f2.txt"]]
        ∧ ∃ m, Examples.disk !! (["src"] ++ rel) = Some (File d m).
Proof.
  intros E.
  apply (bundle_holds_the_enumerated_files E Examples.disk ["src"]
           [["src"; "a"; "f1.txt"]; ["src"; "b"; "sub"; "f2.txt"]]).
  - reflexivity.
  - vm_compute. reflexivity.
  - vm_compute. reflexivity.
  - reflexivity.
  - intros [k Hk]. discriminate Hk.
  - vm_compute. reflexivity.
  - discriminate.
  - intros Hin. apply (bool_decide_pack _) in Hin. vm_compute in Hin. exact Hin.
  - vm_compute. reflexivity.
  - vm_compute. reflexivity.
Defined.

(** * A marker whose process identifier could not be written *)

(** X26. The marker is created before the process identifier is written
    into it (lines 23-24).  When the marker is absent, its directory exists
    and it is created, but the writing fails: the run logs the error as a
    critical one, never enters [LockFile.__exit__], and, the lock path not
    lying below the staging directory, ends with an empty marker in place;
    a later run with the same lock path does not acquire the lock and logs
    that another instance is running. *)
Theorem failed_pid_write_leaves_a_stale_marker (E E' : env) (s : fsys) :
  node_at s (lock_path E) = None →
  is_dir s (Config.destination (cfg E)) = true →
  ¬ staging_dir E `prefix_of` lock_path E →
  fault E (sys_open_w (lock_path E)) = false →
  fault E (sys_write (lock_path E)) = true →
  lock_path E' = lock_path E →
  Log CRITICAL (MsgFatal (OSError (sys_write (lock_path E)))) ∈ trace (run E s)
  ∧ Call LockFile_exit ∉ trace (run E s)
  ∧ state (run E s) !! lock_path E = Some (File (Bytes "") (now E))
  ∧ ¬ acquires E' (state (run E s))
  ∧ Log ERROR (MsgRunError (RuntimeError (lock_path E')))
    ∈ trace (run E' (state (run E s))).
Proof.
  intros Hnone Hdir Hstage Hopen Hwrite Hsame.
  assert (Hlk : ∀ s', node_at s' (lock_path E) = s' !! lock_path E).
  { intros s'. rewrite lock_path_eq. apply node_at_snoc. }
  assert (Hen : LockFile.__enter__ E (lock_path E) s =
    (Raise (OSError (sys_write (lock_path E))),
     <[lock_path E := File (Bytes "") (now E)]> s,
     [Call LockFile_enter; Sys (sys_exists (lock_path E));
      Sys (sys_open_w (lock_path E)); Sys (sys_write (lock_path E))])).
  { rewrite enter_eq, Hopen, Hwrite.
    rewrite bool_decide_eq_false_2 by (rewrite Hnone; by intros [? ?]).
    assert (Hd : is_dir s (dirname (lock_path E)) = true).
    { by rewrite lock_path_eq, dirname_app_snoc. }
    assert (Hnd : is_dir s (lock_path E) = false).
    { rewrite lock_path_eq in Hnone |- *. unfold is_dir. by rewrite Hnone. }
    by rewrite Hd, Hnd. }
  assert (Hg : guarded_block E s =
    (Ok tt, <[lock_path E := File (Bytes "") (now E)]> s,
     [Call LockFile_enter; Sys (sys_exists (lock_path E));
      Sys (sys_open_w (lock_path E)); Sys (sys_write (lock_path E));
      Log CRITICAL (MsgFatal (OSError (sys_write (lock_path E))))])).
  { unfold guarded_block, with_, try_except.
    by rewrite (bind_Raise _ _ _ _ _ _ Hen). }
  assert (Hend : state (run E s) !! lock_path E = Some (File (Bytes "") (now E))).
  { rewrite state_run, state_finally_block, changes_only_cleanup.
    - rewrite Hg. unfold state. cbn [fst snd]. apply lookup_insert_eq.
    - intros [_ [Hp|(n & Hn & Heq)]]; [by apply Hstage|].
      rewrite lock_path_eq in Heq. apply app_inj_tail in Heq as [_ <-].
      unfold is_backup in Hn. apply andb_true_iff in Hn as [_ Hn]. discriminate Hn. }
  assert (Hheld : is_Some (node_at (state (run E s)) (lock_path E'))).
  { rewrite Hsame, Hlk, Hend. eauto. }
  split_and!.
  - rewrite trace_run, Hg. cbn [trace state fst snd].
    rewrite !elem_of_cons, elem_of_app. right. right. left.
    rewrite !elem_of_cons. auto 10.
  - rewrite trace_run, Hg. cbn [trace state fst snd].
    pose proof (quiet_finally_block E [LockFile_exit]) as Hq.
    rewrite !elem_of_cons, elem_of_app, !elem_of_cons, elem_of_nil.
    intros [?|[?|[[?|[?|[?|[?|[?|[]]]]]]|Hin]]]; try discriminate.
    assert (Hf : m_cleanup ∉ [LockFile_exit]).
    { rewrite elem_of_cons, elem_of_nil. by intros [?|[]]. }
    specialize (Hq Hf (<[lock_path E := File (Bytes "") (now E)]> s)).
    rewrite Forall_forall in Hq. apply (Hq _ Hin).
    rewrite elem_of_cons. by left.
  - exact Hend.
  - intros Hacq. apply enter_Ok_inv in Hacq as (Hn & _).
    rewrite Hn in Hheld. by destruct Hheld.
  - rewrite (run_when_locked E' _ Hheld). cbn [trace snd].
    rewrite elem_of_app, !elem_of_cons. auto 10.
Qed.

Lemma failed_pid_write_leaves_a_stale_marker_witness :
  let E := Examples.write_fails in
  Log CRITICAL (MsgFatal (OSError (sys_write (lock_path E))))
    ∈ trace (run E Examples.disk)
  ∧ Call LockFile_exit ∉ trace (run E Examples.disk)
  ∧ state (run E Examples.disk) !! lock_path E = Some (File (Bytes "") (now E))
  ∧ ¬ acquires Examples.real_run (state (run E Examples.disk))
  ∧ Log ERROR (MsgRunError (RuntimeError (lock_path Examples.real_run)))
    ∈ trace (run Examples.real_run (state (run E Examples.disk))).
Proof.
  intros E.
  apply (failed_pid_write_leaves_a_stale_marker E Examples.real_run Examples.disk).
  - reflexivity.
  - reflexivity.
  - intros [k Hk]. discriminate Hk.
  - reflexivity.
  - reflexivity.
  - reflexivity.
Defined.
